(** * smartclm-eval: chunking, embedding, hybrid retrieval and the
      three-stage violation chain, embedded in Rocq.

    The development follows the Python sources:
    - [src/documents/chunking.py]     (module [Chunking])
    - [src/aws/embedding_service.py]  (module [Embedding])
    - [src/documents/repository.py]   (module [Repository])
    - [rag_pipeline.py]               (module [RagPipeline])
    - [src/documents/base_service.py] (module [BaseService])
    - [src/chat/service.py]           (module [ChatService])
    - [src/documents/service.py]      (module [DocumentService])

    Python [str] values are lists of Unicode code points, so that [len]
    is [length]; Python [float] values are binary64 doubles;
    dictionaries keyed by literal names are [gmap string];
    external collaborators (database, LLM, embedding model, langchain
    splitters, [json.loads], the Unicode digit table) are section
    variables, instantiated by small executable stand-ins in the closed
    examples. *)

From Stdlib Require Import ZArith NArith QArith Qabs List String Ascii Lia
  Sorting.Sorted Sorting.Permutation Floats.
From stdpp Require Import base option list gmap strings pretty.

Set Warnings "-register-all,-inexact-float".
Local Open Scope Z_scope.

(** ** Python text *)

Definition cp := N.
Definition text := list N.

Module Text.

(** Decoder for the UTF-8 bytes of a Rocq string literal, so that source
    literals such as "제" can be written as they are in the Python files. *)
Definition byte_val (a : ascii) : N := N_of_ascii a.

Fixpoint utf8_go (fuel : nat) (s : string) : text :=
  match fuel with
  | O => []
  | S fuel =>
    match s with
    | EmptyString => []
    | String a rest =>
      let b := byte_val a in
      if (b <? 128)%N then b :: utf8_go fuel rest
      else if (b <? 224)%N then
        match rest with
        | String a1 rest1 =>
          (((b - 192) * 64) + (byte_val a1 - 128))%N :: utf8_go fuel rest1
        | _ => []
        end
      else if (b <? 240)%N then
        match rest with
        | String a1 (String a2 rest2) =>
          (((b - 224) * 4096) + ((byte_val a1 - 128) * 64)
             + (byte_val a2 - 128))%N :: utf8_go fuel rest2
        | _ => []
        end
      else
        match rest with
        | String a1 (String a2 (String a3 rest3)) =>
          (((b - 240) * 262144) + ((byte_val a1 - 128) * 4096)
             + ((byte_val a2 - 128) * 64) + (byte_val a3 - 128))%N
            :: utf8_go fuel rest3
        | _ => []
        end
    end
  end.

Definition utf8 (s : string) : text := utf8_go (String.length s) s.

(** [str.isspace] / the regex class [\s] on [str] patterns. *)
Definition is_space (c : cp) : bool :=
  ((9 <=? c) && (c <=? 13) || (28 <=? c) && (c <=? 32)
   || (c =? 133) || (c =? 160) || (c =? 5760)
   || (8192 <=? c) && (c <=? 8202)
   || (c =? 8232) || (c =? 8233) || (c =? 8239) || (c =? 8287)
   || (c =? 12288))%N.

Fixpoint lstrip (s : text) : text :=
  match s with
  | c :: s' => if is_space c then lstrip s' else s
  | [] => []
  end.
Definition rstrip (s : text) : text := reverse (lstrip (reverse s)).
(** [s.strip()] *)
Definition strip (s : text) : text := rstrip (lstrip s).

(** Truth value of a string: non-empty. *)
Definition nonempty (s : text) : bool :=
  match s with [] => false | _ => true end.

(** [bool(s.strip())] *)
Definition nonblank (s : text) : bool := nonempty (strip s).

Definition text_eqb (a b : text) : bool := bool_decide (a = b).

(** [s.startswith(p)] *)
Fixpoint startswith (p s : text) : bool :=
  match p, s with
  | [], _ => true
  | a :: p', b :: s' => (a =? b)%N && startswith p' s'
  | _ :: _, [] => false
  end.

(** [sub in s] *)
Fixpoint contains (sub s : text) : bool :=
  startswith sub s ||
  match s with
  | [] => false
  | _ :: s' => contains sub s'
  end.

(** [s.split(sep)] for a non-empty separator. *)
Fixpoint split_go (sep : text) (skip : nat) (cur : text) (s : text) : list text :=
  match s with
  | [] => [reverse cur]
  | c :: s' =>
    match skip with
    | S k => split_go sep k cur s'
    | O =>
      if startswith sep s
      then reverse cur :: split_go sep (Nat.pred (length sep)) [] s'
      else split_go sep O (c :: cur) s'
    end
  end.

Definition split (sep s : text) : list text := split_go sep O [] s.

(** [sep.join(parts)] *)
Fixpoint join (sep : text) (parts : list text) : text :=
  match parts with
  | [] => []
  | [p] => p
  | p :: ps => p ++ sep ++ join sep ps
  end.

(** [s.replace(old, "")] for a non-empty [old]: every non-overlapping
    occurrence, scanning from the left, is removed. *)
Fixpoint remove_all_go (old : text) (skip : nat) (s : text) : text :=
  match s with
  | [] => []
  | c :: s' =>
    match skip with
    | S k => remove_all_go old k s'
    | O =>
      if startswith old s
      then remove_all_go old (Nat.pred (length old)) s'
      else c :: remove_all_go old O s'
    end
  end.

Definition remove_all (old s : text) : text := remove_all_go old O s.

End Text.

Notation "'u8' s" := (Text.utf8 s%string) (at level 9, s at level 0, only parsing).

(** ** The regular expressions of the sources

    Every pattern in the sources is a sequence of single-character atoms
    under a quantifier.  [match_here] is the backtracking matcher of
    Python's [re] restricted to such sequences: greedy quantifiers try the
    longest run first, the lazy one the shortest, and the first
    alternative that lets the rest of the pattern match wins.  The result
    lists the text consumed by each atom. *)

Module Regex.

Inductive quant : Type := One | Star | Plus | LazyStar.

Record atom : Type := Atom { cls : cp -> bool; qnt : quant }.

Definition pattern := list atom.

Definition chr (c : cp) : atom := Atom (N.eqb c) One.
Definition lit (s : text) : pattern := map chr s.
Definition any_char : cp -> bool := fun _ => true.

Section Runs.
Context {R : Type} (p : cp -> bool) (k : text -> text -> option R).

(** [x*] / [x+] after the first character: longest run first. *)
Fixpoint greedy (acc : text) (s : text) : option R :=
  match s with
  | c :: s' =>
    if p c then
      match greedy (acc ++ [c]) s' with
      | Some r => Some r
      | None => k acc s
      end
    else k acc s
  | [] => k acc []
  end.

(** [x*?]: shortest run first. *)
Fixpoint lazy_run (acc : text) (s : text) : option R :=
  match k acc s with
  | Some r => Some r
  | None =>
    match s with
    | c :: s' => if p c then lazy_run (acc ++ [c]) s' else None
    | [] => None
    end
  end.
End Runs.

Fixpoint match_here (pat : pattern) (s : text) {struct pat}
    : option (list text * text) :=
  match pat with
  | [] => Some ([], s)
  | a :: pat' =>
    let k := fun (piece rest : text) =>
      match match_here pat' rest with
      | Some (ps, r) => Some (piece :: ps, r)
      | None => None
      end in
    match qnt a with
    | One =>
      match s with
      | c :: s' => if cls a c then k [c] s' else None
      | [] => None
      end
    | Star => greedy (cls a) k [] s
    | Plus =>
      match s with
      | c :: s' => if cls a c then greedy (cls a) k [c] s' else None
      | [] => None
      end
    | LazyStar => lazy_run (cls a) k [] s
    end
  end.

(** [re.match(pat, s)]: the pieces and the unmatched rest. *)
Definition re_match (pat : pattern) (s : text) : option (list text * text) :=
  match_here pat s.

(** [re.search(pat, s)]: leftmost start position first; the result also
    carries the text skipped before the match. *)
Fixpoint search_from (pat : pattern) (skipped : text) (s : text)
    : option (text * list text * text) :=
  match match_here pat s with
  | Some (ps, r) => Some (skipped, ps, r)
  | None =>
    match s with
    | c :: s' => search_from pat (skipped ++ [c]) s'
    | [] => None
    end
  end.

Definition re_search (pat : pattern) (s : text) : option (text * list text * text) :=
  search_from pat [] s.

(** The text of the atoms number [i], ..., [i + n - 1] of a match. *)
Definition group (i n : nat) (pieces : list text) : text :=
  concat (take n (drop i pieces)).


Section RunFacts.
Context {R : Type} (p : cp -> bool) (k : text -> text -> option R).




End RunFacts.





End Regex.

(** ** Exceptions and effects *)

(** An instance of Python's [Exception]. *)
Inductive exn : Type := Exception (msg : string).

Inductive outcome (A : Type) : Type :=
| Ok (a : A)
| Raise (e : exn).
Arguments Ok {A} a.
Arguments Raise {A} e.

(** Computations against an external world (database session, network):
    every call consumes the world and may raise. *)
Definition M (W A : Type) : Type := W -> outcome A * W.

Definition ret {W A} (a : A) : M W A := fun w => (Ok a, w).

Definition bind {W A B} (m : M W A) (k : A -> M W B) : M W B :=
  fun w =>
    match m w with
    | (Ok a, w') => k a w'
    | (Raise e, w') => (Raise e, w')
    end.

(** [try: m  except Exception as e: h e] *)
Definition try_except {W A} (m : M W A) (h : exn -> M W A) : M W A :=
  fun w =>
    match m w with
    | (Ok a, w') => (Ok a, w')
    | (Raise e, w') => h e w'
    end.

Declare Scope py_scope.
Delimit Scope py_scope with py.
Notation "'let!' x ':=' m 'in' k" := (bind m (fun x => k))
  (at level 10, x name, m at level 100, k at level 200) : py_scope.

(** ** Python values *)

Inductive pyval : Type :=
| PNone
| PBool (b : bool)
| PInt (z : Z)
| PFloat (q : Q)
| PStr (s : text)
| PList (l : list pyval)
| PDict (d : gmap string pyval).

(** Truth value of a Python object. *)
Definition truthy (v : pyval) : bool :=
  match v with
  | PNone => false
  | PBool b => b
  | PInt z => negb (z =? 0)
  | PFloat q => negb (Qeq_bool q 0)
  | PStr s => Text.nonempty s
  | PList l => match l with [] => false | _ => true end
  | PDict d => negb (bool_decide (size d = 0%nat))
  end.

(** [d.get(k, default)] *)
Definition dict_get (d : gmap string pyval) (k : string) (default : pyval) : pyval :=
  match d !! k with
  | Some v => v
  | None => default
  end.

(** [xs[:n]] *)
Definition slice_to {A} (n : Z) (xs : list A) : list A :=
  if 0 <=? n then take (Z.to_nat n) xs
  else take (length xs - Z.to_nat (- n))%nat xs.

(** ** Python floats

    A Python [float] is an IEEE 754 binary64 value; [*] and [<] on floats
    are the primitive operations [PrimFloat.mul] and [PrimFloat.ltb], and
    a literal such as [0.6] denotes the nearest double. *)

Module Double.


(** The place of a double that is not NaN on the number line: sign class,
    then exponent, then mantissa. *)
Definition rank (f : spec_float) : Z * Z * Z :=
  match f with
  | S754_zero _ => (0, 0, 0)
  | S754_infinity true => (-2, 0, 0)
  | S754_infinity false => (2, 0, 0)
  | S754_nan => (0, 0, 0)
  | S754_finite true m e => (-1, - e, Z.neg m)
  | S754_finite false m e => (1, e, Z.pos m)
  end.

Definition lex_lt (a b : Z * Z * Z) : Prop :=
  let '(a1, a2, a3) := a in
  let '(b1, b2, b3) := b in
  a1 < b1 \/ (a1 = b1 /\ (a2 < b2 \/ (a2 = b2 /\ a3 < b3))).

Lemma SFcompare_rank (a b : spec_float) :
  a <> S754_nan -> b <> S754_nan ->
  exists c, SFcompare a b = Some c
    /\ (c = Lt <-> lex_lt (rank a) (rank b))
    /\ (c = Eq <-> rank a = rank b).
Proof.
  intros Ha Hb.
  destruct a as [sa|sa| |sa ma ea], b as [sb|sb| |sb mb eb]; try done;
    try destruct sa; try destruct sb; cbn -[Z.compare];
    try (eexists; split; [reflexivity|]; cbn; split; split; intros; try done; lia).
  - change (PosDef.Pos.compare_cont Eq ma mb) with (Pos.compare ma mb).
    destruct (Z.compare_spec ea eb), (Pos.compare_spec ma mb);
      eexists; (split; [reflexivity|]); cbn; (split; split; intros H');
      try done; try lia; try (subst; done); try (inversion H'; subst; lia).
  - change (PosDef.Pos.compare_cont Eq ma mb) with (Pos.compare ma mb).
    destruct (Z.compare_spec ea eb), (Pos.compare_spec ma mb);
      eexists; (split; [reflexivity|]); cbn; (split; split; intros H');
      try done; try lia; try (subst; done); try (inversion H'; subst; lia).
Qed.

Lemma not_nan_spec (x : float) :
  is_nan x = false <-> Prim2SF x <> S754_nan.
Proof.
  unfold is_nan. rewrite FloatAxioms.eqb_spec. unfold SFeqb. split.
  - intros H Hn. rewrite Hn in H. done.
  - intros H. destruct (SFcompare_rank _ _ H H) as (c & -> & _ & Heq).
    destruct Heq as [_ Heq]. by rewrite Heq.
Qed.

(** [<] on doubles that are not NaN is a strict weak order. *)
Lemma ltb_asym (x y : float) :
  (x <? y)%float = true -> (y <? x)%float = false.
Proof.
  rewrite !FloatAxioms.ltb_spec. unfold SFltb.
  destruct (Prim2SF x) as [sa|sa| |sa ma ea] eqn:Hx,
           (Prim2SF y) as [sb|sb| |sb mb eb] eqn:Hy; try done.
  all: intros H.
  all: match goal with
       | |- context [SFcompare ?a ?b] =>
         let Ha := fresh in let Hb := fresh in
         assert (Ha : a <> S754_nan) by done;
         assert (Hb : b <> S754_nan) by done;
         destruct (SFcompare_rank a b Ha Hb) as (c & Hc & Hlt & _);
         destruct (SFcompare_rank b a Hb Ha) as (c' & Hc' & Hlt' & _);
         rewrite Hc; rewrite Hc' in H
       end.
  all: destruct c' ; try done; destruct c; try done.
  all: exfalso; destruct Hlt as [Hlt _], Hlt' as [Hlt' _];
       specialize (Hlt eq_refl); specialize (Hlt' eq_refl);
       unfold lex_lt in *; repeat case_match; lia.
Qed.

Lemma ltb_rank (x y : float) :
  is_nan x = false -> is_nan y = false ->
  (x <? y)%float = true <-> lex_lt (rank (Prim2SF x)) (rank (Prim2SF y)).
Proof.
  intros Hx%not_nan_spec Hy%not_nan_spec.
  rewrite FloatAxioms.ltb_spec. unfold SFltb.
  destruct (SFcompare_rank _ _ Hx Hy) as (c & -> & Hlt & _).
  rewrite <- Hlt. by destruct c.
Qed.

Lemma ltb_negtrans (x y z : float) :
  is_nan x = false -> is_nan y = false -> is_nan z = false ->
  (x <? y)%float = false -> (y <? z)%float = false -> (x <? z)%float = false.
Proof.
  intros Hx Hy Hz Hxy Hyz.
  apply not_true_iff_false. apply not_true_iff_false in Hxy, Hyz.
  rewrite ltb_rank in * by done.
  unfold lex_lt in *.
  destruct (rank (Prim2SF x)) as [[? ?] ?], (rank (Prim2SF y)) as [[? ?] ?],
           (rank (Prim2SF z)) as [[? ?] ?]. lia.
Qed.

Lemma eqb_rank (x y : float) :
  (x =? y)%float = true ->
  is_nan x = false /\ is_nan y = false
  /\ rank (Prim2SF x) = rank (Prim2SF y).
Proof.
  rewrite FloatAxioms.eqb_spec. unfold SFeqb. intros H.
  assert (Hx : Prim2SF x <> S754_nan).
  { intros Hn. rewrite Hn in H. done. }
  assert (Hy : Prim2SF y <> S754_nan).
  { intros Hn. rewrite Hn in H. by destruct (Prim2SF x). }
  split; [by apply not_nan_spec|]. split; [by apply not_nan_spec|].
  destruct (SFcompare_rank _ _ Hx Hy) as (c & Hc & _ & Heq).
  rewrite Hc in H. destruct c; try done. by apply Heq.
Qed.

(** Doubles equal to one and the same value are not ordered by [<]. *)
Lemma eqb_not_ltb (x y v : float) :
  (x =? v)%float = true -> (y =? v)%float = true -> (x <? y)%float = false.
Proof.
  intros (Hx & _ & Hxv)%eqb_rank (Hy & _ & Hyv)%eqb_rank.
  apply not_true_iff_false. rewrite ltb_rank by done.
  rewrite Hxv, Hyv. unfold lex_lt.
  destruct (rank (Prim2SF v)) as [[? ?] ?]. lia.
Qed.

End Double.

(** * [src/documents/repository.py]: hybrid retrieval *)

Module Repository.

(** One element of a search result list.  The columns the hybrid fusion
    reads or writes are fields; the other columns of the row dictionary
    ([content], [chunk_type], [parent_id], [child_id], [headers],
    [document_id], [filename], [doc_type], [category], [auto_tags],
    [room_id]) travel unchanged in [columns].  A key that a dictionary
    does not have is [None]: rows of [search_documents_by_vector] carry no
    [is_room_document], and only fused rows carry [weighted_score] and
    [source_type].  Scores are Python floats, that is, doubles. *)
Record search_result : Type := {
  chunk_id : Z;
  similarity_score : float;
  columns : gmap string pyval;
  is_room_document : option bool;
  weighted_score : option float;
  source_type : option string;
}.

(** [r.get("is_room_document", False)] *)
Definition get_is_room_document (r : search_result) : bool :=
  match is_room_document r with
  | Some b => b
  | None => false
  end.

(** [result["weighted_score"] = result["similarity_score"] * weight;
     result["source_type"] = tag] *)
Definition apply_weight (weight : float) (tag : string) (r : search_result)
    : search_result :=
  {| chunk_id := chunk_id r;
     similarity_score := similarity_score r;
     columns := columns r;
     is_room_document := is_room_document r;
     weighted_score := Some (similarity_score r * weight)%float;
     source_type := Some tag |}.

(** The sort key [lambda x: x["weighted_score"]]; the key is present on
    every element of [combined_results], which were just assigned it. *)
Definition sort_key (r : search_result) : float :=
  match weighted_score r with
  | Some w => w
  | None => 0%float
  end.

(** [list.sort(key=..., reverse=True)] on float keys.  The sort compares
    keys with [<] only and is stable, also when reversed: an element moves
    behind exactly the elements whose key is greater than its own, and
    elements that [<] does not separate keep their original relative
    order.  Whenever [<] orders the keys (no key is NaN) the list this
    insertion sort builds is the one [list.sort] builds. *)
Section Sort.
Context {A : Type} (key : A -> float).

Fixpoint insert_desc (x : A) (l : list A) : list A :=
  match l with
  | [] => [x]
  | y :: ys =>
    if (key x <? key y)%float then y :: insert_desc x ys
    else x :: y :: ys
  end.

Fixpoint sort_desc (l : list A) : list A :=
  match l with
  | [] => []
  | x :: xs => insert_desc x (sort_desc xs)
  end.
End Sort.

Definition default_system_weight : float := 0.6%float.
Definition default_room_weight : float := 0.4%float.
Definition default_top_k : Z := 15.

Definition query_embedding := list float.

Section Hybrid.
(** The database session. *)
Variable World : Type.
(** [search_documents_by_vector(query_embedding, session, doc_types, top_k)]:
    cosine top-k over the global documents ([room_id IS NULL]). *)
Variable search_documents_by_vector :
  query_embedding -> option (list string) -> Z -> M World (list search_result).
(** [search_documents_by_vector_with_room_context(query_embedding, session,
    room_id, doc_types, top_k)]: cosine top-k over the documents of the room
    and the global ones together. *)
Variable search_documents_by_vector_with_room_context :
  query_embedding -> option Z -> option (list string) -> Z ->
  M World (list search_result).

Local Open Scope py_scope.

(** Steps 3 and 4 of the [try] block: weighting, concatenation, sort. *)
Definition combine (system_weight room_weight : float)
    (system_results room_results : list search_result) : list search_result :=
  map (apply_weight system_weight "system") system_results
    ++ map (apply_weight room_weight "room") room_results.

(** The body of the [try] block. *)
Definition hybrid_body (q : query_embedding) (room_id : option Z)
    (doc_types : option (list string)) (top_k : Z)
    (system_weight room_weight : float) : M World (list search_result) :=
  let! system_results := search_documents_by_vector q doc_types top_k in
  let! room_results :=
    match room_id with
    | Some rid =>
      let! rs := search_documents_by_vector_with_room_context
                   q (Some rid) doc_types top_k in
      ret (List.filter get_is_room_document rs)
    | None => ret []
    end in
  let combined_results :=
    combine system_weight room_weight system_results room_results in
  ret (slice_to top_k (sort_desc sort_key combined_results)).

Definition search_documents_hybrid (q : query_embedding) (room_id : option Z)
    (doc_types : option (list string)) (top_k : Z)
    (system_weight room_weight : float) : M World (list search_result) :=
  try_except
    (hybrid_body q room_id doc_types top_k system_weight room_weight)
    (fun _ => search_documents_by_vector q doc_types top_k).

(** What the specification describes: the same fusion, but ordered by
    weighted score and then, among equal weighted scores, by the
    unweighted similarity, both descending. *)
Definition spec_before (a b : search_result) : bool :=
  if (sort_key b <? sort_key a)%float then true
  else if (sort_key a <? sort_key b)%float then false
  else negb (similarity_score a <? similarity_score b)%float.

Fixpoint spec_insert (x : search_result) (l : list search_result) : list search_result :=
  match l with
  | [] => [x]
  | y :: ys => if spec_before x y then x :: y :: ys else y :: spec_insert x ys
  end.

Definition spec_fused (top_k : Z) (system_weight room_weight : float)
    (system_results room_results : list search_result) : list search_result :=
  slice_to top_k
    (foldr spec_insert [] (combine system_weight room_weight system_results room_results)).

End Hybrid.

(** A scripted session for closed examples: each search pops the next
    scripted outcome; an exhausted script raises. *)
Definition script := list (outcome (list search_result)).

Definition scripted_search : M script (list search_result) :=
  fun w =>
    match w with
    | o :: w' => (o, w')
    | [] => (Raise (Exception "connection closed"), [])
    end.

Definition row (id : Z) (score : float) (room : option bool) : search_result :=
  {| chunk_id := id; similarity_score := score; columns := ∅;
     is_room_document := room; weighted_score := None; source_type := None |}.

(** ** Properties of the stable descending sort *)

Section SortFacts.
Context {A : Type} (key : A -> float).

(** [b] may follow [a] in a descending list: its key is not greater. *)
Definition desc (a b : A) : Prop := (key a <? key b)%float = false.

Definition no_nan (l : list A) : Prop :=
  Forall (fun a => is_nan (key a) = false) l.

Lemma insert_desc_perm (x : A) (l : list A) :
  Permutation (insert_desc key x l) (x :: l).
Proof.
  induction l as [|y ys IH]; simpl; [reflexivity|].
  destruct (key x <? key y)%float; [|reflexivity].
  rewrite IH. apply perm_swap.
Qed.

Lemma sort_desc_perm (l : list A) : Permutation (sort_desc key l) l.
Proof.
  induction l as [|x xs IH]; simpl; [reflexivity|].
  rewrite insert_desc_perm. by constructor.
Qed.

Lemma insert_desc_sorted (x : A) (l : list A) :
  no_nan (x :: l) ->
  StronglySorted desc l -> StronglySorted desc (insert_desc key x l).
Proof.
  induction l as [|y ys IH]; simpl; intros Hn Hs.
  - repeat constructor.
  - apply Forall_cons in Hn as [Hx Hn]. pose proof Hn as Hn'.
    apply Forall_cons in Hn' as [Hy Hys].
    destruct (key x <? key y)%float eqn:Hxy.
    + apply StronglySorted_inv in Hs as [Hs Hall].
      constructor; [apply IH; [by constructor | exact Hs]|].
      eapply Permutation_Forall; [symmetry; apply insert_desc_perm|].
      constructor; [|exact Hall].
      by apply Double.ltb_asym.
    + constructor; [exact Hs|].
      constructor; [exact Hxy|].
      apply StronglySorted_inv in Hs as [_ Hall].
      rewrite Forall_forall in Hall, Hys |- *.
      intros z Hz. unfold desc in *.
      eapply Double.ltb_negtrans; [exact Hx | exact Hy | by apply Hys
                                   | exact Hxy | by apply Hall].
Qed.

Lemma sort_desc_sorted (l : list A) :
  no_nan l -> StronglySorted desc (sort_desc key l).
Proof.
  induction l as [|x xs IH]; simpl; intros Hn; [constructor|].
  pose proof Hn as Hn'. apply Forall_cons in Hn' as [Hx Hxs].
  apply insert_desc_sorted; [|by apply IH].
  constructor; [exact Hx|].
  eapply Permutation_Forall; [symmetry; apply sort_desc_perm | exact Hxs].
Qed.

(** Elements with one and the same key value keep their relative order. *)
Definition with_key (v : float) (l : list A) : list A :=
  List.filter (fun a => (key a =? v)%float) l.

Lemma insert_desc_stable (v : float) (x : A) (l : list A) :
  with_key v (insert_desc key x l) = with_key v (x :: l).
Proof.
  induction l as [|y ys IH]; [reflexivity|].
  cbn [insert_desc].
  destruct (key x <? key y)%float eqn:Hxy; [|reflexivity].
  unfold with_key in *. cbn [List.filter] in *. rewrite IH.
  destruct (key x =? v)%float eqn:Hx, (key y =? v)%float eqn:Hy;
    try reflexivity.
  pose proof (Double.eqb_not_ltb _ _ _ Hx Hy). congruence.
Qed.

Lemma sort_desc_stable (v : float) (l : list A) :
  with_key v (sort_desc key l) = with_key v l.
Proof.
  induction l as [|x xs IH]; [reflexivity|].
  cbn [sort_desc]. rewrite insert_desc_stable.
  unfold with_key in *. cbn [List.filter]. by rewrite IH.
Qed.
End SortFacts.

Lemma slice_to_nonneg {A} (n : Z) (l : list A) :
  0 <= n -> slice_to n l = take (Z.to_nat n) l.
Proof. intros Hn. unfold slice_to. by destruct (Z.leb_spec 0 n); [|lia]. Qed.

(** ** Hybrid fusion *)

Section HybridFacts.
Variable World : Type.
Variable by_vector :
  query_embedding -> option (list string) -> Z -> M World (list search_result).
Variable with_room :
  query_embedding -> option Z -> option (list string) -> Z ->
  M World (list search_result).

Local Abbreviation hybrid := (search_documents_hybrid World by_vector with_room).

(** C1 (as the code has it).  When the global search and the room search both
    succeed, the function returns the first [top_k] elements of the fused
    list: the global results weighted by [system_weight] followed by the
    room documents of the room search weighted by [room_weight], each
    weighted score being the double product [similarity_score * weight],
    in descending order of weighted score as [<] on doubles orders them
    (no weighted score being NaN); results with equal weighted score stay
    in concatenation order (global before room, each group in the order
    its search returned it), whatever their unweighted similarity. *)
Theorem hybrid_fusion_top_k
    (q : query_embedding) (rid : Z) (doc_types : option (list string))
    (top_k : Z) (system_weight room_weight : float) (w w1 w2 : World)
    (system_results room_results : list search_result) :
  0 <= top_k ->
  by_vector q doc_types top_k w = (Ok system_results, w1) ->
  with_room q (Some rid) doc_types top_k w1 = (Ok room_results, w2) ->
  let weighted :=
    map (apply_weight system_weight "system") system_results
      ++ map (apply_weight room_weight "room")
           (List.filter get_is_room_document room_results) in
  no_nan sort_key weighted ->
  exists fused : list search_result,
    hybrid q (Some rid) doc_types top_k system_weight room_weight w
      = (Ok (take (Z.to_nat top_k) fused), w2)
    /\ Permutation fused weighted
    /\ StronglySorted (desc sort_key) fused
    /\ forall v : float, with_key sort_key v fused = with_key sort_key v weighted.
Proof.
  intros Hk Hsys Hroom weighted Hnan.
  exists (sort_desc sort_key weighted). split.
  - unfold search_documents_hybrid, try_except, hybrid_body, bind, ret.
    rewrite Hsys, Hroom. by rewrite slice_to_nonneg.
  - split; [apply sort_desc_perm|].
    split; [by apply sort_desc_sorted|].
    intros v. apply sort_desc_stable.
Qed.

(** C7 (as the code has it).  When a step of the [try] block raises (the
    global search, or the room search after a successful global search),
    the exception is caught and the outcome of the call is the outcome of
    one more global-only search with the same query embedding, doc-type
    filter and [top_k]: its result when it succeeds. *)
Theorem hybrid_falls_back_to_global
    (q : query_embedding) (room_id : option Z)
    (doc_types : option (list string)) (top_k : Z)
    (system_weight room_weight : float) (w w' : World) (e : exn) :
  (by_vector q doc_types top_k w = (Raise e, w')
   \/ exists rid system_results w1,
        room_id = Some rid
        /\ by_vector q doc_types top_k w = (Ok system_results, w1)
        /\ with_room q (Some rid) doc_types top_k w1 = (Raise e, w')) ->
  hybrid q room_id doc_types top_k system_weight room_weight w
    = by_vector q doc_types top_k w'
  /\ forall fallback_results w'',
       by_vector q doc_types top_k w' = (Ok fallback_results, w'') ->
       hybrid q room_id doc_types top_k system_weight room_weight w
         = (Ok fallback_results, w'').
Proof.
  intros Hraise.
  assert (Heq : hybrid q room_id doc_types top_k system_weight room_weight w
                = by_vector q doc_types top_k w').
  { unfold search_documents_hybrid, try_except, hybrid_body, bind, ret.
    destruct Hraise as [Hsys | (rid & sys & w1 & -> & Hsys & Hroom)].
    - by rewrite Hsys.
    - by rewrite Hsys, Hroom. }
  split; [exact Heq|].
  intros rs w'' Hfb. by rewrite Heq.
Qed.
End HybridFacts.

Definition scripted_hybrid :=
  search_documents_hybrid script
    (fun _ _ _ => scripted_search) (fun _ _ _ _ => scripted_search).

Lemma hybrid_fusion_top_k_witness :
  exists fused,
    scripted_hybrid [] (Some 7) None 2 default_system_weight default_room_weight
      [Ok [row 1 0.9 None; row 2 0.5 None];
       Ok [row 3 0.8 (Some true); row 1 0.9 (Some false)]]
    = (Ok (take 2 fused), [])
    /\ length fused = 3%nat.
Proof.
  destruct (hybrid_fusion_top_k script
              (fun _ _ _ => scripted_search) (fun _ _ _ _ => scripted_search)
              [] 7 None 2 default_system_weight default_room_weight
              [Ok [row 1 0.9 None; row 2 0.5 None];
               Ok [row 3 0.8 (Some true); row 1 0.9 (Some false)]]
              [Ok [row 3 0.8 (Some true); row 1 0.9 (Some false)]]
              []
              [row 1 0.9 None; row 2 0.5 None]
              [row 3 0.8 (Some true); row 1 0.9 (Some false)])
    as (fused & Hrun & Hperm & _);
    [lia | reflexivity | reflexivity | repeat constructor |].
  exists fused. split; [exact Hrun|].
  by rewrite (Permutation_length Hperm).
Defined.

(** The order is that of the double products: 0.3 * 0.6 rounds to
    0.18 and 0.45 * 0.4 to 0.18000000000000002, so the room hit comes
    first although the exact products are equal; and the products
    0.0018 * 0.6 and 0.0027 * 0.4 round to the same double, so the global
    hit stays first although the exact products differ. *)
Lemma hybrid_orders_double_products :
  fst (scripted_hybrid [] (Some 7) None 1 default_system_weight default_room_weight
         [Ok [row 1 0.3 None]; Ok [row 2 0.45 (Some true)]])
    = Ok [apply_weight default_room_weight "room" (row 2 0.45 (Some true))]
  /\ fst (scripted_hybrid [] (Some 7) None 1 default_system_weight default_room_weight
         [Ok [row 1 0.0018 None]; Ok [row 2 0.0027 (Some true)]])
    = Ok [apply_weight default_system_weight "system" (row 1 0.0018 None)].
Proof. split; vm_compute; reflexivity. Qed.

(** C1 (as the specification words it) fails: a global hit of similarity 0.4
    and a room hit of similarity 0.6 tie at one weighted score under the
    default weights (the two products are the same double multiplication);
    the specification's tie-break puts the room hit first, the code keeps
    the global hit first, and with [top_k = 1] returns it alone. *)
Lemma hybrid_tie_break_counterexample :
  let system_hit := row 1 0.4 None in
  let room_hit := row 2 0.6 (Some true) in
  (sort_key (apply_weight default_system_weight "system" system_hit)
     =? sort_key (apply_weight default_room_weight "room" room_hit))%float = true
  /\ fst (scripted_hybrid [] (Some 7) None 1 default_system_weight default_room_weight
         [Ok [system_hit]; Ok [room_hit]])
    = Ok [apply_weight default_system_weight "system" system_hit]
  /\ spec_fused 1 default_system_weight default_room_weight [system_hit] [room_hit]
    = [apply_weight default_room_weight "room" room_hit]
  /\ fst (scripted_hybrid [] (Some 7) None 1 default_system_weight default_room_weight
            [Ok [system_hit]; Ok [room_hit]])
    <> Ok (spec_fused 1 default_system_weight default_room_weight
             [system_hit] [room_hit]).
Proof.
  cbv zeta. split; [vm_compute; reflexivity|].
  split; [vm_compute; reflexivity|].
  split; [vm_compute; reflexivity|].
  vm_compute. intros H. inversion H.
Qed.

Lemma hybrid_falls_back_to_global_witness :
  scripted_hybrid [] (Some 7) None 5 default_system_weight default_room_weight
    [Ok [row 1 0.9 None]; Raise (Exception "room query failed");
     Ok [row 1 0.9 None]]
  = (Ok [row 1 0.9 None], []).
Proof.
  apply (hybrid_falls_back_to_global script
           (fun _ _ _ => scripted_search) (fun _ _ _ _ => scripted_search)
           [] (Some 7) None 5 default_system_weight default_room_weight
           [Ok [row 1 0.9 None]; Raise (Exception "room query failed");
            Ok [row 1 0.9 None]]
           [Ok [row 1 0.9 None]]
           (Exception "room query failed")).
  - right. exists 7, [row 1 0.9 None],
      [Raise (Exception "room query failed"); Ok [row 1 0.9 None]].
    repeat split; reflexivity.
  - reflexivity.
Defined.

(** C7 (as the specification words it) fails: when the database is down the
    global search raises inside the [try] block, the fallback search raises
    again, and that exception reaches the caller. *)
Lemma hybrid_fallback_raises_counterexample :
  fst (scripted_hybrid [] (Some 7) None 5 default_system_weight default_room_weight
         [Raise (Exception "connection refused");
          Raise (Exception "connection refused")])
  = Raise (Exception "connection refused").
Proof. reflexivity. Qed.

End Repository.

(** * [src/documents/chunking.py]: hierarchical chunking *)

Module Chunking.
Import Text Regex.

(** Rendering of [str(n)] inside the f-strings that build identifiers. *)
Definition ascii_text (s : string) : text :=
  map N_of_ascii (list_ascii_of_string s).

Definition str_int (n : nat) : text := ascii_text (pretty n).

(** A langchain [Document]. *)
Record document : Type := Document {
  metadata : gmap string pyval;
  page_content : text;
}.

(** The settings a [RecursiveCharacterTextSplitter] was built with
    ([length_function=len] always). *)
Record text_splitter : Type := TextSplitter {
  splitter_chunk_size : Z;
  splitter_chunk_overlap : Z;
}.

(** The attributes of a [HierarchicalChunker] instance;
    [markdown_splitter] is represented by the header table it was built from. *)
Record HierarchicalChunker : Type := Chunker {
  headers_to_split_on : list (string * string);
  markdown_splitter : list (string * string);
  chunk_size : Z;
  chunk_overlap : Z;
  child_splitter : text_splitter;
}.

Definition default_headers : list (string * string) :=
  [("#", "Header 1"); ("##", "Header 2"); ("###", "Header 3"); ("####", "Header 4")]%string.

(** [HierarchicalChunker.__init__] *)
Definition init : HierarchicalChunker :=
  {| headers_to_split_on := default_headers;
     markdown_splitter := default_headers;
     chunk_size := 500;
     chunk_overlap := 50;
     child_splitter := TextSplitter 500 50 |}.

(** The length above which a parent section is split into children: the
    literal [500] in [chunk_markdown]. *)
Definition parent_split_threshold : nat := 500.

Record summary : Type := Summary {
  total_parent_chunks : nat;
  total_child_chunks : nat;
  average_parent_size : nat;
  average_child_size : nat;
}.

(** The dictionary returned by [chunk_markdown]. *)
Inductive chunking_result : Type :=
| ChunkingSuccess (filename : text) (parent_chunks child_chunks : list document)
    (parent_child_mapping : list (text * list text)) (sum : summary)
| ChunkingFailure (error : string) (filename : text).

Definition jo : cp := 51312%N.   (* 조 *)
Definition je : cp := 51228%N.   (* 제 *)

Section Chunker.
(** Library code the chunker calls. *)
(** [MarkdownHeaderTextSplitter(headers_to_split_on).split_text] *)
Variable markdown_split_text : list (string * string) -> text -> list document.
(** [RecursiveCharacterTextSplitter(chunk_size, chunk_overlap).split_text] *)
Variable recursive_split_text : text_splitter -> text -> list text.
(** The argument check of the [RecursiveCharacterTextSplitter] constructor,
    which raises [ValueError] on settings it rejects. *)
Variable splitter_settings_ok : Z -> Z -> bool.
(** The regex class [\d] (Unicode decimal digits). *)
Variable is_decimal : cp -> bool.

(** [_create_child_splitter] *)
Definition _create_child_splitter : M HierarchicalChunker unit :=
  fun self =>
    if splitter_settings_ok (chunk_size self) (chunk_overlap self)
    then (Ok tt,
          {| headers_to_split_on := headers_to_split_on self;
             markdown_splitter := markdown_splitter self;
             chunk_size := chunk_size self;
             chunk_overlap := chunk_overlap self;
             child_splitter :=
               TextSplitter (chunk_size self) (chunk_overlap self) |})
    else (Raise (Exception "ValueError"), self).

(** [update_chunk_settings(chunk_size, chunk_overlap)] *)
Definition update_chunk_settings (new_size new_overlap : Z)
    : M HierarchicalChunker unit :=
  fun self =>
    _create_child_splitter
      {| headers_to_split_on := headers_to_split_on self;
         markdown_splitter := markdown_splitter self;
         chunk_size := new_size;
         chunk_overlap := new_overlap;
         child_splitter := child_splitter self |}.

(** [r'^제\s*\d+\s*조'] *)
Definition clause_line_pattern : pattern :=
  [chr je; Atom is_space Star; Atom is_decimal Plus; Atom is_space Star; chr jo].

(** Step 1: a line that starts with a clause number becomes a level-2 header. *)
Definition preprocess_line (line : text) : text :=
  match re_match clause_line_pattern (strip line) with
  | Some _ => u8 "## " ++ strip line
  | None => line
  end.

Definition preprocess (markdown_content : text) : text :=
  join (u8 "
") (map preprocess_line (split (u8 "
") markdown_content)).

(** Step 3: a "Header 2" that looks like a clause number is copied to
    "Header 1". *)
Definition restore_clause_header (d : document) : document :=
  match dict_get (metadata d) "Header 2" (PStr []) with
  | PStr header_2 =>
    if nonempty header_2 && startswith [je] header_2 && contains [jo] header_2
    then Document (<["Header 1" := PStr header_2]> (metadata d)) (page_content d)
    else d
  | _ => d
  end.

Definition parent_id_of (filename : text) (parent_idx : nat) : text :=
  filename ++ u8 "_parent_" ++ str_int parent_idx.

Definition child_id_of (parent_id : text) (child_idx : nat) : text :=
  parent_id ++ u8 "_child_" ++ str_int child_idx.

(** The first [metadata.update] of step 4. *)
Definition tag_parent (filename : text) (parent_idx : nat) (d : document) : document :=
  Document
    (<["content_length" := PInt (Z.of_nat (length (page_content d)))]>
     (<["parent_index" := PInt (Z.of_nat parent_idx)]>
     (<["parent_id" := PStr (parent_id_of filename parent_idx)]>
     (<["chunk_type" := PStr (u8 "parent")]>
     (<["source" := PStr filename]> (metadata d))))))
    (page_content d).

(** One child document: a copy of the parent's metadata, updated. *)
Definition make_child (filename parent_id : text) (parent : document)
    (child_idx : nat) (chunk : text) : document :=
  Document
    (<["content_length" := PInt (Z.of_nat (length chunk))]>
     (<["child_index" := PInt (Z.of_nat child_idx)]>
     (<["child_id" := PStr (child_id_of parent_id child_idx)]>
     (<["parent_id" := PStr parent_id]>
     (<["chunk_type" := PStr (u8 "child")]>
     (<["source" := PStr filename]> (metadata parent)))))))
    chunk.

Definition mark_standalone (d : document) : document :=
  Document
    (<["skip_child_creation" := PBool true]>
     (<["is_standalone" := PBool true]> (metadata d)))
    (page_content d).

(** One iteration of the step-4 loop: the parent as it is left in
    [parent_chunks] and the children appended to [all_child_chunks]. *)
Definition split_parent (self : HierarchicalChunker) (filename : text)
    (parent_idx : nat) (d : document) : document * list document :=
  let parent := tag_parent filename parent_idx d in
  if (parent_split_threshold <? length (page_content parent))%nat
  then (parent,
        imap (make_child filename (parent_id_of filename parent_idx) parent)
             (recursive_split_text (child_splitter self) (page_content parent)))
  else (mark_standalone parent, []).

Definition child_ids (children : list document) : list text :=
  omap (fun c => match metadata c !! "child_id" with
                 | Some (PStr i) => Some i
                 | _ => None
                 end) children.

Definition total_length (ds : list document) : nat :=
  foldr (fun d n => (length (page_content d) + n)%nat) O ds.

Definition average_size (ds : list document) : nat :=
  match ds with
  | [] => O
  | _ => (total_length ds / length ds)%nat
  end.

(** [chunk_markdown(markdown_content, filename)].  The langchain
    splitters are total on strings; the [except] branch, reached only if
    library code raised, is the [ChunkingFailure] result. *)
Definition chunk_markdown (self : HierarchicalChunker)
    (markdown_content filename : text) : chunking_result :=
  let parent_chunks :=
    map restore_clause_header
        (markdown_split_text (markdown_splitter self) (preprocess markdown_content)) in
  let split := imap (split_parent self filename) parent_chunks in
  let parents := map fst split in
  let all_child_chunks := concat (map snd split) in
  ChunkingSuccess filename parents all_child_chunks
    (imap (fun i s => (parent_id_of filename i, child_ids (snd s))) split)
    (Summary (length parents) (length all_child_chunks)
             (average_size parents) (average_size all_child_chunks)).

Definition get_opt (d : gmap string pyval) (k : string) : pyval :=
  dict_get d k PNone.

Definition headers_of (md : gmap string pyval) : pyval :=
  PDict (<["header_4" := dict_get md "Header 4" (PStr [])]>
        (<["header_3" := dict_get md "Header 3" (PStr [])]>
        (<["header_2" := dict_get md "Header 2" (PStr [])]>
        (<["header_1" := dict_get md "Header 1" (PStr [])]> ∅)))).

Definition parent_data (p : document) : gmap string pyval :=
  let md := metadata p in
  let parent_id := get_opt md "parent_id" in
  let is_standalone := dict_get md "is_standalone" (PBool false) in
  <["is_for_embedding" := PBool (truthy is_standalone)]>
  (<["embedding_success" := PBool false]>
  (<["embedding" := PNone]>
  (<["is_standalone" := is_standalone]>
  (<["content_length" := PInt (Z.of_nat (length (page_content p)))]>
  (<["source_file" := dict_get md "source" (PStr [])]>
  (<["headers" := headers_of md]>
  (<["chunk_type" := PStr (u8 "parent")]>
  (<["child_id" := parent_id]>
  (<["parent_id" := parent_id]>
  (<["chunk_id" := parent_id]>
  (<["metadata" := PDict md]>
  (<["content" := PStr (page_content p)]> ∅)))))))))))).

Definition child_data (c : document) : gmap string pyval :=
  let md := metadata c in
  <["is_for_embedding" := PBool true]>
  (<["content_length" := PInt (Z.of_nat (length (page_content c)))]>
  (<["source_file" := dict_get md "source" (PStr [])]>
  (<["headers" := headers_of md]>
  (<["chunk_type" := PStr (u8 "child")]>
  (<["child_id" := get_opt md "child_id"]>
  (<["parent_id" := get_opt md "parent_id"]>
  (<["chunk_id" := get_opt md "child_id"]>
  (<["metadata" := PDict md]>
  (<["content" := PStr (page_content c)]> ∅))))))))).

(** [create_vector_ready_chunks(chunking_result)]: parents first, then
    children. *)
Definition create_vector_ready_chunks (r : chunking_result)
    : list (gmap string pyval) :=
  match r with
  | ChunkingFailure _ _ => []
  | ChunkingSuccess _ parent_chunks child_chunks _ _ =>
    map parent_data parent_chunks ++ map child_data child_chunks
  end.

(** Readers of a vector-ready chunk. *)
Definition is_for_embedding (c : gmap string pyval) : bool :=
  truthy (dict_get c "is_for_embedding" (PBool true)).

Definition str_field_is (c : gmap string pyval) (k : string) (v : text) : bool :=
  match c !! k with
  | Some (PStr s) => text_eqb s v
  | _ => false
  end.

(** The child chunks of the parent [parent_id]. *)
Definition children_of (parent_id : text) (chunks : list (gmap string pyval))
    : list (gmap string pyval) :=
  List.filter (fun c => str_field_is c "chunk_type" (u8 "child")
                        && str_field_is c "parent_id" parent_id) chunks.

End Chunker.

(** ** Facts about identifiers and dictionaries *)

Lemma ascii_text_inj (s1 s2 : string) : ascii_text s1 = ascii_text s2 -> s1 = s2.
Proof.
  unfold ascii_text. intros H.
  rewrite <- (string_of_list_ascii_of_string s1),
          <- (string_of_list_ascii_of_string s2).
  f_equal. revert H.
  generalize (list_ascii_of_string s1) (list_ascii_of_string s2).
  induction l as [|a l IH]; intros [|b l'] H; try done.
  cbn in H. injection H as Hab Hl. f_equal; [|by apply IH].
  rewrite <- (ascii_N_embedding a), <- (ascii_N_embedding b). by rewrite Hab.
Qed.

Lemma parent_id_of_inj (filename : text) (i j : nat) :
  parent_id_of filename i = parent_id_of filename j -> i = j.
Proof.
  unfold parent_id_of, str_int. intros H.
  apply app_inv_head in H. apply app_inv_head in H.
  apply ascii_text_inj in H. by apply (inj pretty) in H.
Qed.

Lemma text_eqb_eq (a b : text) : text_eqb a b = true <-> a = b.
Proof. unfold text_eqb. apply bool_decide_eq_true. Qed.

Ltac dict_lookup :=
  repeat first
    [ rewrite lookup_insert_eq
    | rewrite lookup_insert_ne by (intros ?; discriminate) ].

Section ChunkerFacts.
Variable markdown_split_text : list (string * string) -> text -> list document.
Variable recursive_split_text : text_splitter -> text -> list text.
Variable splitter_settings_ok : Z -> Z -> bool.
Variable is_decimal : cp -> bool.

Local Abbreviation chunk_markdown' :=
  (chunk_markdown markdown_split_text recursive_split_text is_decimal).
Local Abbreviation split_parent' := (split_parent recursive_split_text).
Local Abbreviation update' := (update_chunk_settings splitter_settings_ok).

Lemma parent_data_chunk_type (p : document) :
  parent_data p !! "chunk_type" = Some (PStr (u8 "parent")).
Proof. unfold parent_data. by dict_lookup. Qed.

Lemma parent_data_is_for_embedding (p : document) :
  is_for_embedding (parent_data p)
  = truthy (dict_get (metadata p) "is_standalone" (PBool false)).
Proof. unfold is_for_embedding, dict_get at 1, parent_data. by dict_lookup. Qed.

Lemma parent_data_stored_flag (p : document) :
  parent_data p !! "is_for_embedding"
  = Some (PBool (truthy (dict_get (metadata p) "is_standalone" (PBool false)))).
Proof. unfold parent_data. by dict_lookup. Qed.

Lemma child_data_stored_flag (c : document) :
  child_data c !! "is_for_embedding" = Some (PBool true).
Proof. unfold child_data. by dict_lookup. Qed.

Lemma parent_data_parent_id (p : document) :
  parent_data p !! "parent_id" = Some (get_opt (metadata p) "parent_id").
Proof. unfold parent_data. by dict_lookup. Qed.

Lemma child_data_facts (filename pid : text) (parent : document)
    (k : nat) (chunk : text) :
  let c := child_data (make_child filename pid parent k chunk) in
  c !! "chunk_type" = Some (PStr (u8 "child"))
  /\ c !! "parent_id" = Some (PStr pid)
  /\ is_for_embedding c = true.
Proof.
  cbn zeta. unfold is_for_embedding, dict_get, child_data, get_opt, dict_get.
  cbn [metadata make_child]. by dict_lookup.
Qed.

Lemma restore_clause_header_facts (d : document) :
  page_content (restore_clause_header d) = page_content d
  /\ metadata (restore_clause_header d) !! "is_standalone"
     = metadata d !! "is_standalone".
Proof.
  unfold restore_clause_header.
  destruct (dict_get (metadata d) "Header 2" (PStr [])); try done.
  destruct (_ && _ && _); [|done].
  cbn [page_content metadata]. by dict_lookup.
Qed.

Lemma split_parent_fst (self : HierarchicalChunker) (filename : text)
    (i : nat) (d : document) :
  metadata d !! "is_standalone" = None ->
  let p := fst (split_parent' self filename i d) in
  page_content p = page_content d
  /\ get_opt (metadata p) "parent_id" = PStr (parent_id_of filename i)
  /\ dict_get (metadata p) "is_standalone" (PBool false)
     = PBool (negb (parent_split_threshold <? length (page_content d))%nat).
Proof.
  intros Hd. cbn zeta. unfold split_parent, get_opt, dict_get.
  cbn [page_content tag_parent].
  destruct (parent_split_threshold <? length (page_content d))%nat;
    cbn [fst mark_standalone tag_parent metadata page_content negb];
    dict_lookup; [|done].
  by rewrite Hd.
Qed.

Lemma split_parent_snd (self : HierarchicalChunker) (filename : text)
    (i : nat) (d : document) (c : document) :
  In c (snd (split_parent' self filename i d)) ->
  (parent_split_threshold < length (page_content d))%nat
  /\ exists k chunk,
       c = make_child filename (parent_id_of filename i)
             (tag_parent filename i d) k chunk.
Proof.
  unfold split_parent. cbn [page_content tag_parent].
  destruct (Nat.ltb_spec parent_split_threshold (length (page_content d)));
    cbn [snd]; [|done].
  intros Hc. split; [done|].
  apply list_elem_of_In, elem_of_lookup_imap in Hc as (k & chunk & -> & _).
  by exists k, chunk.
Qed.

(** Contracts of the langchain splitters. *)
Definition header_splitter_contract : Prop :=
  forall (hs : list (string * string)) (s : text) (d : document),
    In d (markdown_split_text hs s) ->
    (forall k, is_Some (metadata d !! k) -> In k (map snd hs))
    /\ (page_content d <> [] -> nonblank (page_content d) = true).

Definition child_splitter_contract : Prop :=
  forall (sp : text_splitter) (t : text),
    nonblank t = true -> recursive_split_text sp t <> [].

Lemma children_of_In (pid : text) (chunks : list (gmap string pyval))
    (c : gmap string pyval) :
  In c (children_of pid chunks) <->
  In c chunks /\ str_field_is c "chunk_type" (u8 "child") = true
  /\ str_field_is c "parent_id" pid = true.
Proof.
  unfold children_of. rewrite filter_In, andb_true_iff. tauto.
Qed.

(** C2.  In the chunk list built from a segmented document, a parent
    section with non-empty text longer than 500 characters is stored with
    [is_for_embedding] [False], has at least one child and every child is
    stored with [is_for_embedding] [True]; a parent of at most 500
    characters has no child and is itself stored with [is_for_embedding]
    [True].  So exactly one of the parent and its children is an embedding
    target, as the flag is stored and as the embedding service reads it. *)
Theorem exactly_one_embedding_target
    (self : HierarchicalChunker) (markdown_content filename : text)
    (parents children : list document)
    (mapping : list (text * list text)) (sum : summary)
    (i : nat) (p : document) :
  header_splitter_contract ->
  child_splitter_contract ->
  markdown_splitter self = default_headers ->
  chunk_markdown' self markdown_content filename
    = ChunkingSuccess filename parents children mapping sum ->
  parents !! i = Some p ->
  page_content p <> [] ->
  let chunks :=
    create_vector_ready_chunks
      (ChunkingSuccess filename parents children mapping sum) in
  let mine := children_of (parent_id_of filename i) chunks in
  chunks !! i = Some (parent_data p)
  /\ parent_data p !! "parent_id" = Some (PStr (parent_id_of filename i))
  /\ is_for_embedding (parent_data p) = negb (existsb is_for_embedding mine)
  /\ (if (500 <? length (page_content p))%nat
      then parent_data p !! "is_for_embedding" = Some (PBool false)
           /\ is_for_embedding (parent_data p) = false
           /\ mine <> []
           /\ Forall (fun c => c !! "is_for_embedding" = Some (PBool true)) mine
           /\ forallb is_for_embedding mine = true
      else parent_data p !! "is_for_embedding" = Some (PBool true)
           /\ is_for_embedding (parent_data p) = true
           /\ mine = []).
Proof.
  intros Hhdr Hsplit Hself Hrun Hp Hne.
  unfold chunk_markdown in Hrun. injection Hrun as <- <- _ _.
  rewrite Hself in *. intros chunks mine.
  set (docs := markdown_split_text default_headers
                 (preprocess is_decimal markdown_content)) in *.
  set (split := imap (split_parent' self filename)
                     (map restore_clause_header docs)) in *.
  (* the parent at position [i] comes from the section [d] *)
  rewrite list_lookup_fmap in Hp.
  destruct (split !! i) as [[p' cs]|] eqn:Hsi; [|done].
  cbn in Hp. injection Hp as <-.
  unfold split in Hsi. rewrite list_lookup_imap, list_lookup_fmap in Hsi.
  destruct (docs !! i) as [d|] eqn:Hdi; [|done].
  cbn in Hsi. injection Hsi as Hsi.
  assert (Hd : In d docs).
  { apply list_elem_of_In. by eapply list_elem_of_lookup_2. }
  destruct (Hhdr _ _ _ Hd) as [Hkeys Hblank].
  assert (Hst : forall d0, In d0 docs ->
                 metadata (restore_clause_header d0) !! "is_standalone" = None).
  { intros d0 Hd0. destruct (restore_clause_header_facts d0) as [_ ->].
    destruct (Hhdr _ _ _ Hd0) as [Hk _].
    destruct (metadata d0 !! "is_standalone") eqn:Hl; [|done].
    exfalso. specialize (Hk "is_standalone"%string).
    rewrite Hl in Hk. specialize (Hk (mk_is_Some _ _ eq_refl)).
    cbn in Hk. intuition discriminate. }
  destruct (restore_clause_header_facts d) as [Hpc _].
  pose proof (split_parent_fst self filename i _ (Hst d Hd)) as Hfst.
  cbn zeta in Hfst. rewrite Hsi in Hfst. cbn [fst] in Hfst.
  destruct Hfst as (Hcontent & Hpid & Hstand).
  rewrite Hpc in Hcontent, Hstand.
  (* membership in the child part of the list *)
  assert (Hchild : forall c,
    In c chunks -> str_field_is c "chunk_type" (u8 "child") = true ->
    exists j d0 k chunk,
      docs !! j = Some d0
      /\ (parent_split_threshold < length (page_content d0))%nat
      /\ c = child_data (make_child filename (parent_id_of filename j)
                           (tag_parent filename j (restore_clause_header d0))
                           k chunk)).
  { intros c Hc Hty. unfold chunks, create_vector_ready_chunks in Hc.
    apply in_app_iff in Hc as [Hc|Hc].
    - apply in_map_iff in Hc as (p0 & <- & _).
      unfold str_field_is in Hty. by rewrite parent_data_chunk_type in Hty.
    - apply in_map_iff in Hc as (c0 & <- & Hc0).
      apply in_concat in Hc0 as (cs0 & Hcs0 & Hc0).
      apply in_map_iff in Hcs0 as ([p0 cs1] & <- & Hin).
      apply list_elem_of_In, elem_of_lookup_imap in Hin as (j & d1 & Heq & Hj).
      rewrite list_lookup_fmap in Hj.
      destruct (docs !! j) as [d0|] eqn:Hdj; [|done].
      cbn in Hj. injection Hj as <-.
      cbn [snd] in Hc0.
      assert (Hc1 : In c0 (snd (split_parent' self filename j
                                  (restore_clause_header d0))))
        by (by rewrite <- Heq).
      apply split_parent_snd in Hc1 as (Hlen & k & chunk & ->).
      destruct (restore_clause_header_facts d0) as [Hpc0 _].
      rewrite Hpc0 in Hlen. by exists j, d0, k, chunk. }
  assert (Hmine : forall c, In c mine ->
            is_for_embedding c = true
            /\ c !! "is_for_embedding" = Some (PBool true)
            /\ (parent_split_threshold < length (page_content d))%nat).
  { intros c Hc. apply children_of_In in Hc as (Hc & Hty & Hpar).
    destruct (Hchild c Hc Hty) as (j & d0 & k & chunk & Hdj & Hlen & ->).
    destruct (child_data_facts filename (parent_id_of filename j)
                (tag_parent filename j (restore_clause_header d0)) k chunk)
      as (_ & Hpj & Hemb).
    cbn zeta in Hpj, Hemb. split; [exact Hemb|].
    split; [apply child_data_stored_flag|].
    unfold str_field_is in Hpar. rewrite Hpj in Hpar.
    apply text_eqb_eq, parent_id_of_inj in Hpar. subst j.
    rewrite Hdi in Hdj. by injection Hdj as <-. }
  assert (Hall : forallb is_for_embedding mine = true).
  { apply forallb_forall. intros c Hc. by apply Hmine. }
  assert (Hlookup : chunks !! i = Some (parent_data p')).
  { unfold chunks, create_vector_ready_chunks.
    rewrite lookup_app_l.
    - rewrite !list_lookup_fmap. unfold split.
      rewrite list_lookup_imap, list_lookup_fmap, Hdi. cbn. by rewrite Hsi.
    - rewrite !length_map. unfold split. rewrite length_imap, length_map.
      by eapply lookup_lt_Some. }
  split; [exact Hlookup|].
  split; [by rewrite parent_data_parent_id, Hpid|].
  assert (Hstored : forall c, In c mine ->
            c !! "is_for_embedding" = Some (PBool true))
    by (intros c Hc; by apply Hmine).
  rewrite parent_data_stored_flag, parent_data_is_for_embedding, Hstand, Hcontent.
  cbn [truthy].
  change parent_split_threshold with 500%nat in *.
  destruct (Nat.ltb_spec 500 (length (page_content d))) as [Hlong|Hshort];
    cbn [negb].
  - (* a long section: the child splitter returns at least one chunk *)
    assert (Hsome : mine <> []).
    { assert (Hnb : nonblank (page_content d) = true).
      { apply Hblank. by rewrite <- Hcontent. }
      specialize (Hsplit (child_splitter self) (page_content d) Hnb).
      destruct (recursive_split_text (child_splitter self) (page_content d))
        as [|chunk0 rest] eqn:Hchunks; [done|].
      set (c0 := child_data (make_child filename (parent_id_of filename i)
                    (tag_parent filename i (restore_clause_header d)) 0 chunk0)).
      assert (Hin : In c0 mine).
      { destruct (child_data_facts filename (parent_id_of filename i)
                    (tag_parent filename i (restore_clause_header d)) 0 chunk0)
          as (Hty & Hpj & _). cbn zeta in Hty, Hpj. fold c0 in Hty, Hpj.
        apply children_of_In. unfold str_field_is. rewrite Hty, Hpj.
        split; [|split; by apply text_eqb_eq].
        unfold chunks, create_vector_ready_chunks.
        apply in_app_iff. right. apply in_map, in_concat.
        exists cs. split.
        - apply in_map_iff. exists (p', cs). split; [done|].
          apply list_elem_of_In, elem_of_lookup_imap.
          exists i, (restore_clause_header d). split; [done|].
          by rewrite list_lookup_fmap, Hdi.
        - assert (Hcs : cs = snd (split_parent' self filename i
                                   (restore_clause_header d)))
            by (by rewrite Hsi).
          rewrite Hcs. unfold split_parent. cbn [page_content tag_parent].
          rewrite Hpc.
          destruct (Nat.ltb_spec parent_split_threshold
                      (length (page_content d))) as [_|Hbad];
            [|change parent_split_threshold with 500%nat in Hbad; lia].
          cbn [snd]. rewrite Hchunks. cbn. by left. }
      intros Hnil. by rewrite Hnil in Hin. }
    assert (Hex : existsb is_for_embedding mine = true).
    { destruct mine as [|c0 rest]; [done|].
      cbn in Hall |- *. apply andb_true_iff in Hall as [-> _]. done. }
    rewrite Hex. repeat (split; [done|]).
    split; [by apply List.Forall_forall | done].
  - assert (Hnil : mine = []).
    { destruct mine as [|c0 rest] eqn:Hm; [done|].
      destruct (Hmine c0) as (_ & _ & Hlen); [by left|].
      change parent_split_threshold with 500%nat in Hlen. lia. }
    by rewrite Hnil.
Qed.

Definition parents_of (r : chunking_result) : list document :=
  match r with
  | ChunkingSuccess _ parent_chunks _ _ _ => parent_chunks
  | ChunkingFailure _ _ => []
  end.

Lemma split_parent_fst_indep (self self' : HierarchicalChunker)
    (filename : text) (i : nat) (d : document) :
  fst (split_parent' self filename i d) = fst (split_parent' self' filename i d).
Proof. unfold split_parent. by destruct (_ <? _)%nat. Qed.

(** C10.  A settings update leaves the header table and the header
    splitter alone and sets the chunk size and overlap (and, when the
    constructor accepts them, the child splitter built from them); the
    parent chunks of any document, with their stand-alone marks and hence
    their embedding flags, are the same before and after: a parent is
    marked stand-alone exactly when its text has at most 500 characters. *)
Theorem update_chunk_settings_keeps_threshold
    (self : HierarchicalChunker) (new_size new_overlap : Z) :
  let self' := snd (update' new_size new_overlap self) in
  headers_to_split_on self' = headers_to_split_on self
  /\ markdown_splitter self' = markdown_splitter self
  /\ chunk_size self' = new_size
  /\ chunk_overlap self' = new_overlap
  /\ child_splitter self'
     = (if splitter_settings_ok new_size new_overlap
        then TextSplitter new_size new_overlap else child_splitter self)
  /\ (forall markdown_content filename,
        parents_of (chunk_markdown' self' markdown_content filename)
        = parents_of (chunk_markdown' self markdown_content filename))
  /\ (forall filename i d,
        metadata d !! "is_standalone" = None ->
        is_for_embedding (parent_data (fst (split_parent' self' filename i d)))
        = (length (page_content d) <=? 500)%nat
        /\ (snd (split_parent' self' filename i d) <> [] ->
            (500 < length (page_content d))%nat)).
Proof.
  cbn zeta.
  assert (Hfields :
    headers_to_split_on (snd (update' new_size new_overlap self))
      = headers_to_split_on self
    /\ markdown_splitter (snd (update' new_size new_overlap self))
      = markdown_splitter self
    /\ chunk_size (snd (update' new_size new_overlap self)) = new_size
    /\ chunk_overlap (snd (update' new_size new_overlap self)) = new_overlap
    /\ child_splitter (snd (update' new_size new_overlap self))
       = (if splitter_settings_ok new_size new_overlap
          then TextSplitter new_size new_overlap else child_splitter self)).
  { unfold update_chunk_settings, _create_child_splitter.
    cbn [chunk_size chunk_overlap].
    by destruct (splitter_settings_ok new_size new_overlap). }
  destruct Hfields as (Hh & Hm & Hs & Ho & Hc).
  repeat (split; [assumption|]). split.
  - intros markdown_content filename. unfold chunk_markdown.
    cbn [parents_of]. rewrite Hm.
    apply list_eq. intros i. rewrite !list_lookup_fmap, !list_lookup_imap.
    destruct (_ !! i) as [d|]; [|done]. cbn. f_equal.
    apply split_parent_fst_indep.
  - intros filename i d Hd.
    destruct (split_parent_fst (snd (update' new_size new_overlap self))
                filename i d Hd) as (_ & _ & Hstand).
    rewrite parent_data_is_for_embedding, Hstand. cbn [truthy].
    change parent_split_threshold with 500%nat. split.
    + destruct (Nat.ltb_spec 500 (length (page_content d))),
               (Nat.leb_spec (length (page_content d)) 500); cbn; lia || done.
    + unfold split_parent. cbn [page_content tag_parent].
      change parent_split_threshold with 500%nat.
      destruct (Nat.ltb_spec 500 (length (page_content d))); cbn [snd]; done.
Qed.

End ChunkerFacts.

(** Executable stand-ins for the langchain splitters: one section per
    non-blank document, one child per section. *)
Definition one_section (hs : list (string * string)) (s : text) : list document :=
  if nonblank s then [Document ∅ s] else [].

Definition one_chunk (sp : text_splitter) (t : text) : list text := [t].

Definition ascii_digit (c : cp) : bool := ((48 <=? c) && (c <=? 57))%N.

Lemma one_section_contract : header_splitter_contract one_section.
Proof.
  intros hs s d. unfold one_section.
  destruct (nonblank s) eqn:Hs; [|done].
  intros [<-|[]]. cbn [metadata page_content]. split; [|done].
  intros k [v Hv]. by rewrite lookup_empty in Hv.
Qed.

Lemma one_chunk_contract : child_splitter_contract one_chunk.
Proof. intros sp t _. done. Qed.

Definition long_section : text := repeat 97%N 501.

Lemma exactly_one_embedding_target_witness :
  let r := chunk_markdown one_section one_chunk ascii_digit init
             long_section (u8 "doc") in
  let chunks := create_vector_ready_chunks r in
  let mine := children_of (parent_id_of (u8 "doc") 0) chunks in
  let p := tag_parent (u8 "doc") 0 (Document ∅ long_section) in
  chunks !! 0%nat = Some (parent_data p)
  /\ parent_data p !! "is_for_embedding" = Some (PBool false)
  /\ mine <> []
  /\ Forall (fun c => c !! "is_for_embedding" = Some (PBool true)) mine.
Proof.
  intros r chunks mine p.
  assert (Hlookup : parents_of r !! 0%nat = Some p)
    by (vm_compute; reflexivity).
  assert (Hne : page_content p <> []) by discriminate.
  pose proof (exactly_one_embedding_target one_section one_chunk ascii_digit
                init long_section (u8 "doc") _ _ _ _ 0 p
                one_section_contract one_chunk_contract eq_refl eq_refl
                Hlookup Hne) as (H0 & _ & _ & Hcase).
  change (500 <? length (page_content p))%nat with true in Hcase.
  destruct Hcase as (Hparent & _ & Hsome & Hall & _).
  split; [exact H0|]. split; [exact Hparent|]. split; [exact Hsome | exact Hall].
Defined.

End Chunking.

(** * [src/aws/embedding_service.py]: embedding of chunked documents *)

Module Embedding.
Import Text.

Record EmbeddingConfig : Type := {
  model_id : text;
  dimensions : Z;
  normalize : bool;
  region_name : text;
}.

Definition default_config : EmbeddingConfig :=
  {| model_id := u8 "amazon.titan-embed-text-v2:0";
     dimensions := 1024;
     normalize := true;
     region_name := u8 "ap-northeast-2" |}.

Abbreviation chunk := (gmap string pyval).
Definition vector := list Q.

Definition vector_val (v : vector) : pyval := PList (map PFloat v).

(** The keys [embed_chunked_documents] writes. *)
Definition embedding_keys : list string :=
  ["embedding"; "embedding_success"; "embedding_metadata"; "embedding_error"]%string.

(** [doc.get("is_for_embedding", True)] as a condition. *)
Definition is_target (doc : chunk) : bool :=
  truthy (dict_get doc "is_for_embedding" (PBool true)).

(** [type(v).__name__] *)
Definition type_name (v : pyval) : string :=
  match v with
  | PNone => "NoneType"
  | PBool _ => "bool"
  | PInt _ => "int"
  | PFloat _ => "float"
  | PStr _ => "str"
  | PList _ => "list"
  | PDict _ => "dict"
  end.

(** The [AttributeError] of [v.strip()] on a value without that method;
    the message is what [str(e)] gives. *)
Definition attribute_error (v : pyval) : exn :=
  Exception ("'" ++ type_name v ++ "' object has no attribute 'strip'").

(** [text.strip()] as a condition: raises [AttributeError] on a value that
    is not a string. *)
Definition strip_truthy (v : pyval) : outcome bool :=
  match v with
  | PStr s => Ok (nonblank s)
  | _ => Raise (attribute_error v)
  end.

Definition as_text (v : pyval) : text :=
  match v with
  | PStr s => s
  | _ => []
  end.

Section Service.
Variable World : Type.
(** [self.embeddings.aembed_documents(texts)] (langchain / Bedrock). *)
Variable aembed_documents : list text -> M World (list vector).
Variable config : EmbeddingConfig.

Local Open Scope py_scope.

(** [create_batch_embeddings(texts)] *)
Definition create_batch_embeddings (texts : list text) : M World (list vector) :=
  match texts with
  | [] => ret []
  | _ => try_except (aembed_documents texts) (fun e w => (Raise e, w))
  end.

(** The [else] branch of the first loop. *)
Definition enhance_parent (doc : chunk) : chunk :=
  <["embedding_metadata" :=
      PDict (<["chunk_type" := dict_get doc "chunk_type" (PStr (u8 "unknown"))]>
            (<["reason" := PStr (u8 "Parent chunk - 임베딩 불필요")]>
            (<["model_id" := PStr (model_id config)]> ∅)))]>
  (<["embedding_success" := PBool false]>
  (<["embedding" := PNone]> doc)).

Definition embedding_targets (docs : list chunk) : list (nat * chunk) :=
  List.filter (fun d => is_target (snd d)) (imap pair docs).

Definition non_embedding_chunks (docs : list chunk) : list (nat * chunk) :=
  map (fun d => (fst d, enhance_parent (snd d)))
      (List.filter (fun d => negb (is_target (snd d))) (imap pair docs)).

(** [[(i, text) for i, text in enumerate(texts) if text.strip()]] *)
Fixpoint valid_texts_from (i : nat) (texts : list pyval)
    : outcome (list (nat * text)) :=
  match texts with
  | [] => Ok []
  | v :: rest =>
    match strip_truthy v with
    | Raise e => Raise e
    | Ok keep =>
      match valid_texts_from (S i) rest with
      | Raise e => Raise e
      | Ok l => Ok (if keep then (i, as_text v) :: l else l)
      end
    end
  end.

Definition valid_texts (content_key : string) (targets : list (nat * chunk))
    : outcome (list (nat * text)) :=
  valid_texts_from 0
    (map (fun d => dict_get (snd d) content_key (PStr [])) targets).

Definition enhance_embedded (doc : chunk) (v : vector) : chunk :=
  <["embedding_metadata" :=
      PDict (<["chunk_type" := dict_get doc "chunk_type" (PStr (u8 "child"))]>
            (<["normalized" := PBool (normalize config)]>
            (<["dimensions" := PInt (Z.of_nat (length v))]>
            (<["model_id" := PStr (model_id config)]> ∅))))]>
  (<["embedding_success" := PBool true]>
  (<["embedding" := vector_val v]> doc)).

Definition enhance_failed (doc : chunk) : chunk :=
  <["embedding_error" := PStr (u8 "빈 텍스트 또는 처리 실패")]>
  (<["embedding_success" := PBool false]>
  (<["embedding" := PNone]> doc)).

(** One iteration of the loop over [enumerate(embedding_targets)]; the
    state is [embedding_index] and [enhanced_documents]. *)
Definition place_target (valid_indices : list nat) (embeddings : list vector)
    (st : nat * list (option chunk)) (t : nat * (nat * chunk))
    : nat * list (option chunk) :=
  let '(embedding_index, enhanced_documents) := st in
  let '(target_idx, (original_idx, doc)) := t in
  match embeddings !! embedding_index with
  | Some v =>
    if bool_decide (target_idx ∈ valid_indices)
    then (S embedding_index,
          <[original_idx := Some (enhance_embedded doc v)]> enhanced_documents)
    else (embedding_index,
          <[original_idx := Some (enhance_failed doc)]> enhanced_documents)
  | None =>
    (embedding_index,
     <[original_idx := Some (enhance_failed doc)]> enhanced_documents)
  end.

Definition place_parent (enhanced_documents : list (option chunk))
    (t : nat * chunk) : list (option chunk) :=
  <[fst t := Some (snd t)]> enhanced_documents.

(** The merge after the batch call. *)
Definition merge_results (docs : list chunk) (valid_indices : list nat)
    (embeddings : list vector) : list chunk :=
  let targets := embedding_targets docs in
  let enhanced0 := replicate (length docs) None in
  let '(_, enhanced1) :=
    foldl (place_target valid_indices embeddings) (O, enhanced0)
          (imap pair targets) in
  let enhanced2 := foldl place_parent enhanced1 (non_embedding_chunks docs) in
  omap id enhanced2.

(** The [except] branch. *)
Definition mark_failed (e : exn) (docs : list chunk) : list chunk :=
  let '(Exception msg) := e in
  map (fun doc =>
         <["embedding_error" := PStr (u8 msg)]>
         (<["embedding_success" := PBool false]>
         (<["embedding" := PNone]> doc))) docs.

(** The body of the [try] block. *)
Definition embed_body (docs : list chunk) (content_key : string)
    : M World (list chunk) :=
  let targets := embedding_targets docs in
  match targets with
  | [] => ret (map snd (non_embedding_chunks docs))
  | _ =>
    fun w =>
      match valid_texts content_key targets with
      | Raise e => (Raise e, w)
      | Ok [] => (Ok docs, w)
      | Ok vts =>
        (let! embeddings := create_batch_embeddings (map snd vts) in
         ret (merge_results docs (map fst vts) embeddings)) w
      end
  end.

(** [embed_chunked_documents(chunked_documents, content_key="content")] *)
Definition embed_chunked_documents (docs : list chunk) (content_key : string)
    : M World (list chunk) :=
  match docs with
  | [] => ret []
  | _ =>
    try_except (embed_body docs content_key)
               (fun e => ret (mark_failed e docs))
  end.

End Service.

(** ** Positional correspondence of input and output *)

(** [out] is [doc] with at most the embedding keys rewritten. *)
Definition agrees (doc out : chunk) : Prop :=
  forall k : string, ~ In k embedding_keys -> out !! k = doc !! k.

Ltac agrees_tac :=
  let k := fresh "k" in
  let Hk := fresh "Hk" in
  intros k Hk;
  repeat (rewrite lookup_insert_ne;
          [| let E := fresh in intros E; apply Hk; rewrite <- E; cbn; tauto ]);
  reflexivity.

Lemma agrees_refl (doc : chunk) : agrees doc doc.
Proof. by intros k _. Qed.

Lemma agrees_enhance_parent (config : EmbeddingConfig) (doc : chunk) :
  agrees doc (enhance_parent config doc).
Proof. unfold enhance_parent. agrees_tac. Qed.

Lemma agrees_enhance_embedded (config : EmbeddingConfig) (doc : chunk) (v : vector) :
  agrees doc (enhance_embedded config doc v).
Proof. unfold enhance_embedded. agrees_tac. Qed.

Lemma agrees_enhance_failed (doc : chunk) : agrees doc (enhance_failed doc).
Proof. unfold enhance_failed. agrees_tac. Qed.

Lemma agrees_mark_failed (msg : text) (doc : chunk) :
  agrees doc (<["embedding_error" := PStr msg]>
              (<["embedding_success" := PBool false]>
              (<["embedding" := PNone]> doc))).
Proof. agrees_tac. Qed.

Section Slots.
Variable docs : list chunk.

(** The state of [enhanced_documents] during the merge. *)
Definition good (arr : list (option chunk)) : Prop :=
  length arr = length docs /\
  forall i o, arr !! i = Some (Some o) ->
    exists doc, docs !! i = Some doc /\ agrees doc o.

Definition filled (arr : list (option chunk)) (i : nat) : Prop :=
  exists o, arr !! i = Some (Some o).

Lemma good_insert (arr : list (option chunk)) (i : nat) (doc o : chunk) :
  good arr -> docs !! i = Some doc -> agrees doc o ->
  good (<[i := Some o]> arr).
Proof.
  intros [Hlen Hok] Hd Ha. split; [by rewrite length_insert|].
  intros j o' Hj. destruct (decide (i = j)) as [<-|Hne].
  - rewrite list_lookup_insert_eq in Hj.
    + injection Hj as <-. by exists doc.
    + rewrite Hlen. by eapply lookup_lt_Some.
  - rewrite list_lookup_insert_ne in Hj by done. by apply Hok.
Qed.

Lemma filled_insert (arr : list (option chunk)) (i j : nat) (o : chunk) :
  filled arr j -> filled (<[i := Some o]> arr) j.
Proof.
  intros [o' Ho']. destruct (decide (i = j)) as [<-|Hne].
  - exists o. rewrite list_lookup_insert_eq; [done|]. by eapply lookup_lt_Some.
  - exists o'. by rewrite list_lookup_insert_ne.
Qed.

Lemma filled_insert_here (arr : list (option chunk)) (i : nat) (o : chunk) :
  (i < length arr)%nat -> filled (<[i := Some o]> arr) i.
Proof. intros Hi. exists o. by rewrite list_lookup_insert_eq. Qed.

Lemma place_targets_spec (config : EmbeddingConfig) (valid_indices : list nat)
    (embeddings : list vector) (items : list (nat * (nat * chunk)))
    (st : nat * list (option chunk)) :
  good (snd st) ->
  (forall t, In t items -> docs !! (fst (snd t)) = Some (snd (snd t))) ->
  let st' := foldl (place_target config valid_indices embeddings) st items in
  good (snd st')
  /\ (forall j, filled (snd st) j -> filled (snd st') j)
  /\ (forall t, In t items -> filled (snd st') (fst (snd t))).
Proof.
  revert st. induction items as [|[tidx [oidx doc]] items IH];
    intros [ei arr] Hgood Hitems; cbn zeta.
  - cbn. repeat split; [apply Hgood | apply Hgood | done | done].
  - cbn [foldl]. cbn [snd] in Hgood.
    assert (Hd : docs !! oidx = Some doc) by (apply (Hitems (tidx, (oidx, doc))); by left).
    assert (Hlt : (oidx < length arr)%nat).
    { destruct Hgood as [-> _]. by eapply lookup_lt_Some. }
    set (st1 := place_target config valid_indices embeddings (ei, arr)
                  (tidx, (oidx, doc))).
    assert (H1 : good (snd st1) /\ (forall j, filled arr j -> filled (snd st1) j)
                 /\ filled (snd st1) oidx).
    { unfold st1, place_target.
      destruct (embeddings !! ei) as [v|];
        [destruct (bool_decide (tidx ∈ valid_indices))|]; cbn [snd];
        (split; [apply (good_insert _ _ doc);
                 auto using agrees_enhance_embedded, agrees_enhance_failed|]);
        (split; [intros j; apply filled_insert | by apply filled_insert_here]). }
    destruct H1 as (Hg1 & Hkeep1 & Hhere1).
    destruct (IH st1 Hg1) as (Hg & Hkeep & Hall).
    { intros t Ht. apply Hitems. by right. }
    cbn zeta in Hg, Hkeep, Hall. cbn [snd] in *.
    split; [exact Hg|]. split; [by auto|].
    intros t [<-|Ht]; [cbn; by apply Hkeep | by apply Hall].
Qed.

Lemma place_parents_spec (items : list (nat * chunk))
    (arr : list (option chunk)) :
  good arr ->
  (forall t, In t items ->
     exists doc, docs !! (fst t) = Some doc /\ agrees doc (snd t)) ->
  let arr' := foldl place_parent arr items in
  good arr'
  /\ (forall j, filled arr j -> filled arr' j)
  /\ (forall t, In t items -> filled arr' (fst t)).
Proof.
  revert arr. induction items as [|[i o] items IH]; intros arr Hgood Hitems;
    cbn zeta.
  - cbn. repeat split; [apply Hgood | apply Hgood | done | done].
  - cbn [foldl]. unfold place_parent at 2. cbn [fst snd].
    destruct (Hitems (i, o)) as (doc & Hd & Ha); [by left|]. cbn [fst snd] in *.
    assert (Hlt : (i < length arr)%nat).
    { destruct Hgood as [-> _]. by eapply lookup_lt_Some. }
    destruct (IH (<[i := Some o]> arr)) as (Hg & Hkeep & Hall).
    { by eapply good_insert. }
    { intros t Ht. apply Hitems. by right. }
    cbn zeta in Hg, Hkeep, Hall.
    split; [exact Hg|]. split.
    + intros j Hj. by apply Hkeep, filled_insert.
    + intros t [<-|Ht]; [|by apply Hall].
      cbn [fst]. by apply Hkeep, filled_insert_here.
Qed.

Lemma compact_filled (arr : list (option chunk)) :
  (forall i, (i < length arr)%nat -> filled arr i) ->
  length (omap id arr) = length arr
  /\ forall i o, arr !! i = Some (Some o) -> omap id arr !! i = Some o.
Proof.
  induction arr as [|x arr IH]; intros Hall; [done|].
  destruct (Hall O) as [o0 Ho0]; [cbn; lia|].
  cbn in Ho0. injection Ho0 as ->.
  change (omap id (Some o0 :: arr)) with (o0 :: omap id arr).
  destruct IH as [Hlen Hget].
  { intros i Hi. destruct (Hall (S i)) as [o Ho]; [cbn; lia|]. by exists o. }
  split; [cbn [length]; by rewrite Hlen|].
  intros [|i] o Hio; [cbn in *; congruence | by apply Hget].
Qed.
End Slots.

Lemma In_enumerate {A} (l : list A) (i : nat) (x : A) :
  In (i, x) (imap pair l) <-> l !! i = Some x.
Proof.
  rewrite <- list_elem_of_In, elem_of_lookup_imap. split.
  - intros (j & y & [= -> ->] & H). exact H.
  - intros H. by exists i, x.
Qed.

Lemma In_enumerate_exists {A} (l : list A) (x : A) :
  In x l -> exists k, In (k, x) (imap pair l).
Proof.
  intros H. apply list_elem_of_In, list_elem_of_lookup in H as [k Hk].
  exists k. by apply In_enumerate.
Qed.

(** Every input position corresponds to one output entry, which is the
    input chunk with at most the embedding keys rewritten. *)
Definition positional (docs out : list chunk) : Prop :=
  length out = length docs /\
  forall i doc, docs !! i = Some doc ->
    exists o, out !! i = Some o /\ agrees doc o.

Lemma positional_map (f : chunk -> chunk) (docs : list chunk) :
  (forall doc, agrees doc (f doc)) -> positional docs (map f docs).
Proof.
  intros Hf. split; [by rewrite length_map|].
  intros i doc Hd. exists (f doc). split; [|apply Hf].
  by rewrite list_lookup_fmap, Hd.
Qed.

(** ** What is sent to the model and what is written back *)

(** [doc.get(content_key, "")] *)
Definition content_of (content_key : string) (doc : chunk) : pyval :=
  dict_get doc content_key (PStr []).

(** The text of an embedding target that passes the blank filter. *)
Definition text_to_embed (content_key : string) (doc : chunk) : option text :=
  if is_target doc then
    match content_of content_key doc with
    | PStr s => if nonblank s then Some s else None
    | _ => None
    end
  else None.

(** The non-blank texts of the embedding targets, in chunk order. *)
Definition sent (content_key : string) (docs : list chunk) : list text :=
  omap (text_to_embed content_key) docs.

Lemma sent_cons (content_key : string) (doc : chunk) (rest : list chunk) :
  sent content_key (doc :: rest)
  = match text_to_embed content_key doc with
    | Some s => s :: sent content_key rest
    | None => sent content_key rest
    end.
Proof. unfold sent. cbn. by destruct (text_to_embed content_key doc). Qed.

(** The content of the first embedding target whose content is not a
    string. *)
Fixpoint first_bad (content_key : string) (docs : list chunk) : option pyval :=
  match docs with
  | [] => None
  | doc :: rest =>
    if is_target doc then
      match content_of content_key doc with
      | PStr _ => first_bad content_key rest
      | v => Some v
      end
    else first_bad content_key rest
  end.

(** The chunk list after a batch call that returned [embeddings], chunk by
    chunk: a target with non-blank text takes the next vector, if one is
    left; a target with blank text, or for which no vector is left, is
    marked failed; every other chunk is marked as a parent. *)
Fixpoint merged (config : EmbeddingConfig) (content_key : string)
    (docs : list chunk) (embeddings : list vector) : list chunk :=
  match docs with
  | [] => []
  | doc :: rest =>
    if is_target doc then
      match text_to_embed content_key doc, embeddings with
      | Some _, v :: vs =>
        enhance_embedded config doc v :: merged config content_key rest vs
      | Some _, [] =>
        enhance_failed doc :: merged config content_key rest []
      | None, _ =>
        enhance_failed doc :: merged config content_key rest embeddings
      end
    else enhance_parent config doc :: merged config content_key rest embeddings
  end.

Section Merge.
Variable config : EmbeddingConfig.
Variable content_key : string.

Definition write (arr : list (option chunk)) (t : nat * chunk)
    : list (option chunk) :=
  <[fst t := Some (snd t)]> arr.

(** The writes of the loop over the targets, with the index into
    [embeddings] it threads. *)
Fixpoint target_loop_writes (valid_indices : list nat) (embeddings : list vector)
    (embedding_index : nat) (items : list (nat * (nat * chunk)))
    : list (nat * chunk) :=
  match items with
  | [] => []
  | (target_idx, (original_idx, doc)) :: rest =>
    match embeddings !! embedding_index with
    | Some v =>
      if bool_decide (target_idx ∈ valid_indices)
      then (original_idx, enhance_embedded config doc v)
             :: target_loop_writes valid_indices embeddings (S embedding_index) rest
      else (original_idx, enhance_failed doc)
             :: target_loop_writes valid_indices embeddings embedding_index rest
    | None =>
      (original_idx, enhance_failed doc)
        :: target_loop_writes valid_indices embeddings embedding_index rest
    end
  end.

Lemma place_target_writes (valid_indices : list nat) (embeddings : list vector)
    (items : list (nat * (nat * chunk))) (ei : nat) (arr : list (option chunk)) :
  snd (foldl (place_target config valid_indices embeddings) (ei, arr) items)
  = foldl write arr (target_loop_writes valid_indices embeddings ei items).
Proof.
  revert ei arr. induction items as [|[t [o doc]] items IH]; intros ei arr;
    [done|].
  cbn [foldl target_loop_writes]. unfold place_target at 2.
  destruct (embeddings !! ei) as [v|];
    [destruct (bool_decide (t ∈ valid_indices))|]; cbn [foldl]; apply IH.
Qed.

(** The same writes, by recursion on the chunk list from position [off]. *)
Fixpoint target_writes (off : nat) (docs : list chunk) (embeddings : list vector)
    : list (nat * chunk) :=
  match docs with
  | [] => []
  | doc :: rest =>
    if is_target doc then
      match text_to_embed content_key doc, embeddings with
      | Some _, v :: vs =>
        (off, enhance_embedded config doc v) :: target_writes (S off) rest vs
      | Some _, [] =>
        (off, enhance_failed doc) :: target_writes (S off) rest []
      | None, _ =>
        (off, enhance_failed doc) :: target_writes (S off) rest embeddings
      end
    else target_writes (S off) rest embeddings
  end.

Fixpoint parent_writes (off : nat) (docs : list chunk) : list (nat * chunk) :=
  match docs with
  | [] => []
  | doc :: rest =>
    if is_target doc then parent_writes (S off) rest
    else (off, enhance_parent config doc) :: parent_writes (S off) rest
  end.

Definition enumerate_from (off : nat) (docs : list chunk) : list (nat * chunk) :=
  imap (fun k d => ((off + k)%nat, d)) docs.

Lemma enumerate_from_cons (off : nat) (doc : chunk) (rest : list chunk) :
  enumerate_from off (doc :: rest) = (off, doc) :: enumerate_from (S off) rest.
Proof.
  unfold enumerate_from. cbn [imap]. rewrite Nat.add_0_r. f_equal.
  apply imap_ext. intros k d _. cbn. f_equal. lia.
Qed.

Lemma enumerate_from_0 (docs : list chunk) :
  enumerate_from 0 docs = imap pair docs.
Proof. reflexivity. Qed.

Definition targets_from (off : nat) (docs : list chunk) : list (nat * chunk) :=
  List.filter (fun d => is_target (snd d)) (enumerate_from off docs).

Lemma targets_from_cons (off : nat) (doc : chunk) (rest : list chunk) :
  targets_from off (doc :: rest)
  = if is_target doc then (off, doc) :: targets_from (S off) rest
    else targets_from (S off) rest.
Proof. unfold targets_from. by rewrite enumerate_from_cons. Qed.

Lemma parent_writes_spec (off : nat) (docs : list chunk) :
  map (fun d => (fst d, enhance_parent config (snd d)))
      (List.filter (fun d => negb (is_target (snd d))) (enumerate_from off docs))
  = parent_writes off docs.
Proof.
  revert off. induction docs as [|doc rest IH]; intros off; [done|].
  rewrite enumerate_from_cons. cbn [List.filter snd parent_writes].
  destruct (is_target doc); cbn [negb map fst snd]; by rewrite IH.
Qed.

(** The target index [t0 + k] passes the test [in valid_indices] exactly
    when the [k]-th target has a text to embed. *)
Definition valid_ok (valid_indices : list nat) (t0 : nat)
    (targets : list (nat * chunk)) : Prop :=
  forall k o doc, targets !! k = Some (o, doc) ->
    bool_decide ((t0 + k)%nat ∈ valid_indices)
    = bool_decide (is_Some (text_to_embed content_key doc)).

Lemma target_loop_writes_spec (valid_indices : list nat)
    (embeddings : list vector) (docs : list chunk) (off t0 ei : nat) :
  valid_ok valid_indices t0 (targets_from off docs) ->
  target_loop_writes valid_indices embeddings ei
    (imap (fun k x => ((t0 + k)%nat, x)) (targets_from off docs))
  = target_writes off docs (drop ei embeddings).
Proof.
  revert off t0 ei. induction docs as [|doc rest IH]; intros off t0 ei Hv;
    [done|].
  rewrite targets_from_cons in Hv |- *. cbn [target_writes].
  destruct (is_target doc) eqn:Ht; [|by apply IH].
  cbn [imap]. rewrite Nat.add_0_r.
  assert (Hv' : valid_ok valid_indices (S t0) (targets_from (S off) rest)).
  { intros k o d Hk. rewrite <- (Hv (S k) o d Hk). f_equal.
    by replace (t0 + S k)%nat with (S t0 + k)%nat by lia. }
  rewrite (imap_ext _ (fun k x => ((S t0 + k)%nat, x)))
    by (intros; cbn; f_equal; lia).
  cbn [target_loop_writes].
  pose proof (Hv O off doc eq_refl) as H0. rewrite Nat.add_0_r in H0.
  rewrite H0.
  destruct (embeddings !! ei) as [v|] eqn:He.
  - rewrite (drop_S _ _ _ He).
    destruct (text_to_embed content_key doc) as [s|].
    + rewrite bool_decide_eq_true_2 by done. f_equal. by apply IH.
    + rewrite bool_decide_eq_false_2 by (by intros [? ?]).
      f_equal. rewrite <- (drop_S _ _ _ He). by apply IH.
  - assert (Hnil : drop ei embeddings = []).
    { apply drop_ge. by apply lookup_ge_None. }
    rewrite Hnil.
    destruct (text_to_embed content_key doc) as [s|];
      f_equal; rewrite <- Hnil; by apply IH.
Qed.

(** The contents of the targets are strings and the filter keeps the
    non-blank ones, with their target index. *)
Lemma valid_texts_from_spec (docs : list chunk) (off start : nat)
    (vts : list (nat * text)) :
  valid_texts_from start
    (map (fun d => content_of content_key (snd d)) (targets_from off docs)) = Ok vts ->
  first_bad content_key docs = None
  /\ map snd vts = sent content_key docs
  /\ Forall (fun t => (start <= fst t)%nat) vts
  /\ valid_ok (map fst vts) start (targets_from off docs).
Proof.
  revert off start vts. induction docs as [|doc rest IH]; intros off start vts.
  { cbn. intros [= <-]. repeat split; [constructor|]. intros k o d Hk. done. }
  rewrite targets_from_cons, sent_cons. cbn [first_bad].
  unfold text_to_embed.
  destruct (is_target doc) eqn:Ht.
  - cbn [map snd valid_texts_from].
    destruct (content_of content_key doc) as [| | | |s| |] eqn:Hc; try done.
    cbn [strip_truthy].
    destruct (valid_texts_from (S start) _) as [l|e] eqn:Hrest; [|done].
    intros [= <-].
    destruct (IH (S off) (S start) l Hrest) as (Hb & Hs & Hge & Hok).
    split; [exact Hb|].
    assert (Hfresh : start ∉ map fst l).
    { intros Hin. apply list_elem_of_fmap in Hin as ([i x] & -> & Hin).
      rewrite Forall_forall in Hge. specialize (Hge _ Hin). cbn in Hge. lia. }
    split; [|split].
    + destruct (nonblank s); cbn [map snd]; by rewrite Hs.
    + destruct (nonblank s); [constructor; [cbn; lia|]|];
        (eapply Forall_impl; [exact Hge|]; cbn; intros; lia).
    + intros k o d Hk. destruct k as [|k].
      * cbn in Hk. injection Hk as <- <-. rewrite Nat.add_0_r.
        unfold text_to_embed. rewrite Ht, Hc.
        destruct (nonblank s); cbn [map fst].
        -- rewrite !bool_decide_eq_true_2; [done | done | by left].
        -- rewrite !bool_decide_eq_false_2; [done | by intros [? ?] | done].
      * cbn in Hk. rewrite <- (Hok k o d Hk).
        replace (start + S k)%nat with (S start + k)%nat by lia.
        destruct (nonblank s); cbn [map fst]; [|done].
        apply bool_decide_ext. rewrite elem_of_cons. split; [|by right].
        intros [Heq|Hin]; [lia | done].
  - intros Hrun. destruct (IH (S off) start vts Hrun) as (Hb & Hs & Hge & Hok).
    repeat split; try done.
Qed.

Lemma valid_texts_from_raise (docs : list chunk) (off start : nat) (e : exn) :
  valid_texts_from start
    (map (fun d => content_of content_key (snd d)) (targets_from off docs)) = Raise e ->
  exists v, first_bad content_key docs = Some v /\ e = attribute_error v.
Proof.
  revert off start. induction docs as [|doc rest IH]; intros off start; [done|].
  rewrite targets_from_cons. cbn [first_bad].
  destruct (is_target doc) eqn:Ht; [|apply IH].
  cbn [map snd valid_texts_from].
  destruct (content_of content_key doc) as [| | | |s| |] eqn:Hc;
    try (cbn; intros [= <-]; by eexists).
  cbn [strip_truthy].
  destruct (valid_texts_from (S start) _) as [l|e'] eqn:Hrest; [done|].
  intros [= <-]. by eapply IH.
Qed.

Lemma write_commute (arr : list (option chunk)) (t : nat * chunk)
    (ws : list (nat * chunk)) :
  Forall (fun t' => fst t' <> fst t) ws ->
  write (foldl write arr ws) t = foldl write (write arr t) ws.
Proof.
  revert arr. induction ws as [|[j c] ws IH]; intros arr Hws; [done|].
  apply Forall_cons in Hws as [Hj Hws]. cbn [foldl]. rewrite IH by done.
  unfold write. cbn [fst snd] in *. by rewrite list_insert_insert_ne.
Qed.

Lemma target_writes_ge (off : nat) (docs : list chunk) (embeddings : list vector) :
  Forall (fun t => (off <= fst t)%nat) (target_writes off docs embeddings).
Proof.
  revert off embeddings. induction docs as [|doc rest IH]; intros off embeddings;
    [constructor|].
  assert (Hrest : forall e, Forall (fun t => (off <= fst t)%nat)
                              (target_writes (S off) rest e)).
  { intros e. eapply Forall_impl; [apply IH|]. cbn. intros. lia. }
  cbn [target_writes].
  destruct (is_target doc); [|apply Hrest].
  destruct (text_to_embed content_key doc); [destruct embeddings|];
    (constructor; [cbn; lia | apply Hrest]).
Qed.

(** Writing the targets and then the parents into an array of empty
    slots fills it with the merged list. *)
Lemma writes_fill (docs : list chunk) (embeddings : list vector)
    (filled_part : list (option chunk)) :
  foldl write
    (foldl write (filled_part ++ replicate (length docs) None)
       (target_writes (length filled_part) docs embeddings))
    (parent_writes (length filled_part) docs)
  = filled_part ++ map Some (merged config content_key docs embeddings).
Proof.
  revert embeddings filled_part.
  induction docs as [|doc rest IH]; intros embeddings filled_part; [done|].
  cbn [length replicate target_writes parent_writes merged].
  assert (Hput : forall c,
    write (filled_part ++ None :: replicate (length rest) None)
          (length filled_part, c)
    = (filled_part ++ [Some c]) ++ replicate (length rest) None).
  { intros c. unfold write. cbn [fst snd].
    rewrite insert_app_r_alt by lia. rewrite Nat.sub_diag.
    cbn. by rewrite <- app_assoc. }
  assert (Hstep : forall c e,
    foldl write
      (foldl write ((filled_part ++ [Some c]) ++ replicate (length rest) None)
         (target_writes (S (length filled_part)) rest e))
      (parent_writes (S (length filled_part)) rest)
    = filled_part ++ Some c :: map Some (merged config content_key rest e)).
  { intros c e.
    replace (S (length filled_part)) with (length (filled_part ++ [Some c]))
      by (rewrite length_app; cbn; lia).
    rewrite IH. by rewrite <- app_assoc. }
  destruct (is_target doc).
  - destruct (text_to_embed content_key doc); [destruct embeddings|];
      cbn [foldl map]; rewrite Hput; apply Hstep.
  - cbn [foldl map]. rewrite write_commute.
    + rewrite Hput. apply Hstep.
    + eapply Forall_impl; [apply target_writes_ge|]. cbn. intros. lia.
Qed.

Lemma omap_id_Some (l : list chunk) : omap id (map Some l) = l.
Proof. induction l as [|x l IH]; [done|]. cbn. by rewrite IH. Qed.

(** The merge of the source computes [merged]. *)
Lemma merge_results_merged (docs : list chunk) (vts : list (nat * text))
    (embeddings : list vector) :
  valid_texts content_key (embedding_targets docs) = Ok vts ->
  merge_results config docs (map fst vts) embeddings
  = merged config content_key docs embeddings.
Proof.
  intros Hvt. unfold valid_texts in Hvt.
  change (embedding_targets docs) with (targets_from 0 docs) in Hvt.
  destruct (valid_texts_from_spec docs 0 0 vts Hvt) as (_ & _ & _ & Hok).
  unfold merge_results.
  pose proof (place_target_writes (map fst vts) embeddings
                (imap pair (embedding_targets docs)) 0
                (replicate (length docs) None)) as Hfold.
  destruct (foldl (place_target config (map fst vts) embeddings)
              (0%nat, replicate (length docs) None)
              (imap pair (embedding_targets docs))) as [ei enhanced1].
  cbn [snd] in Hfold. rewrite Hfold.
  change (imap pair (embedding_targets docs))
    with (imap (fun k x => ((0 + k)%nat, x)) (targets_from 0 docs)).
  rewrite (target_loop_writes_spec _ _ _ _ _ _ Hok). rewrite drop_0.
  unfold non_embedding_chunks.
  change (imap pair docs) with (enumerate_from 0 docs).
  rewrite parent_writes_spec.
  pose proof (writes_fill docs embeddings []) as Hfill.
  cbn [length app] in Hfill.
  change (foldl place_parent) with (foldl write).
  rewrite Hfill. apply omap_id_Some.
Qed.

End Merge.
Section ServiceFacts.
Variable World : Type.
Variable aembed_documents : list text -> M World (list vector).
Variable config : EmbeddingConfig.

Local Abbreviation embed := (embed_chunked_documents World aembed_documents config).

Lemma merge_results_positional (docs : list chunk) (valid_indices : list nat)
    (embeddings : list vector) :
  positional docs (merge_results config docs valid_indices embeddings).
Proof.
  unfold merge_results.
  pose proof (place_targets_spec docs config valid_indices embeddings
                (imap pair (embedding_targets docs))
                (O, replicate (length docs) None)) as Ht.
  cbn zeta in Ht.
  destruct (foldl (place_target config valid_indices embeddings)
              (O, replicate (length docs) None)
              (imap pair (embedding_targets docs))) as [ei enhanced1].
  cbn [snd] in Ht.
  destruct Ht as (Hg1 & _ & Hfill1).
  { split; [by rewrite length_replicate|].
    intros i o Hi. apply lookup_replicate in Hi as [[=] _]. }
  { intros [tidx [oidx doc]] Hin. cbn [fst snd].
    apply In_enumerate, list_elem_of_lookup_2, list_elem_of_In in Hin.
    unfold embedding_targets in Hin. apply filter_In in Hin as [Hin _].
    by apply In_enumerate in Hin. }
  pose proof (place_parents_spec docs (non_embedding_chunks config docs)
                enhanced1 Hg1) as Hp.
  cbn zeta in Hp. destruct Hp as (Hg2 & Hkeep2 & Hfill2).
  { intros [i o] Hin. unfold non_embedding_chunks in Hin.
    apply in_map_iff in Hin as ([j doc] & [= <- <-] & Hin).
    apply filter_In in Hin as [Hin _]. apply In_enumerate in Hin.
    exists doc. split; [done | apply agrees_enhance_parent]. }
  set (enhanced2 := foldl place_parent enhanced1
                      (non_embedding_chunks config docs)) in *.
  assert (Hall : forall i, (i < length enhanced2)%nat -> filled enhanced2 i).
  { intros i Hi. destruct Hg2 as [Hlen2 _]. rewrite Hlen2 in Hi.
    apply lookup_lt_is_Some_2 in Hi as [doc Hd].
    destruct (is_target doc) eqn:Htar.
    - apply Hkeep2.
      assert (Hin : In (i, doc) (embedding_targets docs)).
      { apply filter_In. split; [by apply In_enumerate | done]. }
      apply In_enumerate_exists in Hin as [tidx Hin].
      apply (Hfill1 (tidx, (i, doc)) Hin).
    - apply (Hfill2 (i, enhance_parent config doc)).
      unfold non_embedding_chunks. apply in_map_iff.
      exists (i, doc). split; [done|].
      apply filter_In. split; [by apply In_enumerate|].
      cbn [snd]. by rewrite Htar. }
  destruct (compact_filled enhanced2 Hall) as [Hlen Hget].
  destruct Hg2 as [Hlen2 Hok2].
  split; [by rewrite Hlen|].
  intros i doc Hd.
  destruct (Hall i) as [o Ho].
  { rewrite Hlen2. by eapply lookup_lt_Some. }
  exists o. split; [by apply Hget|].
  destruct (Hok2 i o Ho) as (doc' & Hd' & Ha).
  rewrite Hd in Hd'. by injection Hd' as <-.
Qed.

Lemma no_targets_all_parents (docs : list chunk) :
  embedding_targets docs = [] ->
  map snd (non_embedding_chunks config docs) = map (enhance_parent config) docs.
Proof.
  unfold embedding_targets, non_embedding_chunks. intros Hnil.
  assert (Hall : forall d, In d (imap pair docs) -> negb (is_target (snd d)) = true).
  { intros d Hd. destruct (is_target (snd d)) eqn:Ht; [|done].
    assert (Hin : In d (List.filter (fun d => is_target (snd d)) (imap pair docs)))
      by (by apply filter_In).
    by rewrite Hnil in Hin. }
  assert (Hf : List.filter (fun d => negb (is_target (snd d))) (imap pair docs)
               = imap pair docs).
  { clear Hnil. revert Hall. generalize (imap pair docs : list (nat * chunk)).
    induction l as [|d l IH]; intros Hall; [done|].
    cbn [List.filter]. rewrite (Hall d) by (by left).
    f_equal. apply IH. intros d' Hd'. apply Hall. by right. }
  rewrite Hf, map_map. cbn [fst snd].
  apply list_eq. intros i.
  rewrite !list_lookup_fmap, list_lookup_imap. by destruct (docs !! i).
Qed.

(** The function always returns, and its result corresponds to the input
    position by position. *)
Lemma embed_positional (docs : list chunk) (content_key : string) (w : World) :
  exists out w', embed docs content_key w = (Ok out, w') /\ positional docs out.
Proof.
  unfold embed_chunked_documents.
  destruct docs as [|d0 docs0] eqn:Hdocs.
  { exists [], w. split; [done|]. split; [done|]. intros i doc Hi. done. }
  rewrite <- Hdocs. clear Hdocs d0 docs0.
  unfold try_except, embed_body.
  destruct (embedding_targets docs) as [|t ts] eqn:Ht.
  { unfold ret. eexists _, w. split; [done|].
    rewrite no_targets_all_parents by done.
    apply positional_map, agrees_enhance_parent. }
  pose proof (fun e => positional_map
                (fun doc => <["embedding_error" := PStr (match e with Exception msg => u8 msg end)]>
                    (<["embedding_success" := PBool false]>
                    (<["embedding" := PNone]> doc))) docs
                (agrees_mark_failed _)) as Hfail.
  assert (Hmf : forall e, positional docs (mark_failed e docs)).
  { intros [msg]. apply (Hfail (Exception msg)). }
  destruct (valid_texts content_key (t :: ts)) as [[|vt vts]|e].
  - exists docs, w. split; [done|].
    rewrite <- (map_id docs) at 2. apply positional_map, agrees_refl.
  - unfold bind, ret, create_batch_embeddings. cbn [map].
    unfold try_except.
    destruct (aembed_documents (snd vt :: map snd vts) w) as [[embeddings|e] w'].
    + eexists _, w'. split; [done|]. apply merge_results_positional.
    + eexists _, w'. split; [done|]. apply Hmf.
  - eexists _, w. split; [done|]. apply Hmf.
Qed.

(** A chunk without the [is_for_embedding] key is an embedding target. *)
Lemma default_is_target (docs : list chunk) (i : nat) (doc : chunk) :
  docs !! i = Some doc ->
  doc !! "is_for_embedding" = None ->
  In (i, doc) (embedding_targets docs)
  /\ forall o, ~ In (i, o) (non_embedding_chunks config docs).
Proof.
  intros Hd Hkey.
  assert (Ht : is_target doc = true).
  { unfold is_target, dict_get. by rewrite Hkey. }
  split.
  - apply filter_In. split; [by apply In_enumerate | done].
  - intros o Hin. unfold non_embedding_chunks in Hin.
    apply in_map_iff in Hin as ([j doc'] & [= <- _] & Hin).
    apply filter_In in Hin as [Hin Hneg]. apply In_enumerate in Hin.
    cbn [snd] in Hneg. rewrite Hd in Hin. injection Hin as <-.
    by rewrite Ht in Hneg.
Qed.

Lemma targets_from_nil (content_key : string) (off : nat) (docs : list chunk) :
  targets_from off docs = [] <-> existsb is_target docs = false.
Proof.
  revert off. induction docs as [|doc rest IH]; intros off; [done|].
  rewrite targets_from_cons. cbn [existsb].
  destruct (is_target doc); cbn [orb]; [done | apply IH].
Qed.

Lemma no_targets_no_bad (content_key : string) (docs : list chunk) :
  existsb is_target docs = false ->
  first_bad content_key docs = None /\ sent content_key docs = [].
Proof.
  induction docs as [|doc rest IH]; [done|].
  cbn [existsb first_bad]. rewrite sent_cons. unfold text_to_embed.
  destruct (is_target doc); cbn [orb]; [done | apply IH].
Qed.

(** The whole function, case by case. *)
Lemma embed_cases (docs : list chunk) (content_key : string) (w : World) :
  embed docs content_key w
  = if negb (existsb is_target docs)
    then (Ok (map (enhance_parent config) docs), w)
    else match first_bad content_key docs with
         | Some v => (Ok (mark_failed (attribute_error v) docs), w)
         | None =>
           match sent content_key docs with
           | [] => (Ok docs, w)
           | texts =>
             match aembed_documents texts w with
             | (Ok embeddings, w') =>
               (Ok (merged config content_key docs embeddings), w')
             | (Raise e, w') => (Ok (mark_failed e docs), w')
             end
           end
         end.
Proof.
  unfold embed_chunked_documents.
  destruct docs as [|d0 docs0] eqn:Hdocs; [done|].
  rewrite <- Hdocs. clear Hdocs d0 docs0.
  unfold try_except, embed_body.
  destruct (existsb is_target docs) eqn:Hex; cbn [negb].
  - destruct (embedding_targets docs) as [|t ts] eqn:Ht.
    { apply (targets_from_nil content_key 0) in Ht. congruence. }
    rewrite <- Ht. clear Ht t ts.
    destruct (valid_texts content_key (embedding_targets docs))
      as [vts|e] eqn:Hvt.
    + pose proof (merge_results_merged config content_key docs vts) as Hm.
      specialize (fun embeddings => Hm embeddings Hvt).
      destruct (valid_texts_from_spec content_key docs 0 0 vts Hvt)
        as (-> & <- & _ & _).
      destruct vts as [|vt vts]; [done|].
      cbn [map]. unfold bind, ret, create_batch_embeddings, try_except.
      destruct (aembed_documents (snd vt :: map snd vts) w)
        as [[embeddings|e] w']; [|done].
      by rewrite <- Hm.
    + destruct (valid_texts_from_raise content_key docs 0 0 e Hvt)
        as (v & -> & ->).
      done.
  - assert (Ht : embedding_targets docs = [])
      by (by apply (targets_from_nil content_key 0)).
    rewrite Ht. unfold ret. by rewrite no_targets_all_parents.
Qed.

(** The place of a chunk's text among the texts sent: the number of texts
    sent for the chunks before it. *)
Definition sent_index (content_key : string) (docs : list chunk) (i : nat) : nat :=
  length (sent content_key (take i docs)).

Lemma sent_lookup (content_key : string) (docs : list chunk) (i : nat)
    (doc : chunk) (s : text) :
  docs !! i = Some doc -> text_to_embed content_key doc = Some s ->
  sent content_key docs !! sent_index content_key docs i = Some s.
Proof.
  unfold sent_index. revert i. induction docs as [|d rest IH]; intros i Hi Hs;
    [done|].
  destruct i as [|i].
  - cbn in Hi. injection Hi as ->. rewrite sent_cons, Hs. done.
  - cbn in Hi. cbn [take]. rewrite !sent_cons.
    destruct (text_to_embed content_key d); cbn [length lookup]; by apply IH.
Qed.

Ltac step_lookup :=
  repeat match goal with
         | |- context [(?x :: ?l) !! S ?i] =>
           change ((x :: l) !! S i) with (l !! i)
         end.

Lemma merged_lookup (content_key : string) (docs : list chunk)
    (embeddings : list vector) (i : nat) (doc : chunk) :
  docs !! i = Some doc ->
  merged config content_key docs embeddings !! i
  = Some (if is_target doc
          then match text_to_embed content_key doc,
                     embeddings !! sent_index content_key docs i with
               | Some _, Some v => enhance_embedded config doc v
               | _, _ => enhance_failed doc
               end
          else enhance_parent config doc).
Proof.
  unfold sent_index. revert i embeddings.
  induction docs as [|d rest IH]; intros i embeddings Hi; [done|].
  destruct i as [|i].
  - cbn in Hi. injection Hi as ->. cbn [merged take sent omap length].
    destruct (is_target doc); [|done].
    by destruct (text_to_embed content_key doc), embeddings.
  - cbn in Hi. cbn [merged take]. rewrite sent_cons.
    destruct (is_target d) eqn:Hd.
    + destruct (text_to_embed content_key d) as [s|] eqn:Hs.
      * destruct embeddings as [|v vs]; cbn [length]; step_lookup.
        -- rewrite (IH i [] Hi). rewrite !lookup_nil. done.
        -- by rewrite (IH i vs Hi).
      * step_lookup. by rewrite (IH i embeddings Hi).
    + assert (Hs : text_to_embed content_key d = None)
        by (unfold text_to_embed; by rewrite Hd).
      rewrite Hs. step_lookup. by rewrite (IH i embeddings Hi).
Qed.

(** C9 (as the code has it).  [embed_chunked_documents] always returns a
    list with one entry per input chunk, in input order, each entry being
    its input chunk with at most the embedding keys rewritten.  The
    embedding targets are the chunks whose [is_for_embedding] flag is
    absent or true.  With no target every chunk is marked as a parent and
    nothing is sent.  If the content of a target is not a string, nothing
    is sent and every chunk is marked failed with the [AttributeError] of
    the first such content.  If the contents are strings and all blank the
    input list is returned as it is.  Otherwise exactly the non-blank
    texts of the targets are sent, in chunk order, in one batch call; if
    the call raises, every chunk is marked failed; if it returns, the
    result is [merged].  A chunk without the flag is a target: its
    non-blank text is sent at position [sent_index], and its entry holds
    the vector returned at that position (it is marked failed with a null
    vector when its text is blank or no vector is left). *)
Theorem embed_chunked_documents_positional_default
    (docs : list chunk) (content_key : string) (w : World) :
  (exists out w',
      embed docs content_key w = (Ok out, w') /\ positional docs out)
  /\ (existsb is_target docs = false ->
      embed docs content_key w = (Ok (map (enhance_parent config) docs), w))
  /\ (forall v, first_bad content_key docs = Some v ->
      embed docs content_key w
      = (Ok (mark_failed (attribute_error v) docs), w))
  /\ (existsb is_target docs = true ->
      first_bad content_key docs = None ->
      sent content_key docs = [] ->
      embed docs content_key w = (Ok docs, w))
  /\ (first_bad content_key docs = None ->
      sent content_key docs <> [] ->
      embed docs content_key w
      = match aembed_documents (sent content_key docs) w with
        | (Ok embeddings, w') =>
          (Ok (merged config content_key docs embeddings), w')
        | (Raise e, w') => (Ok (mark_failed e docs), w')
        end)
  /\ forall (i : nat) (doc : chunk),
       docs !! i = Some doc ->
       doc !! "is_for_embedding" = None ->
       let j := sent_index content_key docs i in
       is_target doc = true
       /\ (forall s, content_of content_key doc = PStr s -> nonblank s = true ->
           sent content_key docs !! j = Some s)
       /\ forall embeddings,
            merged config content_key docs embeddings !! i
            = Some match text_to_embed content_key doc, embeddings !! j with
                   | Some _, Some v => enhance_embedded config doc v
                   | _, _ => enhance_failed doc
                   end.
Proof.
  split; [apply embed_positional|].
  rewrite embed_cases.
  split; [by intros ->|].
  split.
  { intros v Hbad.
    destruct (existsb is_target docs) eqn:Hex; cbn [negb]; [by rewrite Hbad|].
    destruct (no_targets_no_bad content_key docs Hex) as [Hb _]. congruence. }
  split; [by intros -> -> ->|].
  split.
  { intros Hbad Hsent.
    destruct (existsb is_target docs) eqn:Hex; cbn [negb].
    - rewrite Hbad. by destruct (sent content_key docs).
    - by destruct (no_targets_no_bad content_key docs Hex). }
  intros i doc Hd Hkey j.
  assert (Ht : is_target doc = true).
  { unfold is_target, dict_get. by rewrite Hkey. }
  split; [exact Ht|]. split.
  - intros s Hs Hnb. apply (sent_lookup content_key docs i doc s Hd).
    unfold text_to_embed. by rewrite Ht, Hs, Hnb.
  - intros embeddings. rewrite (merged_lookup content_key docs embeddings i doc Hd).
    by rewrite Ht.
Qed.

End ServiceFacts.

(** A stand-in embedding model that records the batches it is sent and
    returns one fixed vector per text. *)
Definition recording_model (texts : list text)
    : M (list (list text)) (list vector) :=
  fun w => (Ok (map (fun _ => [1 # 2; 1 # 2]%Q) texts), w ++ [texts]).

(** The list a call returned, empty if it raised. *)
Definition returned (o : outcome (list chunk)) : list chunk :=
  match o with
  | Ok out => out
  | Raise _ => []
  end.

Definition keyless (content : pyval) : chunk :=
  <["chunk_type" := PStr (u8 "child")]> (<["content" := content]> ∅).

Definition flagged_parent (content : pyval) : chunk :=
  <["is_for_embedding" := PBool false]>
  (<["chunk_type" := PStr (u8 "parent")]> (<["content" := content]> ∅)).

Lemma embed_chunked_documents_positional_default_witness :
  let docs := [flagged_parent (PStr (u8 "whole section"));
               keyless (PStr (u8 "abc")); keyless (PStr (u8 "def"))] in
  embed_chunked_documents _ recording_model default_config docs "content" []
  = (Ok (merged default_config "content" docs [[1 # 2; 1 # 2]; [1 # 2; 1 # 2]]%Q),
     [[u8 "abc"; u8 "def"]])
  /\ merged default_config "content" docs [[1 # 2; 1 # 2]; [1 # 2; 1 # 2]]%Q
       !! 2%nat
     = Some (enhance_embedded default_config (keyless (PStr (u8 "def")))
               [1 # 2; 1 # 2]%Q).
Proof.
  intros docs.
  destruct (embed_chunked_documents_positional_default _ recording_model
              default_config docs "content" [])
    as (_ & _ & _ & _ & Hcall & Hkeyless).
  split.
  - rewrite Hcall; [reflexivity | reflexivity | discriminate].
  - destruct (Hkeyless 2%nat (keyless (PStr (u8 "def"))) eq_refl eq_refl)
      as (_ & _ & Hentry).
    apply (Hentry [[1 # 2; 1 # 2]; [1 # 2; 1 # 2]]%Q).
Defined.

(** C9 (as worded) fails for blank and for missing content: a chunk
    without the [is_for_embedding] key whose content is blank is not sent
    to the batch embedding call and comes back with a null vector; and
    when the content of such a chunk is [None] nothing at all is sent and
    every chunk comes back with a null vector and the error text. *)
Lemma blank_default_chunk_counterexample :
  let docs := [keyless (PStr (u8 "abc")); keyless (PStr (u8 "   "))] in
  let run := embed_chunked_documents _ recording_model default_config
               docs "content" [] in
  let docs' := [keyless (PStr (u8 "abc")); keyless PNone] in
  let run' := embed_chunked_documents _ recording_model default_config
                docs' "content" [] in
  keyless (PStr (u8 "   ")) !! "is_for_embedding" = None
  /\ snd run = [[u8 "abc"]]
  /\ length (returned (fst run)) = 2%nat
  /\ returned (fst run) !! 1%nat ≫= (fun o => o !! "embedding") = Some PNone
  /\ returned (fst run) !! 0%nat ≫= (fun o => o !! "embedding")
     = Some (vector_val [1 # 2; 1 # 2]%Q)
  /\ snd run' = []
  /\ returned (fst run') !! 0%nat ≫= (fun o => o !! "embedding") = Some PNone
  /\ returned (fst run') !! 0%nat ≫= (fun o => o !! "embedding_error")
     = Some (PStr (u8 "'NoneType' object has no attribute 'strip'")).
Proof. cbv zeta. repeat split; vm_compute; reflexivity. Qed.

End Embedding.

(** * A JSON decoder

    [json.loads] is library code and enters the pipeline as a parameter.
    [Json.loads] is an executable stand-in for the closed examples: a
    recursive-descent decoder of the JSON grammar that returns [None] where
    [json.loads] raises [JSONDecodeError]; the examples hold no integer
    literal near the digit limit of [int], beyond which [json.loads]
    raises [ValueError].  Object keys are stored as their
    UTF-8 bytes; a later duplicate key replaces an earlier one.  The
    literals NaN and Infinity, which have no rational value, are rejected. *)

Module Json.

Definition byte_ascii (n : N) : ascii := ascii_of_N n.

(** UTF-8 bytes of one code point. *)
Definition encode_cp (c : cp) : list ascii :=
  if (c <? 128)%N then [byte_ascii c]
  else if (c <? 2048)%N then
    [byte_ascii (192 + c / 64); byte_ascii (128 + c mod 64)]
  else if (c <? 65536)%N then
    [byte_ascii (224 + c / 4096); byte_ascii (128 + (c / 64) mod 64);
     byte_ascii (128 + c mod 64)]
  else
    [byte_ascii (240 + c / 262144); byte_ascii (128 + (c / 4096) mod 64);
     byte_ascii (128 + (c / 64) mod 64); byte_ascii (128 + c mod 64)].

Definition utf8_encode (s : text) : string :=
  string_of_list_ascii (concat (map encode_cp s)).

Definition is_ws (c : cp) : bool :=
  ((c =? 32) || (c =? 9) || (c =? 10) || (c =? 13))%N.

Fixpoint skip_ws (s : text) : text :=
  match s with
  | c :: s' => if is_ws c then skip_ws s' else s
  | [] => []
  end.

Definition is_digit (c : cp) : bool := ((48 <=? c) && (c <=? 57))%N.

Definition hex_value (c : cp) : option N :=
  if ((48 <=? c) && (c <=? 57))%N then Some (c - 48)%N
  else if ((97 <=? c) && (c <=? 102))%N then Some (c - 87)%N
  else if ((65 <=? c) && (c <=? 70))%N then Some (c - 55)%N
  else None.

Definition hex4 (s : text) : option (N * text) :=
  match s with
  | a :: b :: c :: d :: rest =>
    match hex_value a, hex_value b, hex_value c, hex_value d with
    | Some x, Some y, Some z, Some u =>
      Some (x * 4096 + y * 256 + z * 16 + u, rest)%N
    | _, _, _, _ => None
    end
  | _ => None
  end.

(** The body of a string literal, after the opening quote. *)
Fixpoint string_body (fuel : nat) (acc : text) (s : text) : option (text * text) :=
  match fuel with
  | O => None
  | S fuel =>
    match s with
    | [] => None
    | 34%N :: rest => Some (reverse acc, rest)
    | 92%N :: e :: rest =>
      if (e =? 117)%N then
        match hex4 rest with
        | Some (hi, rest') =>
          if ((55296 <=? hi) && (hi <=? 56319))%N then
            match rest' with
            | 92%N :: 117%N :: rest'' =>
              match hex4 rest'' with
              | Some (lo, rest3) =>
                if ((56320 <=? lo) && (lo <=? 57343))%N
                then string_body fuel
                       ((65536 + (hi - 55296) * 1024 + (lo - 56320))%N :: acc) rest3
                else string_body fuel (hi :: acc) rest'
              | None => None
              end
            | _ => string_body fuel (hi :: acc) rest'
            end
          else string_body fuel (hi :: acc) rest'
        | None => None
        end
      else
        let plain :=
          if (e =? 34)%N then Some 34%N
          else if (e =? 92)%N then Some 92%N
          else if (e =? 47)%N then Some 47%N
          else if (e =? 98)%N then Some 8%N
          else if (e =? 102)%N then Some 12%N
          else if (e =? 110)%N then Some 10%N
          else if (e =? 114)%N then Some 13%N
          else if (e =? 116)%N then Some 9%N
          else None in
        match plain with
        | Some c => string_body fuel (c :: acc) rest
        | None => None
        end
    | c :: rest =>
      if (c <? 32)%N then None else string_body fuel (c :: acc) rest
    end
  end.

Fixpoint take_digits (s : text) : text * text :=
  match s with
  | c :: s' =>
    if is_digit c then let '(ds, r) := take_digits s' in (c :: ds, r)
    else ([], s)
  | [] => ([], [])
  end.

Definition digits_value (ds : text) : Z :=
  foldl (fun acc c => acc * 10 + Z.of_N (c - 48)) 0 ds.

(** A number literal: an integer, or a fraction and exponent as a rational. *)
Definition number (s : text) : option (pyval * text) :=
  let '(neg, s1) :=
    match s with
    | 45%N :: r => (true, r)
    | _ => (false, s)
    end in
  let '(int_ds, s2) := take_digits s1 in
  match int_ds with
  | [] => None
  | d0 :: more =>
    if (d0 =? 48)%N && negb (match more with [] => true | _ => false end)
    then
      (* a leading zero ends the integer part: "01" is 0 followed by data *)
      Some (PInt 0, more ++ s2)
    else
      let sign := if neg then (-1) else 1 in
      let ival := digits_value int_ds in
      let '(frac, s3) :=
        match s2 with
        | 46%N :: r =>
          let '(fds, r') := take_digits r in
          match fds with
          | [] => (None, s2)
          | _ => (Some fds, r')
          end
        | _ => (None, s2)
        end in
      let '(expo, s4) :=
        match s3 with
        | e :: r =>
          if ((e =? 101) || (e =? 69))%N then
            let '(eneg, r1) :=
              match r with
              | 45%N :: r' => (true, r')
              | 43%N :: r' => (false, r')
              | _ => (false, r)
              end in
            let '(eds, r2) := take_digits r1 in
            match eds with
            | [] => (None, s3)
            | _ => (Some (if eneg then - digits_value eds else digits_value eds), r2)
            end
          else (None, s3)
        | [] => (None, s3)
        end in
      match frac, expo with
      | None, None => Some (PInt (sign * ival), s4)
      | _, _ =>
        let fds := match frac with Some f => f | None => [] end in
        let mant := (sign * (ival * 10 ^ Z.of_nat (length fds) + digits_value fds)) in
        let scale := Z.of_nat (length fds) - match expo with Some e => e | None => 0 end in
        let q :=
          if 0 <=? scale
          then Qmake mant (Z.to_pos (10 ^ scale))
          else Qmake (mant * 10 ^ (- scale)) 1 in
        Some (PFloat q, s4)
      end
  end.

Fixpoint value (fuel : nat) (s : text) {struct fuel} : option (pyval * text) :=
  match fuel with
  | O => None
  | S fuel =>
    match s with
    | 123%N :: r =>
      match skip_ws r with
      | 125%N :: r' => Some (PDict ∅, r')
      | r' => members fuel ∅ r'
      end
    | 91%N :: r =>
      match skip_ws r with
      | 93%N :: r' => Some (PList [], r')
      | r' => elements fuel [] r'
      end
    | 34%N :: r =>
      match string_body (S (length r)) [] r with
      | Some (str, r') => Some (PStr str, r')
      | None => None
      end
    | 116%N :: 114%N :: 117%N :: 101%N :: r => Some (PBool true, r)
    | 102%N :: 97%N :: 108%N :: 115%N :: 101%N :: r => Some (PBool false, r)
    | 110%N :: 117%N :: 108%N :: 108%N :: r => Some (PNone, r)
    | _ => number s
    end
  end
with elements (fuel : nat) (acc : list pyval) (s : text) {struct fuel}
    : option (pyval * text) :=
  match fuel with
  | O => None
  | S fuel =>
    match value fuel s with
    | Some (v, r) =>
      match skip_ws r with
      | 44%N :: r' => elements fuel (v :: acc) (skip_ws r')
      | 93%N :: r' => Some (PList (reverse (v :: acc)), r')
      | _ => None
      end
    | None => None
    end
  end
with members (fuel : nat) (acc : gmap string pyval) (s : text) {struct fuel}
    : option (pyval * text) :=
  match fuel with
  | O => None
  | S fuel =>
    match s with
    | 34%N :: r =>
      match string_body (S (length r)) [] r with
      | Some (key, r1) =>
        match skip_ws r1 with
        | 58%N :: r2 =>
          match value fuel (skip_ws r2) with
          | Some (v, r3) =>
            let acc' := <[utf8_encode key := v]> acc in
            match skip_ws r3 with
            | 44%N :: r4 => members fuel acc' (skip_ws r4)
            | 125%N :: r4 => Some (PDict acc', r4)
            | _ => None
            end
          | None => None
          end
        | _ => None
        end
      | None => None
      end
    | _ => None
    end
  end.

(** [json.loads(s)]: one value, surrounded by optional whitespace only. *)
Definition loads (s : text) : option pyval :=
  match value (4 * length s + 8) (skip_ws s) with
  | Some (v, r) =>
    match skip_ws r with
    | [] => Some v
    | _ => None
    end
  | None => None
  end.

End Json.

(** * [src/documents/base_service.py]: the JSON extraction of the document
      analysis, the sibling of the chain's extraction *)

Module BaseService.
Import Text Regex.

(** [r"```json\s*(.*?)\s*```"] with [re.DOTALL]; group 1 is atom number 8. *)
Definition fenced_pattern : pattern :=
  lit (u8 "```json")
    ++ [Atom is_space Star; Atom any_char LazyStar; Atom is_space Star]
    ++ lit (u8 "```").

(** [r"\{.*\}"] with [re.DOTALL] *)
Definition bare_object_pattern : pattern :=
  [chr 123%N; Atom any_char Star; chr 125%N].

Fixpoint find (c : cp) (s : text) : option nat :=
  match s with
  | [] => None
  | x :: s' => if (x =? c)%N then Some O else S <$> find c s'
  end.

Definition rfind (c : cp) (s : text) : option nat :=
  (fun i => (length s - 1 - i)%nat) <$> find c (reverse s).

(** The text handed to [json.loads]; [None] where the code raises
    [JSONDecodeError] itself. *)
Definition json_content (llm_response : text) : option text :=
  let response_text := strip llm_response in
  match re_search fenced_pattern response_text with
  | Some (_, pieces, _) => Some (strip (group 8 1 pieces))
  | None =>
    match re_search bare_object_pattern response_text with
    | Some (_, pieces, _) => Some (concat pieces)
    | None =>
      match find 123%N response_text, rfind 125%N response_text with
      | Some start, Some last =>
        Some (take (S last - start) (drop start response_text))
      | _, _ => None
      end
    end
  end.

End BaseService.

(** * [rag_pipeline.py]: the three-stage violation chain and the section
      splitters *)

Module RagPipeline.
Import Text Regex.

Abbreviation dict := (gmap string pyval).

Definition je : cp := 51228%N.   (* 제 *)
Definition jo : cp := 51312%N.   (* 조 *)

(** [r'```json\s*(\{.*?\})\s*```'] with [re.DOTALL]; group 1 is made of the
    atoms number 8, 9 and 10. *)
Definition fenced_json_pattern : pattern :=
  lit (u8 "```json")
    ++ [Atom is_space Star; chr 123%N; Atom any_char LazyStar; chr 125%N;
        Atom is_space Star]
    ++ lit (u8 "```").

(** The "JSON 추출" step shared by stages 1 and 3. *)
Definition extract_json (response_text : text) : text :=
  match re_search fenced_json_pattern response_text with
  | Some (_, pieces, _) => group 8 3 pieces
  | None => strip response_text
  end.

(** The text sent to the LLM: the interpolated values of the two prompt
    templates (the fixed instructions are left out). *)
Inductive prompt : Type :=
| Chain1Prompt (document_name : text) (total_clauses : nat) (full_contract : text)
| Chain3Prompt (clause_number clause_title risk_type brief_reason laws_text : text).

(** The dictionary returned by [_chain3_detailed_analysis];
    [contract_analysis] holds the document name and [total_violations]
    (the analysis date is left out). *)
Record chain3_result : Type := {
  contract_analysis : option (text * nat);
  violations : list pyval;
}.

(** [len(v)] *)
Definition py_len (v : pyval) : outcome nat :=
  match v with
  | PStr s => Ok (length s)
  | PList l => Ok (length l)
  | PDict d => Ok (size d)
  | _ => Raise (Exception "TypeError: object has no len()")
  end.

Definition outcome_bind {A B} (o : outcome A) (k : A -> outcome B) : outcome B :=
  match o with
  | Ok a => k a
  | Raise e => Raise e
  end.

Fixpoint outcome_map {A B} (f : A -> outcome B) (l : list A) : outcome (list B) :=
  match l with
  | [] => Ok []
  | x :: xs =>
    outcome_bind (f x) (fun y =>
    outcome_bind (outcome_map f xs) (fun ys => Ok (y :: ys)))
  end.

(** A pure step inside a computation. *)
Definition lift {W A} (o : outcome A) : M W A := fun w => (o, w).

(** The default of [sys.get_int_max_str_digits()]: [int] refuses a
    decimal string with more digits than this. *)
Definition int_max_str_digits : nat := 4300.

Section Chain.
Variable World : Type.
(** [json.loads]: [Ok None] stands for [JSONDecodeError]; [Raise] is any
    other exception of the decoder ([ValueError] on an integer literal
    beyond the digit limit of [int], [RecursionError]). *)
Variable json_loads : text -> outcome (option pyval).
(** The value of a Unicode decimal digit: the class [\d] and [int()]. *)
Variable decimal_value : cp -> option Z.
(** [str(v)] of a value that is not a string, as f-strings render it. *)
Variable py_repr : pyval -> text.
(** [format(v, ".3f")], raising on a value that is not a number. *)
Variable format_3f : pyval -> outcome text.
(** [BedrockService().invoke_model(prompt, ...)] followed by
    [response.get("text", "")]; the service raises [Exception] on any
    failure of the API call. *)
Variable invoke_model : prompt -> M World text.
(** [self.client.search_documents_direct(query, top_k=3, doc_types=["law"])]
    as awaited by the task number [i] of the gather. *)
Variable search_documents_direct : nat -> text -> outcome dict.

Local Open Scope py_scope.

Definition py_str (v : pyval) : text :=
  match v with
  | PStr s => s
  | _ => py_repr v
  end.

Definition is_decimal (c : cp) : bool :=
  match decimal_value c with
  | Some _ => true
  | None => false
  end.

(** The number a run of decimal digits denotes. *)
Definition int_value (digits : text) : Z :=
  foldl (fun acc c => acc * 10 + default 0 (decimal_value c)) 0 digits.

(** [int(digits)] on a run of decimal digits: [ValueError] beyond
    [int_max_str_digits] digits. *)
Definition int_of (digits : text) : outcome Z :=
  if (int_max_str_digits <? length digits)%nat
  then Raise (Exception
         "ValueError: Exceeds the limit (4300 digits) for integer string conversion")
  else Ok (int_value digits).

(** ** Stage 1 *)

(** [v[:n] + "..." if len(v) > n else v], then rendered in an f-string. *)
Definition preview (n : nat) (v : pyval) : outcome text :=
  match v with
  | PStr s => Ok (if (n <? length s)%nat then take n s ++ u8 "..." else s)
  | PList l =>
    if (n <? length l)%nat
    then Raise (Exception "TypeError: can only concatenate list to list")
    else Ok (py_repr v)
  | PDict d =>
    if (n <? size d)%nat
    then Raise (Exception "TypeError: unhashable type: 'slice'")
    else Ok (py_repr v)
  | _ => Raise (Exception "TypeError: object has no len()")
  end.

(** One entry of [contract_structure]; [i] counts from 1. *)
Definition contract_line (i : nat) (chunk : dict) : outcome text :=
  let title := dict_get chunk "header_1" (PStr (u8 "조항 " ++ Chunking.str_int i)) in
  outcome_bind (preview 200 (dict_get chunk "content" (PStr []))) (fun content =>
  match title with
  | PStr t =>
    if startswith [je] t && contains [jo] t
    then Ok (t ++ u8 ": " ++ content)
    else Ok ([je] ++ Chunking.str_int i ++ [jo] ++ u8 " " ++ t ++ u8 ": " ++ content)
  | _ => Raise (Exception "AttributeError: object has no attribute 'startswith'")
  end).

Definition chain1_prompt (document_name : text) (all_chunks : list dict)
    : outcome prompt :=
  outcome_bind
    (outcome_map (fun ic => contract_line (S (fst ic)) (snd ic)) (imap pair all_chunks))
    (fun lines =>
       Ok (Chain1Prompt document_name (length all_chunks)
             (join (u8 "

") lines))).

(** [r'제(\d+)조'] *)
Definition clause_number_pattern : pattern :=
  [chr je; Atom is_decimal Plus; chr jo].

(** The zero-based index read from a clause locator. *)
Definition resolve_chunk_index (clause_num : text) : outcome Z :=
  match re_search clause_number_pattern clause_num with
  | Some (_, pieces, _) =>
    outcome_bind (int_of (group 1 1 pieces)) (fun n => Ok (n - 1))
  | None => Ok 0
  end.

(** One iteration of the loop over [violations]. *)
Definition assign_chunk_index (violation : pyval) : outcome dict :=
  match violation with
  | PDict d =>
    match dict_get d "clause_number" (PStr []) with
    | PStr clause_num =>
      outcome_bind (resolve_chunk_index clause_num) (fun chunk_index =>
      Ok (<["chunk_index" := PInt chunk_index]> d))
    | _ => Raise (Exception "TypeError: expected string or bytes-like object")
    end
  | _ => Raise (Exception "AttributeError: object has no attribute 'get'")
  end.

(** What happens to the response text inside the inner [try]: [Ok] is the
    returned list, [Raise] an exception other than [JSONDecodeError],
    which reaches the outer handler. *)
Definition chain1_parse (response_text : text) : outcome (list dict) :=
  match json_loads (extract_json response_text) with
  | Raise e => Raise e
  | Ok None => Ok []
  | Ok (Some (PDict result)) =>
    match dict_get result "violations" (PList []) with
    | PList violations => outcome_map assign_chunk_index violations
    | PStr [] => Ok []
    | PStr (_ :: _) => Raise (Exception "AttributeError: 'str' object has no attribute 'get'")
    | PDict d =>
      if bool_decide (size d = 0%nat) then Ok []
      else Raise (Exception "AttributeError: 'str' object has no attribute 'get'")
    | _ => Raise (Exception "TypeError: object is not iterable")
    end
  | Ok (Some _) => Raise (Exception "AttributeError: object has no attribute 'get'")
  end.

(** [_chain1_identify_violations(document_name, all_chunks, document_id)] *)
Definition _chain1_identify_violations (document_name : text)
    (all_chunks : list dict) : M World (list dict) :=
  try_except
    (let! p := lift (chain1_prompt document_name all_chunks) in
     let! response_text := invoke_model p in
     lift (chain1_parse response_text))
    (fun _ => ret []).

(** ** Stage 2 *)

Definition search_query (violation : dict) : text :=
  py_str (dict_get violation "clause_title" (PStr []))
    ++ u8 " " ++ py_str (dict_get violation "brief_reason" (PStr [])).

Definition no_laws (violation : dict) : dict :=
  <["laws_found" := PInt 0]> (<["related_laws" := PList []]> violation).

(** [_search_laws_for_violation(violation, search_query)] as the task
    number [i]. *)
Definition _search_laws_for_violation (i : nat) (violation : dict)
    (query : text) : outcome dict :=
  match
    outcome_bind (search_documents_direct i query) (fun legal_docs =>
    let results := dict_get legal_docs "results" (PList []) in
    outcome_bind (py_len results) (fun n =>
    Ok (<["laws_found" := PInt (Z.of_nat n)]>
        (<["related_laws" := results]> violation))))
  with
  | Ok violation_with_laws => Ok violation_with_laws
  | Raise _ => Ok (no_laws violation)
  end.

(** [_chain2_search_related_laws(violation_candidates)]: the results of
    the gather, in task order, without those that are exceptions. *)
Definition _chain2_search_related_laws (violation_candidates : list dict)
    : list dict :=
  let results :=
    imap (fun i violation =>
            _search_laws_for_violation i violation (search_query violation))
         violation_candidates in
  omap (fun r => match r with Ok d => Some d | Raise _ => None end) results.

(** ** Stage 3 *)

(** [law.get('filename', '').replace('.pdf', '')] *)
Definition law_filename (law : pyval) : outcome text :=
  match law with
  | PDict d =>
    match dict_get d "filename" (PStr []) with
    | PStr s => Ok (remove_all (u8 ".pdf") s)
    | _ => Raise (Exception "AttributeError: object has no attribute 'replace'")
    end
  | _ => Raise (Exception "AttributeError: object has no attribute 'get'")
  end.

(** One entry of [law_descriptions]; [i] counts from 1. *)
Definition law_description (i : nat) (law : pyval) : outcome text :=
  outcome_bind (law_filename law) (fun filename =>
  match law with
  | PDict d =>
    outcome_bind (preview 300 (dict_get d "content" (PStr []))) (fun content =>
    outcome_bind (format_3f (dict_get d "similarity_score" (PInt 0))) (fun sim =>
    Ok (Chunking.str_int i ++ u8 ". " ++ filename ++ u8 " (유사도: " ++ sim
          ++ u8 ")" ++ [10%N] ++ content)))
  | _ => Raise (Exception "AttributeError: object has no attribute 'get'")
  end).

Definition laws_text (related_laws : pyval) : outcome text :=
  if truthy related_laws then
    match related_laws with
    | PList l =>
      outcome_bind
        (outcome_map (fun il => law_description (S (fst il)) (snd il)) (imap pair l))
        (fun descriptions => Ok (join (u8 "

") descriptions))
    | _ => Raise (Exception "TypeError: not a list of law dictionaries")
    end
  else Ok (u8 "관련 법령을 찾을 수 없습니다.").

(** [[law.get('filename', '').replace('.pdf', '') for law in related_laws[:2]]] *)
Definition cited_laws (related_laws : pyval) : outcome (list text) :=
  match related_laws with
  | PList l => outcome_map law_filename (take 2 l)
  | PStr [] => Ok []
  | _ => Raise (Exception "TypeError: not a list of law dictionaries")
  end.

(** The substitute built in the [except json.JSONDecodeError] branch. *)
Definition fallback_verdict (violation_data : dict) (cited : list text) : dict :=
  let clause_title := dict_get violation_data "clause_title" (PStr []) in
  let clause_number := dict_get violation_data "clause_number" (PStr []) in
  let risk_type := dict_get violation_data "risk_type" (PStr []) in
  let brief_reason := dict_get violation_data "brief_reason" (PStr []) in
  <["관련_법령" := PList (map PStr cited)]>
  (<["의견" := PStr (u8 "상세 분석 실패로 인해 기본 정보만 제공")]>
  (<["판단_근거" := brief_reason]>
  (<["리스크_유형" := risk_type]>
  (<["조항_위치" := PStr (py_str clause_number ++ u8 " (" ++ py_str clause_title ++ u8 ")")]>
   ∅)))).

Definition chain3_prompt (violation_data : dict) : outcome prompt :=
  outcome_bind (laws_text (dict_get violation_data "related_laws" (PList [])))
    (fun lt =>
       Ok (Chain3Prompt
             (py_str (dict_get violation_data "clause_number" (PStr [])))
             (py_str (dict_get violation_data "clause_title" (PStr [])))
             (py_str (dict_get violation_data "risk_type" (PStr [])))
             (py_str (dict_get violation_data "brief_reason" (PStr [])))
             lt)).

(** The verdict for a response text: the parsed object, or the fallback. *)
Definition verdict_of (violation_data : dict) (response_text : text)
    : outcome pyval :=
  match json_loads (extract_json response_text) with
  | Raise e => Raise e
  | Ok (Some detailed_analysis) => Ok detailed_analysis
  | Ok None =>
    outcome_bind
      (cited_laws (dict_get violation_data "related_laws" (PList [])))
      (fun cited => Ok (PDict (fallback_verdict violation_data cited)))
  end.

(** One iteration of the loop over [violations_with_laws]: the entry
    appended to [final_violations], or [None] when the per-candidate
    handler ends the iteration with [continue]. *)
Definition analyse_candidate (violation_data : dict) : M World (option pyval) :=
  try_except
    (let! p := lift (chain3_prompt violation_data) in
     let! response_text := invoke_model p in
     let! verdict := lift (verdict_of violation_data response_text) in
     ret (Some verdict))
    (fun _ => ret None).

Fixpoint analyse_all (candidates : list dict) : M World (list pyval) :=
  match candidates with
  | [] => ret []
  | v :: rest =>
    let! entry := analyse_candidate v in
    let! entries := analyse_all rest in
    ret (match entry with
         | Some verdict => verdict :: entries
         | None => entries
         end)
  end.

(** [_chain3_detailed_analysis(violations_with_laws, document_name)] *)
Definition _chain3_detailed_analysis (violations_with_laws : list dict)
    (document_name : text) : M World chain3_result :=
  try_except
    (match violations_with_laws with
     | [] => ret {| contract_analysis := None; violations := [] |}
     | _ =>
       let! final_violations := analyse_all violations_with_laws in
       ret {| contract_analysis := Some (document_name, length final_violations);
              violations := final_violations |}
     end)
    (fun _ => ret {| contract_analysis := None; violations := [] |}).

End Chain.

(** ** The section splitters *)

Section Sections.
(** The regex class [\d]. *)
Variable is_decimal : cp -> bool.

(** [r'^제\s*\d+\s*조'] *)
Definition clause_line_pattern : pattern :=
  [chr je; Atom is_space Star; Atom is_decimal Plus; Atom is_space Star; chr jo].

















End Sections.

(** ** Stage 2: every candidate comes back, with its own evidence *)

Section Chain2Facts.
Variable py_repr : pyval -> text.

Local Abbreviation search_one := (_search_laws_for_violation).
Local Abbreviation chain2 := (_chain2_search_related_laws py_repr).
Local Abbreviation query := (search_query py_repr).

(** The augmented candidate of task [i]. *)
Definition augmented (search : nat -> text -> outcome dict) (i : nat)
    (violation : dict) : dict :=
  match search_one search i violation (query violation) with
  | Ok d => d
  | Raise _ => no_laws violation
  end.

Lemma search_one_returns (search : nat -> text -> outcome dict) (i : nat)
    (violation : dict) (q : text) :
  exists d, search_one search i violation q = Ok d.
Proof.
  unfold _search_laws_for_violation.
  destruct (outcome_bind _ _); by eexists.
Qed.

Lemma omap_imap_ok {A B} (f : nat -> A -> outcome B) (g : nat -> A -> B)
    (l : list A) :
  (forall i x, f i x = Ok (g i x)) ->
  omap (fun r => match r with Ok d => Some d | Raise _ => None end) (imap f l)
  = imap g l.
Proof.
  revert f g. induction l as [|x l IH]; intros f g Hfg; [done|].
  cbn [imap].
  change (omap ?h (f O x :: ?t)) with
    (match h (f O x) with Some y => y :: omap h t | None => omap h t end).
  rewrite Hfg. f_equal. apply IH. intros i y. apply Hfg.
Qed.

Lemma chain2_imap (search : nat -> text -> outcome dict) (cands : list dict) :
  chain2 search cands = imap (augmented search) cands.
Proof.
  unfold _chain2_search_related_laws. apply omap_imap_ok.
  intros i v. unfold augmented.
  by destruct (search_one_returns search i v (query v)) as [d ->].
Qed.

Lemma augmented_spec (search : nat -> text -> outcome dict) (i : nat) (v : dict) :
  exists laws n,
    augmented search i v !! "related_laws" = Some laws
    /\ augmented search i v !! "laws_found" = Some (PInt (Z.of_nat n))
    /\ py_len laws = Ok n
    /\ (forall k : string, k <> "related_laws"%string -> k <> "laws_found"%string ->
          augmented search i v !! k = v !! k)
    /\ (forall e, search i (query v) = Raise e -> laws = PList [] /\ n = O)
    /\ (forall legal_docs m,
          search i (query v) = Ok legal_docs ->
          py_len (dict_get legal_docs "results" (PList [])) = Ok m ->
          laws = dict_get legal_docs "results" (PList []) /\ n = m).
Proof.
  unfold augmented, _search_laws_for_violation.
  destruct (search i (query v)) as [legal_docs|e] eqn:Hs; cbn [outcome_bind].
  - destruct (py_len (dict_get legal_docs "results" (PList []))) as [m|e] eqn:Hl;
      cbn [outcome_bind].
    + exists (dict_get legal_docs "results" (PList [])), m.
      split; [by rewrite lookup_insert_ne, lookup_insert_eq|].
      split; [by rewrite lookup_insert_eq|].
      split; [done|]. split.
      { intros k H1 H2. by rewrite !lookup_insert_ne. }
      split; [done|]. intros ? ? [= <-] Hm. rewrite Hl in Hm. by injection Hm.
    + exists (PList []), O. unfold no_laws.
      split; [by rewrite lookup_insert_ne, lookup_insert_eq|].
      split; [by rewrite lookup_insert_eq|].
      split; [done|]. split.
      { intros k H1 H2. by rewrite !lookup_insert_ne. }
      split; [done|]. intros ? ? [= <-] Hm. by rewrite Hl in Hm.
  - exists (PList []), O. unfold no_laws.
    split; [by rewrite lookup_insert_ne, lookup_insert_eq|].
    split; [by rewrite lookup_insert_eq|].
    split; [done|]. split.
    { intros k H1 H2. by rewrite !lookup_insert_ne. }
    split; [done|]. done.
Qed.

(** C8.  Stage 2 returns one entry per candidate, in order: the candidate
    with a [related_laws] value and a [laws_found] count equal to its
    length, every other key unchanged.  A candidate whose search raises
    gets an empty evidence list and a zero count.  The entry of a
    candidate depends only on that candidate and on the outcome of its
    own search: whatever the other searches do, it is the same. *)
Theorem chain2_augments_every_candidate
    (search : nat -> text -> outcome dict) (cands : list dict) :
  length (chain2 search cands) = length cands
  /\ (forall (i : nat) (v : dict),
        cands !! i = Some v ->
        exists o laws n,
          chain2 search cands !! i = Some o
          /\ o !! "related_laws" = Some laws
          /\ o !! "laws_found" = Some (PInt (Z.of_nat n))
          /\ py_len laws = Ok n
          /\ (forall k : string,
                k <> "related_laws"%string -> k <> "laws_found"%string ->
                o !! k = v !! k)
          /\ (forall e, search i (query v) = Raise e -> laws = PList [] /\ n = O)
          /\ (forall legal_docs m,
                search i (query v) = Ok legal_docs ->
                py_len (dict_get legal_docs "results" (PList [])) = Ok m ->
                laws = dict_get legal_docs "results" (PList []) /\ n = m))
  /\ (forall (search' : nat -> text -> outcome dict) (i : nat) (v : dict),
        cands !! i = Some v ->
        search' i (query v) = search i (query v) ->
        chain2 search' cands !! i = chain2 search cands !! i).
Proof.
  rewrite !chain2_imap. split; [by rewrite length_imap|]. split.
  - intros i v Hv.
    destruct (augmented_spec search i v) as (laws & n & H).
    exists (augmented search i v), laws, n.
    split; [by rewrite list_lookup_imap, Hv | exact H].
  - intros search' i v Hv Hsame.
    rewrite !chain2_imap, !list_lookup_imap, Hv. cbn. f_equal.
    unfold augmented, _search_laws_for_violation. by rewrite Hsame.
Qed.

End Chain2Facts.

(** ** Stage 1: locator resolution *)




Section Chain1Facts.
Variable World : Type.
Variable json_loads : text -> outcome (option pyval).
Variable decimal_value : cp -> option Z.
Variable py_repr : pyval -> text.
Variable invoke_model : prompt -> M World text.

Local Abbreviation is_dec := (is_decimal decimal_value).
Local Abbreviation resolve := (resolve_chunk_index decimal_value).
Local Abbreviation parse := (chain1_parse json_loads decimal_value).
Local Abbreviation chain1 :=
  (_chain1_identify_violations World json_loads decimal_value py_repr invoke_model).








End Chain1Facts.

(** ** Stage 3: answered candidates are kept *)


Lemma outcome_map_ok {A B} (f : A -> outcome B) (l : list A) :
  (forall x, In x l -> exists y, f x = Ok y) ->
  exists ys, outcome_map f l = Ok ys /\ length ys = length l.
Proof.
  induction l as [|a l IH]; intros H; [by exists []|].
  destruct (H a) as [y Hy]; [by left|].
  destruct IH as (ys & Hys & Hlen); [intros x Hx; apply H; by right|].
  exists (y :: ys). cbn. rewrite Hy. cbn. rewrite Hys. cbn. by rewrite Hlen.
Qed.

Lemma outcome_map_length {A B} (f : A -> outcome B) (l : list A) (ys : list B) :
  outcome_map f l = Ok ys -> length ys = length l.
Proof.
  revert ys. induction l as [|a l IH]; intros ys H.
  - cbn in H. by injection H as <-.
  - cbn in H. destruct (f a) as [y|e]; [|done]. cbn in H.
    destruct (outcome_map f l) as [ys'|e] eqn:Hl; [|done].
    cbn in H. injection H as <-. cbn. by rewrite (IH ys').
Qed.

Section Chain3Facts.
Variable World : Type.
Variable json_loads : text -> outcome (option pyval).
Variable py_repr : pyval -> text.
Variable format_3f : pyval -> outcome text.
Variable invoke_model : prompt -> M World text.

Local Abbreviation laws_text' := (laws_text py_repr format_3f).
Local Abbreviation prompt_of := (chain3_prompt py_repr format_3f).
Local Abbreviation analyse :=
  (analyse_candidate World json_loads py_repr format_3f invoke_model).
Local Abbreviation analyse_all' :=
  (analyse_all World json_loads py_repr format_3f invoke_model).
Local Abbreviation chain3 :=
  (_chain3_detailed_analysis World json_loads py_repr format_3f invoke_model).

(** The state of the world when the iteration of candidate number [i]
    starts: after the iterations of the candidates before it. *)
Definition world_at (candidates : list dict) (w : World) (i : nat) : World :=
  snd (analyse_all' (take i candidates) w).

(** The fields of a candidate the fallback verdict is made of. *)
Definition fallback_fields : list string :=
  ["clause_title"; "clause_number"; "risk_type"; "brief_reason"]%string.

Lemma cited_laws_length (related_laws : pyval) (cited : list text) :
  cited_laws related_laws = Ok cited -> (length cited <= 2)%nat.
Proof.
  unfold cited_laws. destruct related_laws as [| | | |s|l|]; try done.
  - destruct s; [|done]. intros [= <-]. cbn. lia.
  - intros H%outcome_map_length. rewrite H, length_take. lia.
Qed.

Lemma fallback_verdict_fields (v v' : dict) (cited : list text) :
  (forall k, In k fallback_fields -> v !! k = v' !! k) ->
  fallback_verdict py_repr v cited = fallback_verdict py_repr v' cited.
Proof.
  intros H. unfold fallback_verdict, dict_get.
  rewrite (H "clause_title"%string), (H "clause_number"%string),
          (H "risk_type"%string), (H "brief_reason"%string);
    [done | | | |]; cbn; tauto.
Qed.

(** What one iteration leaves in the report: the entry it appends, if
    any. *)
Definition iteration_entry (v : dict) (w : World) (entry : option pyval) : Prop :=
  match prompt_of v with
  | Raise _ => entry = None
  | Ok p =>
    match invoke_model p w with
    | (Raise _, _) => entry = None
    | (Ok response_text, _) =>
      match json_loads (extract_json response_text) with
      | Ok (Some detailed_analysis) => entry = Some detailed_analysis
      | Ok None =>
        match cited_laws (dict_get v "related_laws" (PList [])) with
        | Ok cited =>
          entry = Some (PDict (fallback_verdict py_repr v cited))
          /\ (length cited <= 2)%nat
        | Raise _ => entry = None
        end
      | Raise _ => entry = None
      end
    end
  end.

Lemma analyse_candidate_entry (v : dict) (w : World) :
  exists entry w', analyse v w = (Ok entry, w') /\ iteration_entry v w entry.
Proof.
  unfold analyse_candidate, iteration_entry, try_except, bind, lift, ret.
  destruct (prompt_of v) as [p|e]; [|by eexists _, _].
  destruct (invoke_model p w) as [[r|e] w1]; [|by eexists _, _].
  unfold verdict_of.
  destruct (json_loads (extract_json r)) as [[parsed|]|e]; try (by eexists _, _).
  destruct (cited_laws (dict_get v "related_laws" (PList []))) as [cited|e] eqn:Hc;
    cbn [outcome_bind]; [|by eexists _, _].
  eexists _, _. split; [done|]. split; [done|]. by eapply cited_laws_length.
Qed.

Lemma analyse_all_returns (vs : list dict) (w : World) :
  exists entries w', analyse_all' vs w = (Ok entries, w').
Proof.
  revert w. induction vs as [|v vs IH]; intros w; [by exists [], w|].
  destruct (analyse_candidate_entry v w) as (entry & w1 & Ha & _).
  destruct (IH w1) as (entries & w2 & Hrest).
  eexists _, w2. cbn [analyse_all].
  unfold bind at 1. rewrite Ha. unfold bind at 1. by rewrite Hrest.
Qed.

Lemma analyse_all_cons (v : dict) (vs : list dict) (w : World) :
  exists entry w1 entries w2,
    analyse v w = (Ok entry, w1)
    /\ iteration_entry v w entry
    /\ analyse_all' vs w1 = (Ok entries, w2)
    /\ analyse_all' (v :: vs) w
       = (Ok (match entry with Some e => e :: entries | None => entries end), w2).
Proof.
  destruct (analyse_candidate_entry v w) as (entry & w1 & Ha & He).
  destruct (analyse_all_returns vs w1) as (entries & w2 & Hrest).
  exists entry, w1, entries, w2. split; [done|]. split; [done|].
  split; [exact Hrest|].
  cbn [analyse_all]. unfold bind at 1. rewrite Ha.
  unfold bind at 1. by rewrite Hrest.
Qed.

(** The loop appends, in candidate order, what each iteration leaves. *)
Lemma analyse_all_slots (candidates : list dict) (w : World) :
  exists (slots : list (option pyval)) (w' : World),
    analyse_all' candidates w = (Ok (omap id slots), w')
    /\ length slots = length candidates
    /\ forall i v, candidates !! i = Some v ->
         exists entry,
           slots !! i = Some entry
           /\ iteration_entry v (world_at candidates w i) entry.
Proof.
  revert w. induction candidates as [|v vs IH]; intros w.
  - exists [], w. split; [done|]. split; [done|]. intros i v Hi. done.
  - destruct (analyse_all_cons v vs w)
      as (entry & w1 & entries & w2 & Ha & He & Hvs & Hrun).
    destruct (IH w1) as (slots & w2' & Hslots & Hlen & Hall).
    rewrite Hvs in Hslots. injection Hslots as -> <-.
    exists (entry :: slots), w2. split; [|split].
    + rewrite Hrun. by destruct entry.
    + cbn. by rewrite Hlen.
    + intros [|i] v' Hi.
      * cbn in Hi. injection Hi as <-. exists entry. split; [done|].
        unfold world_at. cbn [take analyse_all]. exact He.
      * cbn in Hi. destruct (Hall i v' Hi) as (entry' & Hs & He').
        exists entry'. split; [done|].
        unfold world_at in *. cbn [take].
        destruct (analyse_all_cons v (take i vs) w)
          as (entry0 & w1' & es & w3 & Ha' & _ & Hvs' & Hrun').
        rewrite Ha in Ha'. injection Ha' as <- <-.
        rewrite Hrun'. cbn [snd]. rewrite Hvs' in He'. exact He'.
Qed.

(** C4 (as the code has it).  Stage 3 always returns; its list holds, in
    candidate order, the entries the iterations append, one at most per
    candidate, and [total_violations] is their number.  The iteration of
    a candidate appends the parsed verdict when the prompt is built, the
    model answers and the answer parses; it appends the fallback verdict,
    made of the candidate's clause number, title, risk type and rationale
    and of the file names of at most two evidence entries, when the
    answer is rejected with [JSONDecodeError] and those file names can be
    read; it appends nothing when the prompt cannot be built, the call
    raises, the decoder raises another exception or the file names cannot
    be read.  What the iteration of one candidate raises does not end the
    loop. *)
Theorem chain3_keeps_answered_candidates
    (candidates : list dict) (document_name : text) (w : World) :
  exists (slots : list (option pyval)) (w' : World),
    chain3 candidates document_name w
    = (Ok {| contract_analysis :=
               match candidates with
               | [] => None
               | _ => Some (document_name, length (omap id slots))
               end;
             violations := omap id slots |}, w')
    /\ length slots = length candidates
    /\ (forall i v, candidates !! i = Some v ->
          exists entry,
            slots !! i = Some entry
            /\ iteration_entry v (world_at candidates w i) entry)
    /\ forall (v v' : dict) (cited : list text),
         (forall k, In k fallback_fields -> v !! k = v' !! k) ->
         fallback_verdict py_repr v cited = fallback_verdict py_repr v' cited.
Proof.
  destruct (analyse_all_slots candidates w) as (slots & w' & Hrun & Hlen & Hall).
  exists slots, w'. split; [|split; [exact Hlen|split; [exact Hall|]]].
  - unfold _chain3_detailed_analysis, try_except.
    destruct candidates as [|v vs].
    + destruct slots; [|done]. cbn in Hrun. by injection Hrun as <-.
    + unfold bind, ret. by rewrite Hrun.
  - apply fallback_verdict_fields.
Qed.

End Chain3Facts.

(** ** Format errors never leave a stage *)

Section Degradation.
Variable World : Type.
Variable json_loads : text -> outcome (option pyval).
Variable decimal_value : cp -> option Z.
Variable py_repr : pyval -> text.
Variable format_3f : pyval -> outcome text.
Variable invoke_model : prompt -> M World text.

(** Stage 1 always returns a list. *)
Lemma chain1_never_raises (document_name : text) (all_chunks : list dict) (w : World) :
  exists candidates w',
    _chain1_identify_violations World json_loads decimal_value py_repr invoke_model
      document_name all_chunks w = (Ok candidates, w').
Proof.
  unfold _chain1_identify_violations, try_except.
  destruct (bind _ _ w) as [[l|e] w']; by eexists _, _.
Qed.

(** A response the decoder rejects gives the empty candidate list. *)
Lemma chain1_unparsable (response_text : text) :
  json_loads (extract_json response_text) = Ok None ->
  chain1_parse json_loads decimal_value response_text = Ok [].
Proof. intros H. unfold chain1_parse. by rewrite H. Qed.

(** Stage 3 always returns a report. *)
Lemma chain3_never_raises (candidates : list dict) (document_name : text) (w : World) :
  exists res w',
    _chain3_detailed_analysis World json_loads py_repr format_3f invoke_model
      candidates document_name w = (Ok res, w').
Proof.
  unfold _chain3_detailed_analysis, try_except.
  destruct candidates as [|v vs]; [by eexists _, _|].
  destruct (bind _ _ w) as [[l|e] w']; by eexists _, _.
Qed.

End Degradation.

(** ** Executable stand-ins and closed runs *)

(** JSON text written with ['] for the double quote. *)
Definition jq (s : string) : text :=
  map (fun c => if (c =? 39)%N then 34%N else c) (u8 s).

Definition ascii_decimal (c : cp) : option Z :=
  if ((48 <=? c) && (c <=? 57))%N then Some (Z.of_N (c - 48)) else None.

Definition repr_stub (v : pyval) : text :=
  match v with
  | PNone => u8 "None"
  | PBool true => u8 "True"
  | PBool false => u8 "False"
  | PInt z => Chunking.ascii_text (pretty z)
  | _ => u8 "<object>"
  end.

Definition format_stub (v : pyval) : outcome text :=
  match v with
  | PInt z => Ok (Chunking.ascii_text (pretty z) ++ u8 ".000")
  | PFloat q => Ok (Chunking.ascii_text (pretty (Qnum q / Z.pos (Qden q))) ++ u8 ".xxx")
  | _ => Raise (Exception "TypeError: unsupported format string")
  end.

(** An LLM that always answers [response]. *)
Definition canned_llm (response : text) : prompt -> M unit text :=
  fun _ w => (Ok response, w).

(** An LLM call that fails, as [invoke_model] does on any API error. *)
Definition failing_llm : prompt -> M unit text :=
  fun _ w => (Raise (Exception "Bedrock API call failed"), w).

Definition contract_chunks : list dict :=
  [<["content" := PStr (u8 "비밀정보란 서면으로 비밀 표시된 정보를 말한다.")]>
   (<["header_1" := PStr (u8 "제3조 (비밀정보의 정의)")]> ∅)].

(** The decoder handed to the stages in the closed runs. *)
Definition json_stub (s : text) : outcome (option pyval) := Ok (Json.loads s).

Definition run_chain1 (response : text) : outcome (list dict) :=
  fst (_chain1_identify_violations unit json_stub ascii_decimal repr_stub
         (canned_llm response) (u8 "contract.docx") contract_chunks tt).

Definition candidate_3 : dict :=
  <["clause_title" := PStr (u8 "비밀정보의 정의")]>
  (<["clause_number" := PStr (u8 "제3조")]> ∅).

Definition candidate_annex : dict :=
  <["clause_number" := PStr (u8 "부칙")]> ∅.

Definition fenced_response : text :=
  jq "분석 결과입니다.
```json
{'violations_found': true,
 'violations': [{'clause_number': '제3조', 'clause_title': '비밀정보의 정의'},
                {'clause_number': '부칙'}]}
```".

Example fenced_response_run :
  run_chain1 fenced_response
  = Ok [<["chunk_index" := PInt 2]> candidate_3;
        <["chunk_index" := PInt 0]> candidate_annex].
Proof. vm_compute. reflexivity. Qed.






(** The object of [prose_response], alone. *)
Definition bare_object : text :=
  jq "{'violations_found': true, 'total_violations': 1, 'violations': [{'clause_number': '제3조', 'clause_title': '비밀정보의 정의'}]}".

(** The same object with a sentence before and after it, no fence. *)
Definition prose_response : text :=
  u8 "다음은 분석 결과입니다: " ++ bare_object ++ u8 " 이상입니다.".

Definition bare_verdict : text :=
  jq "{'조항_위치': '제3조 (비밀정보의 정의)', '리스크_유형': '정보_보호_범위의_과도한_축소'}".

Definition prose_verdict : text :=
  u8 "상세 분석: " ++ bare_verdict ++ u8 " 끝.".

Definition candidate_3_with_laws : dict :=
  <["laws_found" := PInt 0]> (<["related_laws" := PList []]> candidate_3).

Definition run_candidate (llm : prompt -> M unit text) (v : dict) : outcome (option pyval) :=
  fst (analyse_candidate unit json_stub repr_stub format_stub llm v tt).

(** C3 at its failing input.  A bare JSON object between two sentences is
    valid JSON on its own, and the extraction of the document analysis
    ([BaseService.json_content]) recovers it; the chain's extraction hands
    the whole response to the decoder, so stage 1 returns no candidate and
    stage 3 substitutes the fallback verdict for a verdict the model gave. *)
Theorem bare_json_in_prose_is_not_parsed :
  Json.loads bare_object
    = Some (PDict (<["violations" := PList [PDict candidate_3]]>
                   (<["total_violations" := PInt 1]>
                   (<["violations_found" := PBool true]> ∅))))
  /\ extract_json prose_response = prose_response
  /\ Json.loads (extract_json prose_response) = None
  /\ run_chain1 prose_response = Ok []
  /\ BaseService.json_content prose_response = Some bare_object
  /\ is_Some (Json.loads bare_verdict)
  /\ run_candidate (canned_llm prose_verdict) candidate_3_with_laws
     = Ok (Some (PDict (fallback_verdict repr_stub candidate_3_with_laws []))).
Proof.
  split; [vm_compute; reflexivity|].
  split; [vm_compute; reflexivity|].
  split; [vm_compute; reflexivity|].
  split; [vm_compute; reflexivity|].
  split; [vm_compute; reflexivity|].
  split; [vm_compute; by eexists|].
  vm_compute; reflexivity.
Qed.

(** One evidence entry, as [search_documents_direct] builds it. *)
Definition law_entry : pyval :=
  PDict (<["similarity_score" := PFloat (8 # 10)]>
        (<["content" := PStr (u8 "제2조 (정의) 이 법에서 영업비밀이란 ...")]>
        (<["filename" := PStr (u8 "부정경쟁방지법.pdf")]> ∅))).

Definition candidate_3_with_evidence : dict :=
  <["laws_found" := PInt 1]> (<["related_laws" := PList [law_entry]]> candidate_3).

Definition run_chain3 (llm : prompt -> M unit text) (candidates : list dict)
    : outcome chain3_result :=
  fst (_chain3_detailed_analysis unit json_stub repr_stub format_stub llm
         candidates (u8 "contract.docx") tt).

Example unparsable_verdict_run :
  run_chain3 (canned_llm (u8 "죄송합니다, 분석할 수 없습니다.")) [candidate_3_with_evidence]
  = Ok {| contract_analysis := Some (u8 "contract.docx", 1%nat);
          violations :=
            [PDict (fallback_verdict repr_stub candidate_3_with_evidence
                      [u8 "부정경쟁방지법"])] |}.
Proof. vm_compute. reflexivity. Qed.

(** An LLM that reads its outcomes from a script, one per call. *)
Definition scripted_llm : prompt -> M (list (outcome text)) text :=
  fun _ w =>
    match w with
    | o :: w' => (o, w')
    | [] => (Raise (Exception "Bedrock API call failed"), [])
    end.

Definition candidate_5 : dict :=
  <["laws_found" := PInt 0]>
  (<["related_laws" := PList []]>
  (<["clause_title" := PStr (u8 "손해배상")]>
  (<["clause_number" := PStr (u8 "제5조")]> ∅))).

Definition fenced_verdict : text :=
  jq "```json
{'조항_위치': '제5조 (손해배상)', '리스크_유형': '과도한_배상책임'}
```".

Definition parsed_verdict : pyval :=
  PDict (<["리스크_유형" := PStr (u8 "과도한_배상책임")]>
        (<["조항_위치" := PStr (u8 "제5조 (손해배상)")]> ∅)).

(** Three candidates: the call of the first fails, the second is answered
    with a verdict, the third with a text that is no JSON. *)
Definition mixed_script : list (outcome text) :=
  [Raise (Exception "Bedrock API call failed");
   Ok fenced_verdict;
   Ok (u8 "죄송합니다, 분석할 수 없습니다.")].

Definition mixed_candidates : list dict :=
  [candidate_3_with_evidence; candidate_5; candidate_3_with_evidence].

Lemma chain3_keeps_answered_candidates_witness :
  fst (_chain3_detailed_analysis _ json_stub repr_stub format_stub scripted_llm
         mixed_candidates (u8 "contract.docx") mixed_script)
  = Ok {| contract_analysis := Some (u8 "contract.docx", 2%nat);
          violations :=
            [parsed_verdict;
             PDict (fallback_verdict repr_stub candidate_3_with_evidence
                      [u8 "부정경쟁방지법"])] |}.
Proof.
  destruct (chain3_keeps_answered_candidates _ json_stub repr_stub format_stub
              scripted_llm mixed_candidates (u8 "contract.docx") mixed_script)
    as (slots & w' & Hrun & Hlen & Hall & _).
  destruct (Hall 0%nat _ eq_refl) as (e0 & Hs0 & He0).
  destruct (Hall 1%nat _ eq_refl) as (e1 & Hs1 & He1).
  destruct (Hall 2%nat _ eq_refl) as (e2 & Hs2 & He2).
  vm_compute in He0. vm_compute in He1. vm_compute in He2.
  destruct He2 as [He2 _]. subst e0 e1 e2.
  destruct slots as [|s0 [|s1 [|s2 [|s3 slots]]]]; try discriminate Hlen.
  cbn in Hs0, Hs1, Hs2. injection Hs0 as ->. injection Hs1 as ->.
  injection Hs2 as ->.
  rewrite Hrun. vm_compute. reflexivity.
Defined.

(** C4 (as worded) fails when the LLM call itself fails: the
    per-candidate handler ends the iteration with [continue] and the
    candidate has no entry in the report. *)
Lemma failed_call_drops_candidate_counterexample :
  run_chain3 failing_llm [candidate_3_with_evidence]
  = Ok {| contract_analysis := Some (u8 "contract.docx", 0%nat);
          violations := [] |}.
Proof. vm_compute. reflexivity. Qed.

(** ** The paragraph fallback of the section splitters *)



Section SectionFacts.
Variable is_decimal : cp -> bool.
(** The langchain splitters [chunk_markdown] calls. *)
Variable markdown_split_text : list (string * string) -> text -> list Chunking.document.
Variable recursive_split_text : Chunking.text_splitter -> text -> list text.

Local Abbreviation chunk_markdown' :=
  (Chunking.chunk_markdown markdown_split_text recursive_split_text is_decimal).


End SectionFacts.







End RagPipeline.

(** * More on [src/documents/repository.py]: shape of the fused list *)

Module RepositoryFacts.
Import Repository.

Section Shape.
Variable World : Type.
Variable by_vector :
  query_embedding -> option (list string) -> Z -> M World (list search_result).
Variable with_room :
  query_embedding -> option Z -> option (list string) -> Z ->
  M World (list search_result).

Local Abbreviation hybrid := (search_documents_hybrid World by_vector with_room).

(** X1.  When both searches succeed, the result has
    [min top_k (global hits + room documents)] entries; each entry is a
    global hit weighted by [system_weight] and tagged "system", or a room
    document of the room search weighted by [room_weight] and tagged
    "room".  The global documents that the room search also returns never
    enter the result a second time. *)
Theorem hybrid_result_shape
    (q : query_embedding) (rid : Z) (doc_types : option (list string))
    (top_k : Z) (system_weight room_weight : float) (w w1 w2 : World)
    (system_results room_results : list search_result) :
  0 <= top_k ->
  by_vector q doc_types top_k w = (Ok system_results, w1) ->
  with_room q (Some rid) doc_types top_k w1 = (Ok room_results, w2) ->
  exists out,
    hybrid q (Some rid) doc_types top_k system_weight room_weight w = (Ok out, w2)
    /\ length out
       = Nat.min (Z.to_nat top_k)
           (length system_results
            + length (List.filter get_is_room_document room_results))
    /\ forall r, In r out ->
         (exists r0, In r0 system_results
                     /\ r = apply_weight system_weight "system" r0)
         \/ (exists r0, In r0 room_results
                        /\ get_is_room_document r0 = true
                        /\ r = apply_weight room_weight "room" r0).
Proof.
  intros Hk Hsys Hroom.
  set (weighted := map (apply_weight system_weight "system") system_results
         ++ map (apply_weight room_weight "room")
              (List.filter get_is_room_document room_results)).
  exists (take (Z.to_nat top_k) (sort_desc sort_key weighted)).
  split; [|split].
  - unfold search_documents_hybrid, try_except, hybrid_body, bind, ret.
    rewrite Hsys, Hroom. by rewrite slice_to_nonneg.
  - rewrite length_take, (Permutation_length (sort_desc_perm sort_key weighted)).
    unfold weighted. by rewrite length_app, !length_map.
  - intros r Hr.
    assert (Hin : In r weighted).
    { apply list_elem_of_In.
      rewrite <- (sort_desc_perm sort_key weighted).
      apply list_elem_of_In in Hr. by apply (subseteq_take (Z.to_nat top_k)). }
    unfold weighted in Hin. apply in_app_iff in Hin as [Hin|Hin];
      apply in_map_iff in Hin as (r0 & <- & Hr0).
    + left. by exists r0.
    + right. apply filter_In in Hr0 as [Hr0 Hroomdoc]. by exists r0.
Qed.

End Shape.

Lemma hybrid_result_shape_witness :
  exists out,
    scripted_hybrid [] (Some 7) None 2 default_system_weight default_room_weight
      [Ok [row 1 0.9 None; row 2 0.5 None];
       Ok [row 3 0.8 (Some true); row 1 0.9 (Some false)]]
    = (Ok out, [])
    /\ length out = 2%nat.
Proof.
  destruct (hybrid_result_shape script
              (fun _ _ _ => scripted_search) (fun _ _ _ _ => scripted_search)
              [] 7 None 2 default_system_weight default_room_weight
              [Ok [row 1 0.9 None; row 2 0.5 None];
               Ok [row 3 0.8 (Some true); row 1 0.9 (Some false)]]
              [Ok [row 3 0.8 (Some true); row 1 0.9 (Some false)]]
              []
              [row 1 0.9 None; row 2 0.5 None]
              [row 3 0.8 (Some true); row 1 0.9 (Some false)])
    as (out & Hrun & Hlen & _); [lia | reflexivity | reflexivity |].
  exists out. split; [exact Hrun | exact Hlen].
Defined.

End RepositoryFacts.

(** * [src/chat/service.py]: the callers of the hybrid search *)

Module ChatService.
Import Repository.

(** [result[k]]: [KeyError] when the row has no such column. *)
Definition column (r : search_result) (k : string) : outcome pyval :=
  match columns r !! k with
  | Some v => Ok v
  | None => Raise (Exception "KeyError")
  end.

(** One entry of [relevant_docs]: the dictionary with the six keys
    [document_id], [title], [content], [similarity_score], [doc_type] and
    [source_type]. *)
Record relevant : Type := {
  rel_document_id : pyval;
  rel_title : pyval;
  rel_content : pyval;
  rel_similarity_score : float;
  rel_doc_type : pyval;
  rel_source_type : string;
}.

Definition relevant_doc (r : search_result) : outcome relevant :=
  RagPipeline.outcome_bind (column r "document_id") (fun document_id =>
  RagPipeline.outcome_bind (column r "filename") (fun title =>
  RagPipeline.outcome_bind (column r "content") (fun content =>
  RagPipeline.outcome_bind (column r "doc_type") (fun doc_type =>
  Ok {| rel_document_id := document_id;
        rel_title := title;
        rel_content := content;
        rel_similarity_score := similarity_score r;
        rel_doc_type := doc_type;
        rel_source_type := match source_type r with
                           | Some tag => tag
                           | None => "system"
                           end |})))).

Section Chat.
Variable World : Type.
(** [self.embedding_service.create_single_embedding(query)] *)
Variable create_single_embedding : text -> M World query_embedding.
Variable by_vector :
  query_embedding -> option (list string) -> Z -> M World (list search_result).
Variable with_room :
  query_embedding -> option Z -> option (list string) -> Z ->
  M World (list search_result).

Local Open Scope py_scope.

(** The common body of the three search helpers. *)
Definition search_relevant (top_k : Z) (system_weight room_weight : float)
    (query : text) (room_id : option Z) (doc_types : option (list string))
    : M World (list relevant) :=
  try_except
    (let! query_embedding := create_single_embedding query in
     let! search_results :=
       search_documents_hybrid World by_vector with_room query_embedding
         room_id doc_types top_k system_weight room_weight in
     RagPipeline.lift (RagPipeline.outcome_map relevant_doc search_results))
    (fun _ => ret []).

(** [_search_relevant_documents(query, room_id, doc_types, db_session)] *)
Definition _search_relevant_documents :=
  search_relevant 8 0.6 0.4.

(** [_search_relevant_documents_for_draft_improvement(query, document_id,
    room_id, db_session)] *)
Definition _search_relevant_documents_for_draft_improvement
    (query : text) (room_id : option Z) :=
  search_relevant 10 0.7 0.3 query room_id
    (Some ["standard_contract"; "guideline"; "law"]%string).

(** [_search_relevant_documents_for_legal_analysis(query, document_id,
    room_id, db_session)] *)
Definition _search_relevant_documents_for_legal_analysis
    (query : text) (room_id : option Z) :=
  search_relevant 10 0.8 0.2 query room_id
    (Some ["law"; "precedent"; "guideline"]%string).


End Chat.

End ChatService.

(** * More on [src/documents/chunking.py]: identifiers and linkage *)

Module ChunkingFacts.
Import Text Regex Chunking.

(** ** Identifiers *)

Definition digit_char (a : ascii) : Prop := ascii_digit (N_of_ascii a) = true.

Lemma pretty_N_char_digit (x : N) : digit_char (pretty_N_char x).
Proof. unfold pretty_N_char. by repeat case_match. Qed.

Lemma pretty_N_go_digits (x : N) (s : string) :
  Forall digit_char (list_ascii_of_string s) ->
  Forall digit_char (list_ascii_of_string (pretty_N_go x s)).
Proof.
  revert s. induction (N.lt_wf_0 x) as [x _ IH]; intros s Hs.
  destruct (N.eq_dec x 0%N) as [->|Hx]; [by rewrite pretty_N_go_0|].
  rewrite pretty_N_go_step by lia.
  apply IH; [apply N.div_lt; lia|].
  cbn. constructor; [apply pretty_N_char_digit | exact Hs].
Qed.

Lemma str_int_digits (n : nat) :
  Forall (fun c => ascii_digit c = true) (str_int n).
Proof.
  unfold str_int, ascii_text. apply Forall_fmap.
  unfold pretty, pretty_nat, pretty, pretty_N.
  destruct (decide (N.of_nat n = 0%N)).
  - repeat constructor.
  - apply (pretty_N_go_digits _ EmptyString). constructor.
Qed.

Lemma str_int_inj (i j : nat) : str_int i = str_int j -> i = j.
Proof.
  unfold str_int. intros H. apply ascii_text_inj in H. by apply (inj pretty) in H.
Qed.

(** Two texts that agree up to a separator after a run of digits agree
    part by part. *)
Lemma digits_then_separator (sep : cp) (d1 d2 r1 r2 : text) :
  ascii_digit sep = false ->
  Forall (fun c => ascii_digit c = true) d1 ->
  Forall (fun c => ascii_digit c = true) d2 ->
  d1 ++ sep :: r1 = d2 ++ sep :: r2 ->
  d1 = d2 /\ r1 = r2.
Proof.
  intros Hsep. revert d2. induction d1 as [|c d1 IH]; intros d2 H1 H2 Heq.
  - destruct d2 as [|c2 d2]; cbn in Heq.
    + by injection Heq as ->.
    + injection Heq as <- _. apply Forall_cons in H2 as [H2 _]. congruence.
  - apply Forall_cons in H1 as [Hc H1].
    destruct d2 as [|c2 d2]; cbn in Heq.
    + injection Heq as -> _. congruence.
    + injection Heq as <- Heq. apply Forall_cons in H2 as [_ H2].
      destruct (IH d2 H1 H2 Heq) as [-> ->]. done.
Qed.

Lemma child_id_of_inj (filename : text) (i j k l : nat) :
  child_id_of (parent_id_of filename i) k = child_id_of (parent_id_of filename j) l ->
  i = j /\ k = l.
Proof.
  unfold child_id_of, parent_id_of. rewrite <- !app_assoc. intros H.
  apply app_inv_head in H. apply app_inv_head in H.
  change (u8 "_child_") with (95%N :: u8 "child_") in H.
  cbn [app] in H.
  apply digits_then_separator in H as [Hi Hk];
    [|done|apply str_int_digits|apply str_int_digits].
  apply str_int_inj in Hi. apply app_inv_head in Hk.
  apply str_int_inj in Hk. done.
Qed.

Lemma parent_id_not_child_id (filename : text) (i j k : nat) :
  parent_id_of filename i <> child_id_of (parent_id_of filename j) k.
Proof.
  unfold child_id_of, parent_id_of. rewrite <- !app_assoc. intros H.
  apply app_inv_head in H. apply app_inv_head in H.
  change (u8 "_child_") with (95%N :: u8 "child_") in H.
  cbn [app] in H.
  pose proof (str_int_digits i) as Hd. rewrite H in Hd.
  apply Forall_app in Hd as [_ Hd]. apply Forall_cons in Hd as [Hd _].
  discriminate Hd.
Qed.

(** ** The chunk list of a segmented document *)

Definition mapping_of (r : chunking_result) : list (text * list text) :=
  match r with
  | ChunkingSuccess _ _ _ parent_child_mapping _ => parent_child_mapping
  | ChunkingFailure _ _ => []
  end.

Definition chunk_id_text (c : gmap string pyval) : option text :=
  match c !! "chunk_id" with
  | Some (PStr s) => Some s
  | _ => None
  end.

Lemma NoDup_concat_blocks {A} (blocks : list (list A)) :
  Forall (fun b => NoDup b) blocks ->
  (forall i j bi bj x, blocks !! i = Some bi -> blocks !! j = Some bj ->
     In x bi -> In x bj -> i = j) ->
  NoDup (concat blocks).
Proof.
  induction blocks as [|b blocks IH]; intros Hnd Hdisj; [constructor|].
  apply Forall_cons in Hnd as [Hb Hnd]. cbn [concat].
  apply NoDup_app. split; [exact Hb|]. split.
  - intros x Hx Hin. apply list_elem_of_In, in_concat in Hin as (b' & Hb' & Hxb').
    apply list_elem_of_In, list_elem_of_lookup in Hb' as [j Hj].
    apply list_elem_of_In in Hx.
    by pose proof (Hdisj O (S j) b b' x eq_refl Hj Hx Hxb').
  - apply IH; [exact Hnd|].
    intros i j bi bj x Hi Hj Hxi Hxj.
    pose proof (Hdisj (S i) (S j) bi bj x Hi Hj Hxi Hxj). lia.
Qed.

Lemma filter_one_block {A} (P : A -> bool) (blocks : list (list A)) (i : nat) :
  (forall j b x, blocks !! j = Some b -> In x b -> P x = bool_decide (j = i)) ->
  List.filter P (concat blocks) = default [] (blocks !! i).
Proof.
  revert i. induction blocks as [|b blocks IH]; intros i HP; [done|].
  cbn [concat]. rewrite List.filter_app.
  assert (Hrest : forall i', (forall j b' x, blocks !! j = Some b' -> In x b' ->
                     P x = bool_decide (S j = S i')) ->
                   List.filter P (concat blocks) = default [] (blocks !! i')).
  { intros i' H. apply IH. intros j b' x Hj Hx. rewrite (H j b' x Hj Hx).
    apply bool_decide_ext. lia. }
  destruct i as [|i].
  - assert (Hb : List.filter P b = b).
    { apply forallb_filter_id, forallb_forall. intros x Hx.
      rewrite (HP O b x eq_refl Hx). by apply bool_decide_eq_true. }
    assert (Hnone : List.filter P (concat blocks) = []).
    { clear IH Hrest Hb.
      assert (H : forall x, In x (concat blocks) -> P x = false).
      { intros x Hx. apply in_concat in Hx as (b' & Hb' & Hx).
        apply list_elem_of_In, list_elem_of_lookup in Hb' as [j Hj].
        rewrite (HP (S j) b' x Hj Hx). by apply bool_decide_eq_false. }
      revert H. generalize (concat blocks). intros l H.
      induction l as [|x l IHl]; [done|].
      cbn. rewrite (H x) by (by left). apply IHl. intros y Hy. apply H. by right. }
    rewrite Hb, Hnone. cbn. by rewrite app_nil_r.
  - assert (Hb : List.filter P b = []).
    { assert (H : forall x, In x b -> P x = false).
      { intros x Hx. rewrite (HP O b x eq_refl Hx). by apply bool_decide_eq_false. }
      clear HP IH Hrest. induction b as [|x b IHb]; [done|].
      cbn. rewrite (H x) by (by left). apply IHb. intros y Hy. apply H. by right. }
    rewrite Hb. cbn [app lookup]. apply (Hrest i).
    intros j b' x Hj Hx. apply (HP (S j) b' x Hj Hx).
Qed.

(** ** [get_parent_context] *)

Section ParentContext.
(** Python's [==] between two values neither of which is a string. *)
Variable py_eq : pyval -> pyval -> bool.

(** [v == s] for a string [s]: a value that is not a string is not equal
    to one. *)
Definition str_is (v : pyval) (s : text) : bool :=
  match v with
  | PStr t => text_eqb t s
  | _ => false
  end.

(** [a == b] *)
Definition values_equal (a b : pyval) : bool :=
  match a, b with
  | PStr s, PStr t => text_eqb s t
  | PStr _, _ => false
  | _, PStr _ => false
  | _, _ => py_eq a b
  end.

(** [get_parent_context(chunking_result, child_chunk_id)] *)
Definition get_parent_context (r : chunking_result) (child_chunk_id : text)
    : option text :=
  match r with
  | ChunkingFailure _ _ => None
  | ChunkingSuccess _ parent_chunks child_chunks _ _ =>
    let parent_id :=
      match List.find (fun c => str_is (get_opt (metadata c) "child_id")
                                       child_chunk_id) child_chunks with
      | Some child_chunk => get_opt (metadata child_chunk) "parent_id"
      | None => PNone
      end in
    if negb (truthy parent_id) then None
    else
      page_content <$>
        List.find (fun p => values_equal (get_opt (metadata p) "parent_id")
                                         parent_id) parent_chunks
  end.
End ParentContext.

Lemma find_the_one {A} (P : A -> bool) (l : list A) (x : A) :
  In x l -> P x = true ->
  (forall y, In y l -> P y = true -> y = x) ->
  List.find P l = Some x.
Proof.
  intros Hx HP Huniq. destruct (List.find P l) as [y|] eqn:Hf.
  - apply find_some in Hf as [Hy HPy]. f_equal. by apply Huniq.
  - pose proof (find_none _ _ Hf x Hx). congruence.
Qed.

Lemma find_no_one {A} (P : A -> bool) (l : list A) :
  (forall y, In y l -> P y = false) -> List.find P l = None.
Proof.
  intros H. destruct (List.find P l) as [y|] eqn:Hf; [|done].
  apply find_some in Hf as [Hy HPy]. rewrite (H y Hy) in HPy. done.
Qed.

Section Linkage.
Variable markdown_split_text : list (string * string) -> text -> list document.
Variable recursive_split_text : text_splitter -> text -> list text.
Variable is_decimal : cp -> bool.
Variable py_eq : pyval -> pyval -> bool.
Variable self : HierarchicalChunker.
Variable markdown_content filename : text.

(** The sections of the document, as the step-4 loop receives them. *)
Definition sections : list document :=
  map restore_clause_header
      (markdown_split_text (markdown_splitter self)
         (preprocess is_decimal markdown_content)).

Definition split_all : list (document * list document) :=
  imap (split_parent recursive_split_text self filename) sections.

Definition the_result : chunking_result :=
  chunk_markdown markdown_split_text recursive_split_text is_decimal self
    markdown_content filename.

Definition the_chunks : list (gmap string pyval) :=
  create_vector_ready_chunks the_result.

(** The texts of the children of section [d]. *)
Definition child_texts (d : document) : list text :=
  if (parent_split_threshold <? length (page_content d))%nat
  then recursive_split_text (child_splitter self) (page_content d)
  else [].

Lemma the_chunks_eq :
  the_chunks = map parent_data (map fst split_all)
               ++ map child_data (concat (map snd split_all)).
Proof. reflexivity. Qed.

Lemma parents_eq : parents_of the_result = map fst split_all.
Proof. reflexivity. Qed.

Lemma split_parent_children (i : nat) (d : document) :
  snd (split_parent recursive_split_text self filename i d)
  = imap (make_child filename (parent_id_of filename i)
            (tag_parent filename i d)) (child_texts d).
Proof.
  unfold split_parent, child_texts. cbn [page_content tag_parent].
  by destruct (_ <? _)%nat.
Qed.

Lemma split_parent_chunk_id (i : nat) (d : document) :
  parent_data (fst (split_parent recursive_split_text self filename i d))
    !! "chunk_id" = Some (PStr (parent_id_of filename i))
  /\ parent_data (fst (split_parent recursive_split_text self filename i d))
    !! "chunk_type" = Some (PStr (u8 "parent"))
  /\ parent_data (fst (split_parent recursive_split_text self filename i d))
    !! "content" = Some (PStr (page_content d)).
Proof.
  unfold split_parent. cbn [page_content tag_parent].
  destruct (_ <? _)%nat; cbn [fst]; unfold parent_data, get_opt, dict_get;
    cbn [metadata page_content tag_parent mark_standalone]; by dict_lookup.
Qed.

Lemma child_chunk_fields (pid : text) (parent : document) (k : nat) (chunk : text) :
  let c := child_data (make_child filename pid parent k chunk) in
  c !! "chunk_id" = Some (PStr (child_id_of pid k))
  /\ c !! "chunk_type" = Some (PStr (u8 "child"))
  /\ c !! "parent_id" = Some (PStr pid)
  /\ c !! "content" = Some (PStr chunk).
Proof.
  cbn zeta. unfold child_data, get_opt, dict_get.
  cbn [metadata page_content make_child]. by dict_lookup.
Qed.

Lemma split_all_lookup (i : nat) :
  split_all !! i
  = split_parent recursive_split_text self filename i <$> sections !! i.
Proof. unfold split_all. apply list_lookup_imap. Qed.

Lemma parent_chunk_lookup (i : nat) (d : document) :
  sections !! i = Some d ->
  the_chunks !! i
  = Some (parent_data (fst (split_parent recursive_split_text self filename i d))).
Proof.
  intros Hd. rewrite the_chunks_eq, lookup_app_l.
  - by rewrite !list_lookup_fmap, split_all_lookup, Hd.
  - rewrite !length_map. unfold split_all. rewrite length_imap.
    by eapply lookup_lt_Some.
Qed.

(** The child chunks of the list, block by block. *)
Definition child_blocks : list (list (gmap string pyval)) :=
  imap (fun i d =>
          imap (fun k chunk =>
                  child_data (make_child filename (parent_id_of filename i)
                                (tag_parent filename i d) k chunk))
               (child_texts d))
       sections.

Lemma child_part_blocks :
  map child_data (concat (map snd split_all)) = concat child_blocks.
Proof.
  unfold split_all, child_blocks.
  generalize sections. intros l.
  assert (H : forall (off : nat),
    map child_data
      (concat (map snd (imap (fun i => split_parent recursive_split_text self
                                         filename (off + i)) l)))
    = concat (imap (fun i d =>
          imap (fun k chunk =>
                  child_data (make_child filename (parent_id_of filename (off + i))
                                (tag_parent filename (off + i) d) k chunk))
               (child_texts d)) l)).
  { induction l as [|d l IH]; intros off; [done|].
    cbn [imap map concat]. rewrite map_app. f_equal.
    - rewrite split_parent_children. rewrite Nat.add_0_r.
      generalize (child_texts d). intros ts.
      generalize (make_child filename (parent_id_of filename off)
                    (tag_parent filename off d)). intros mk.
      revert mk. induction ts as [|t ts IHt]; intros mk; [done|].
      cbn [imap map]. f_equal. apply IHt.
    - rewrite (imap_ext _ (fun i => split_parent recursive_split_text self
                                      filename (S off + i)))
        by (intros; cbn; f_equal; lia).
      rewrite IH. f_equal. apply imap_ext. intros i x _. cbn.
      by replace (off + S i)%nat with (S (off + i))%nat by lia. }
  apply (H O).
Qed.

Lemma child_block_member (i : nat) (b : list (gmap string pyval))
    (c : gmap string pyval) :
  child_blocks !! i = Some b -> In c b ->
  exists d k chunk,
    sections !! i = Some d
    /\ child_texts d !! k = Some chunk
    /\ b !! k = Some c
    /\ c = child_data (make_child filename (parent_id_of filename i)
                         (tag_parent filename i d) k chunk).
Proof.
  unfold child_blocks. rewrite list_lookup_imap.
  destruct (sections !! i) as [d|] eqn:Hd; [|done].
  cbn. intros [= <-] Hc.
  apply list_elem_of_In, list_elem_of_lookup in Hc as [k Hk].
  pose proof Hk as Hk'. rewrite list_lookup_imap in Hk.
  destruct (child_texts d !! k) as [chunk|] eqn:Ht; [|done].
  cbn in Hk. injection Hk as <-. by exists d, k, chunk.
Qed.

Lemma child_chunk_member (c : gmap string pyval) :
  In c the_chunks -> str_field_is c "chunk_type" (u8 "child") = true ->
  exists i b, child_blocks !! i = Some b /\ In c b.
Proof.
  rewrite the_chunks_eq, child_part_blocks. intros Hc Hty.
  apply in_app_iff in Hc as [Hc|Hc].
  - apply in_map_iff in Hc as (p & <- & Hp).
    apply in_map_iff in Hp as ([p' cs] & <- & Hin).
    apply list_elem_of_In, list_elem_of_lookup in Hin as [i Hi].
    rewrite split_all_lookup in Hi.
    destruct (sections !! i) as [d|]; [|done]. cbn in Hi. injection Hi as Hi.
    destruct (split_parent_chunk_id i d) as (_ & Hct & _).
    rewrite Hi in Hct. cbn [fst] in *.
    unfold str_field_is in Hty. by rewrite Hct in Hty.
  - apply in_concat in Hc as (b & Hb & Hc).
    apply list_elem_of_In, list_elem_of_lookup in Hb as [i Hi].
    by exists i, b.
Qed.

(** X3.  Every child chunk of the list names one parent chunk of the list, and
    only one: the entry at the position of its section, whose [chunk_id]
    is the child's [parent_id]. *)
Theorem child_resolves_to_one_parent (c : gmap string pyval) :
  In c the_chunks ->
  str_field_is c "chunk_type" (u8 "child") = true ->
  exists i p,
    parents_of the_result !! i = Some p
    /\ the_chunks !! i = Some (parent_data p)
    /\ parent_data p !! "chunk_type" = Some (PStr (u8 "parent"))
    /\ c !! "parent_id" = parent_data p !! "chunk_id"
    /\ forall j p',
         parents_of the_result !! j = Some p' ->
         parent_data p' !! "chunk_id" = c !! "parent_id" -> j = i.
Proof.
  intros Hc Hty.
  destruct (child_chunk_member c Hc Hty) as (i & b & Hb & Hcb).
  destruct (child_block_member i b c Hb Hcb) as (d & k & chunk & Hd & _ & _ & ->).
  destruct (child_chunk_fields (parent_id_of filename i)
              (tag_parent filename i d) k chunk) as (_ & _ & Hpid & _).
  cbn zeta in Hpid.
  destruct (split_parent_chunk_id i d) as (Hid & Hct & _).
  exists i, (fst (split_parent recursive_split_text self filename i d)).
  split; [by rewrite parents_eq, list_lookup_fmap, split_all_lookup, Hd|].
  split; [by apply parent_chunk_lookup|].
  split; [exact Hct|]. split; [by rewrite Hpid, Hid|].
  intros j p' Hj Hsame. rewrite parents_eq, list_lookup_fmap, split_all_lookup in Hj.
  destruct (sections !! j) as [d'|]; [|done]. cbn in Hj. injection Hj as <-.
  destruct (split_parent_chunk_id j d') as (Hid' & _).
  rewrite Hid', Hpid in Hsame. injection Hsame as Hsame.
  by apply parent_id_of_inj in Hsame.
Qed.

(** *** Identifiers are unique *)

Definition parent_ids : list text :=
  imap (fun i _ => parent_id_of filename i) sections.

Definition child_id_blocks : list (list text) :=
  imap (fun i d =>
          imap (fun k _ => child_id_of (parent_id_of filename i) k)
               (child_texts d))
       sections.

Lemma the_chunk_ids :
  map chunk_id_text the_chunks
  = map Some (parent_ids ++ concat child_id_blocks).
Proof.
  rewrite the_chunks_eq, child_part_blocks, !map_app. f_equal.
  - apply list_eq. intros i. unfold parent_ids.
    rewrite !list_lookup_fmap, split_all_lookup, list_lookup_imap.
    destruct (sections !! i) as [d|]; [|done]. cbn.
    destruct (split_parent_chunk_id i d) as (Hid & _).
    unfold chunk_id_text. by rewrite Hid.
  - rewrite !concat_map. f_equal.
    apply list_eq. intros i. unfold child_blocks, child_id_blocks.
    rewrite !list_lookup_fmap, !list_lookup_imap.
    destruct (sections !! i) as [d|]; [|done]. cbn. f_equal.
    apply list_eq. intros k.
    rewrite !list_lookup_fmap, !list_lookup_imap.
    destruct (child_texts d !! k) as [chunk|]; [|done]. cbn.
    destruct (child_chunk_fields (parent_id_of filename i)
                (tag_parent filename i d) k chunk) as (Hid & _).
    cbn zeta in Hid. unfold chunk_id_text. by rewrite Hid.
Qed.

(** X4.  Every chunk of the list has a string [chunk_id], and no two
    chunks have the same one. *)
Theorem chunk_ids_distinct :
  exists ids : list text,
    map chunk_id_text the_chunks = map Some ids /\ NoDup ids.
Proof.
  exists (parent_ids ++ concat child_id_blocks).
  split; [apply the_chunk_ids|].
  apply NoDup_app. split; [|split].
  - apply NoDup_alt. intros i j x Hi Hj. unfold parent_ids in *.
    rewrite list_lookup_imap in Hi, Hj.
    destruct (sections !! i); [|done]. destruct (sections !! j); [|done].
    cbn in Hi, Hj. injection Hi as <-. injection Hj as Hj.
    symmetry. by apply parent_id_of_inj in Hj.
  - intros x Hx Hin. unfold parent_ids in Hx.
    apply elem_of_lookup_imap in Hx as (i & d & -> & _).
    apply list_elem_of_In, in_concat in Hin as (b & Hb & Hin).
    unfold child_id_blocks in Hb.
    apply list_elem_of_In, elem_of_lookup_imap in Hb as (j & d' & -> & _).
    apply list_elem_of_In, elem_of_lookup_imap in Hin as (k & t & Hbad & _).
    by apply parent_id_not_child_id in Hbad.
  - apply NoDup_concat_blocks.
    + apply Forall_forall. intros b Hb. unfold child_id_blocks in Hb.
      apply elem_of_lookup_imap in Hb as (i & d & -> & _).
      apply NoDup_alt. intros k l x Hk Hl.
      rewrite list_lookup_imap in Hk, Hl.
      destruct (child_texts d !! k); [|done].
      destruct (child_texts d !! l); [|done].
      cbn in Hk, Hl. injection Hk as <-. injection Hl as Hl.
      symmetry. by apply child_id_of_inj in Hl as [_ ?].
    + intros i j bi bj x Hi Hj Hxi Hxj. unfold child_id_blocks in Hi, Hj.
      rewrite list_lookup_imap in Hi, Hj.
      destruct (sections !! i); [|done]. destruct (sections !! j); [|done].
      cbn in Hi, Hj. injection Hi as <-. injection Hj as <-.
      apply list_elem_of_In, elem_of_lookup_imap in Hxi as (k & t & -> & _).
      apply list_elem_of_In, elem_of_lookup_imap in Hxj as (l & t' & Heq & _).
      by apply child_id_of_inj in Heq as [? _].
Qed.

(** *** The parent-to-children table agrees with the chunk list *)

Lemma omap_imap_some {A B C} (g : nat -> A -> B) (f : B -> option C)
    (h : nat -> A -> C) (l : list A) :
  (forall k x, f (g k x) = Some (h k x)) ->
  omap f (imap g l) = imap h l.
Proof.
  revert g h. induction l as [|x l IH]; intros g h Hf; [done|].
  cbn [imap]. change (omap f (g 0%nat x :: imap (g ∘ S) l))
    with (match f (g 0%nat x) with
          | Some y => y :: omap f (imap (g ∘ S) l)
          | None => omap f (imap (g ∘ S) l)
          end).
  rewrite Hf. f_equal. apply IH. intros k y. apply Hf.
Qed.

Lemma filter_none {A} (P : A -> bool) (l : list A) :
  (forall x, In x l -> P x = false) -> List.filter P l = [].
Proof.
  induction l as [|x l IH]; intros H; [done|].
  cbn. rewrite (H x) by (by left). apply IH. intros y Hy. apply H. by right.
Qed.

(** X6.  The table [parent_child_mapping] lists the parents in order, and
    beside each parent the identifiers of exactly the child chunks of the
    chunk list that name it, in list order. *)
Theorem mapping_lists_children :
  map fst (mapping_of the_result) = parent_ids
  /\ forall i pid ids,
       mapping_of the_result !! i = Some (pid, ids) ->
       map Some ids = map chunk_id_text (children_of pid the_chunks).
Proof.
  unfold the_result, chunk_markdown. fold sections. fold split_all.
  cbn [mapping_of]. split.
  - apply list_eq. intros i. unfold parent_ids.
    rewrite list_lookup_fmap, !list_lookup_imap, split_all_lookup.
    by destruct (sections !! i).
  - intros i pid ids Hi.
    rewrite list_lookup_imap, split_all_lookup in Hi.
    destruct (sections !! i) as [d|] eqn:Hd; [|done].
    cbn in Hi. injection Hi as <- <-.
    rewrite split_parent_children.
    unfold child_ids.
    rewrite (omap_imap_some _ _
               (fun k _ => child_id_of (parent_id_of filename i) k)).
    2:{ intros k chunk. cbn [metadata make_child]. by dict_lookup. }
    unfold children_of. rewrite the_chunks_eq, child_part_blocks.
    rewrite List.filter_app, filter_none, app_nil_l.
    2:{ intros x Hx. apply in_map_iff in Hx as (p & <- & _).
        unfold str_field_is at 1. by rewrite parent_data_chunk_type. }
    rewrite (filter_one_block _ child_blocks i).
    + unfold child_blocks. rewrite list_lookup_imap, Hd. cbn.
      apply list_eq. intros k.
      rewrite !list_lookup_fmap, !list_lookup_imap.
      destruct (child_texts d !! k) as [chunk|]; [|done]. cbn.
      destruct (child_chunk_fields (parent_id_of filename i)
                  (tag_parent filename i d) k chunk) as (Hid & _).
      cbn zeta in Hid. unfold chunk_id_text. by rewrite Hid.
    + intros j b x Hb Hx.
      destruct (child_block_member j b x Hb Hx)
        as (d' & k & chunk & _ & _ & _ & ->).
      destruct (child_chunk_fields (parent_id_of filename j)
                  (tag_parent filename j d') k chunk) as (_ & Hty & Hpid & _).
      cbn zeta in Hty, Hpid. unfold str_field_is. rewrite Hty, Hpid.
      cbn [andb]. unfold text_eqb at 1.
      rewrite bool_decide_eq_true_2 by done. cbn [andb].
      unfold text_eqb. apply bool_decide_ext. split.
      * apply parent_id_of_inj.
      * by intros ->.
Qed.

(** *** Looking a parent up from a child *)

Definition child_doc_blocks : list (list document) :=
  imap (fun i d =>
          imap (make_child filename (parent_id_of filename i)
                  (tag_parent filename i d))
               (child_texts d))
       sections.

Lemma child_docs_eq : map snd split_all = child_doc_blocks.
Proof.
  apply list_eq. intros i. unfold child_doc_blocks.
  rewrite list_lookup_fmap, split_all_lookup, list_lookup_imap.
  destruct (sections !! i) as [d|]; [|done]. cbn.
  by rewrite split_parent_children.
Qed.

Lemma child_doc_member (c : document) :
  In c (concat (map snd split_all)) <->
  exists i d k chunk,
    sections !! i = Some d /\ child_texts d !! k = Some chunk
    /\ c = make_child filename (parent_id_of filename i)
             (tag_parent filename i d) k chunk.
Proof.
  rewrite child_docs_eq, in_concat. split.
  - intros (b & Hb & Hc). unfold child_doc_blocks in Hb.
    apply list_elem_of_In, elem_of_lookup_imap in Hb as (i & d & -> & Hd).
    apply list_elem_of_In, elem_of_lookup_imap in Hc as (k & chunk & -> & Hk).
    by exists i, d, k, chunk.
  - intros (i & d & k & chunk & Hd & Hk & ->).
    eexists. split.
    + apply list_elem_of_In, elem_of_lookup_imap. by exists i, d.
    + apply list_elem_of_In, elem_of_lookup_imap. by exists k, chunk.
Qed.

Lemma make_child_ids (pid : text) (parent : document) (k : nat) (chunk : text) :
  get_opt (metadata (make_child filename pid parent k chunk)) "child_id"
    = PStr (child_id_of pid k)
  /\ get_opt (metadata (make_child filename pid parent k chunk)) "parent_id"
    = PStr pid.
Proof.
  unfold get_opt, dict_get. cbn [metadata make_child]. by dict_lookup.
Qed.

Lemma split_parent_parent (i : nat) (d : document) :
  get_opt (metadata (fst (split_parent recursive_split_text self filename i d)))
          "parent_id" = PStr (parent_id_of filename i)
  /\ page_content (fst (split_parent recursive_split_text self filename i d))
     = page_content d.
Proof.
  unfold split_parent, get_opt, dict_get. cbn [page_content tag_parent].
  destruct (_ <? _)%nat;
    cbn [fst metadata page_content tag_parent mark_standalone];
    by dict_lookup.
Qed.

Lemma parent_id_truthy (i : nat) :
  truthy (PStr (parent_id_of filename i)) = true.
Proof.
  unfold parent_id_of. cbn [truthy]. destruct filename; [|done].
  by vm_compute.
Qed.

(** X5.  [get_parent_context] gives, for the identifier of a child chunk, the
    whole text of the section the child was cut from; for the identifier
    of a parent chunk (also of a stand-alone one, which is stored under
    that identifier as its own [child_id]) it gives [None]. *)
Theorem get_parent_context_of_child :
  (forall i d k chunk,
     sections !! i = Some d -> child_texts d !! k = Some chunk ->
     get_parent_context py_eq the_result
       (child_id_of (parent_id_of filename i) k)
     = Some (page_content d))
  /\ forall i,
       get_parent_context py_eq the_result (parent_id_of filename i) = None.
Proof.
  unfold the_result, chunk_markdown. fold sections. fold split_all.
  cbn [get_parent_context]. split.
  - intros i d k chunk Hd Hk.
    rewrite (find_the_one _ _
               (make_child filename (parent_id_of filename i)
                  (tag_parent filename i d) k chunk)).
    + destruct (make_child_ids (parent_id_of filename i)
                  (tag_parent filename i d) k chunk) as [_ ->].
      rewrite parent_id_truthy. cbn [negb].
      rewrite (find_the_one _ _
                 (fst (split_parent recursive_split_text self filename i d))).
      * cbn. f_equal. apply split_parent_parent.
      * apply in_map_iff. eexists. split; [reflexivity|].
        apply list_elem_of_In, list_elem_of_lookup. exists i.
        by rewrite split_all_lookup, Hd.
      * destruct (split_parent_parent i d) as [-> _]. cbn.
        by apply text_eqb_eq.
      * intros p Hp Hsame.
        apply in_map_iff in Hp as ([p' cs] & <- & Hin).
        apply list_elem_of_In, list_elem_of_lookup in Hin as [j Hj].
        rewrite split_all_lookup in Hj.
        destruct (sections !! j) as [d'|] eqn:Hd'; [|done].
        cbn in Hj. injection Hj as Hj.
        assert (Hp : p' = fst (split_parent recursive_split_text self
                                 filename j d')) by (by rewrite Hj).
        cbn [fst] in *. subst p'.
        destruct (split_parent_parent j d') as [Hpid _].
        rewrite Hpid in Hsame. cbn in Hsame.
        apply text_eqb_eq, parent_id_of_inj in Hsame. subst j.
        rewrite Hd in Hd'. by injection Hd' as <-.
    + apply child_doc_member. by exists i, d, k, chunk.
    + destruct (make_child_ids (parent_id_of filename i)
                  (tag_parent filename i d) k chunk) as [-> _].
      cbn. by apply text_eqb_eq.
    + intros c Hc Hsame.
      apply child_doc_member in Hc as (j & d' & l & chunk' & Hd' & Hl & ->).
      destruct (make_child_ids (parent_id_of filename j)
                  (tag_parent filename j d') l chunk') as [Hcid _].
      rewrite Hcid in Hsame. cbn in Hsame.
      apply text_eqb_eq, child_id_of_inj in Hsame as [-> ->].
      rewrite Hd in Hd'. injection Hd' as <-.
      rewrite Hk in Hl. by injection Hl as <-.
  - intros i. rewrite find_no_one; [done|].
    intros c Hc.
    apply child_doc_member in Hc as (j & d' & l & chunk' & Hd' & Hl & ->).
    destruct (make_child_ids (parent_id_of filename j)
                (tag_parent filename j d') l chunk') as [-> _].
    cbn. apply not_true_iff_false. intros Heq%text_eqb_eq.
    symmetry in Heq. by apply parent_id_not_child_id in Heq.
Qed.

End Linkage.

(** The one child of a document made of one long section. *)
Definition long_section_child : gmap string pyval :=
  child_data
    (make_child (u8 "doc") (parent_id_of (u8 "doc") 0)
       (tag_parent (u8 "doc") 0 (Document ∅ long_section)) 0 long_section).

Lemma child_resolves_to_one_parent_witness :
  exists i p,
    parents_of (the_result one_section one_chunk ascii_digit init
                  long_section (u8 "doc")) !! i = Some p
    /\ long_section_child !! "parent_id" = parent_data p !! "chunk_id".
Proof.
  destruct (child_resolves_to_one_parent one_section one_chunk ascii_digit
              init long_section (u8 "doc") long_section_child)
    as (i & p & Hp & _ & _ & Hid & _).
  - vm_compute. right. left. reflexivity.
  - vm_compute. reflexivity.
  - by exists i, p.
Defined.

Lemma get_parent_context_of_child_witness :
  get_parent_context (fun _ _ => false)
    (the_result one_section one_chunk ascii_digit init long_section (u8 "doc"))
    (u8 "doc_parent_0_child_0")
  = Some long_section.
Proof.
  destruct (get_parent_context_of_child one_section one_chunk ascii_digit
              (fun _ _ => false) init long_section (u8 "doc")) as [H _].
  apply (H 0%nat (Document ∅ long_section) 0%nat long_section);
    vm_compute; reflexivity.
Defined.

End ChunkingFacts.

(** * [src/documents/service.py]: a section with its neighbours *)

Module DocumentService.
Import Text.

(** The columns of a [Chunk] row the function reads. *)
Record Chunk : Type := {
  id : Z;
  content : text;
  header_1 : option text;
  parent_id : option text;
  chunk_type : text;
}.

(** [str(n)] *)
Definition str_Z (z : Z) : text := Chunking.ascii_text (pretty z).

(** [(chunk.parent_id and chunk.parent_id == section_id)
     or str(chunk.id) == section_id] *)
Definition is_section (section_id : text) (chunk : Chunk) : bool :=
  match parent_id chunk with
  | Some p => nonempty p && text_eqb p section_id
  | None => false
  end
  || text_eqb (str_Z (id chunk)) section_id.

(** The index at which the [for ... break] loop stops. *)
Fixpoint first_index {A} (P : A -> bool) (l : list A) : option nat :=
  match l with
  | [] => None
  | x :: l' => if P x then Some O else S <$> first_index P l'
  end.

(** [xs[a:b]] for [a >= 0]. *)
Definition py_slice {A} (a b : Z) (xs : list A) : list A :=
  let stop := if 0 <=? b then Z.to_nat b
              else Z.to_nat (Z.of_nat (length xs) + b) in
  drop (Z.to_nat a) (take stop xs).

Record section_view : Type := {
  view_section_id : text;
  view_title : text;
  view_content : text;
}.

Record neighbors_context : Type := {
  context_text : text;
  sections : list section_view;
  main_section_id : text;
  main_section_title : text;
}.

(** [x or ""] *)
Definition or_empty (x : option text) : text := default [] x.

(** A value of type [Optional[str]] inside an f-string. *)
Definition str_opt (x : option text) : text :=
  match x with
  | Some s => s
  | None => u8 "None"
  end.

Definition view (c : Chunk) : section_view :=
  {| view_section_id :=
       match parent_id c with
       | Some p => if nonempty p then p else str_Z (id c)
       | None => str_Z (id c)
       end;
     view_title := or_empty (header_1 c);
     view_content := content c |}.

Section Service.
Variable World : Type.
(** [DocumentRepository().get_chunks_by_document(document_id, session)] *)
Variable get_chunks_by_document : Z -> M World (list Chunk).

Local Open Scope py_scope.

(** [get_section_with_neighbors_context(document_id, section_id, session,
    neighbor_count)] *)
Definition get_section_with_neighbors_context (document_id : Z)
    (section_id : text) (neighbor_count : Z) : M World neighbors_context :=
  let! chunks := get_chunks_by_document document_id in
  let parent_chunks :=
    List.filter (fun c => text_eqb (chunk_type c) (u8 "parent")) chunks in
  match first_index (is_section section_id) parent_chunks with
  | None =>
    fun w => (Raise (Exception "해당 section_id의 조항을 찾을 수 없습니다."), w)
  | Some section_idx =>
    let start := Z.max 0 (Z.of_nat section_idx - neighbor_count) in
    let stop := Z.min (Z.of_nat (length parent_chunks))
                      (Z.of_nat section_idx + neighbor_count + 1) in
    let context_chunks := py_slice start stop parent_chunks in
    ret {| context_text :=
             join (u8 "

")
               (map (fun c => u8 "[" ++ str_opt (header_1 c) ++ u8 "]"
                                ++ [10%N] ++ content c)
                    context_chunks);
           sections := map view context_chunks;
           main_section_id := section_id;
           main_section_title :=
             match parent_chunks !! section_idx with
             | Some c => or_empty (header_1 c)
             | None => []
             end |}
  end.

End Service.

Lemma first_index_spec {A} (P : A -> bool) (l : list A) :
  match first_index P l with
  | Some i =>
    (exists x, l !! i = Some x /\ P x = true)
    /\ forall j y, (j < i)%nat -> l !! j = Some y -> P y = false
  | None => forall x, In x l -> P x = false
  end.
Proof.
  induction l as [|x l IH]; [by intros x []|].
  cbn [first_index]. destruct (P x) eqn:Hx.
  - split; [by exists x|]. intros j y Hj. lia.
  - destruct (first_index P l) as [i|]; cbn.
    + destruct IH as [(z & Hz & HPz) Hbefore].
      split; [by exists z|].
      intros [|j] y Hj Hy; cbn in Hy; [congruence|].
      apply (Hbefore j); [lia | done].
    + intros y [<-|Hy]; [done | by apply IH].
Qed.

Section ServiceFacts.
Variable World : Type.
Variable get_chunks_by_document : Z -> M World (list Chunk).

Local Abbreviation context :=
  (get_section_with_neighbors_context World get_chunks_by_document).

(** The parent chunks of a document, in the order of the query. *)
Definition parents (chunks : list Chunk) : list Chunk :=
  List.filter (fun c => text_eqb (chunk_type c) (u8 "parent")) chunks.

(** X7.  With a neighbour count that is not negative, the call fails with
    [ValueError] exactly when no parent chunk of the document answers to
    the section identifier; otherwise it returns a window of consecutive
    parent chunks, at most [neighbor_count] before and [neighbor_count]
    after the first chunk that answers to the identifier, cut at the ends
    of the document; that chunk is in the window and gives the title. *)
Theorem neighbors_window
    (document_id : Z) (section_id : text) (neighbor_count : Z)
    (chunks : list Chunk) (w w' : World) :
  0 <= neighbor_count ->
  get_chunks_by_document document_id w = (Ok chunks, w') ->
  ((forall c, In c (parents chunks) -> is_section section_id c = false) ->
   exists e, context document_id section_id neighbor_count w = (Raise e, w'))
  /\ forall c, In c (parents chunks) -> is_section section_id c = true ->
       exists (r : neighbors_context) (idx first : nat) (main : Chunk),
         context document_id section_id neighbor_count w = (Ok r, w')
         /\ parents chunks !! idx = Some main
         /\ is_section section_id main = true
         /\ (forall j y, (j < idx)%nat -> parents chunks !! j = Some y ->
               is_section section_id y = false)
         /\ first = (idx - Z.to_nat neighbor_count)%nat
         /\ (forall j, (j < length (sections r))%nat ->
               sections r !! j = view <$> parents chunks !! (first + j)%nat)
         /\ length (sections r)
            = (Nat.min (length (parents chunks)) (idx + Z.to_nat neighbor_count + 1)
               - first)%nat
         /\ (1 <= length (sections r) <= 2 * Z.to_nat neighbor_count + 1)%nat
         /\ sections r !! (idx - first)%nat = Some (view main)
         /\ main_section_id r = section_id
         /\ main_section_title r = or_empty (header_1 main).
Proof.
  intros Hn Hget.
  unfold get_section_with_neighbors_context, bind. rewrite Hget.
  fold (parents chunks).
  pose proof (first_index_spec (is_section section_id) (parents chunks)) as Hspec.
  destruct (first_index (is_section section_id) (parents chunks)) as [idx|].
  - destruct Hspec as [(main & Hmain & Hmatch) Hbefore]. split.
    + intros Hnone. exfalso.
      assert (Hin : In main (parents chunks)).
      { apply list_elem_of_In. by eapply list_elem_of_lookup_2. }
      rewrite (Hnone main Hin) in Hmatch. done.
    + intros c0 _ _.
      pose proof (lookup_lt_Some _ _ _ Hmain) as Hlt.
      set (n := Z.to_nat neighbor_count).
      set (len := length (parents chunks)) in *.
      assert (Hslice :
        py_slice (Z.max 0 (Z.of_nat idx - neighbor_count))
          (Z.min (Z.of_nat len) (Z.of_nat idx + neighbor_count + 1))
          (parents chunks)
        = drop (idx - n) (take (Nat.min len (idx + n + 1)) (parents chunks))).
      { unfold py_slice.
        destruct (Z.leb_spec 0 (Z.min (Z.of_nat len)
                                  (Z.of_nat idx + neighbor_count + 1))); [|lia].
        f_equal; [unfold n; lia|]. f_equal. unfold n. lia. }
      eexists _, idx, (idx - n)%nat, main. unfold ret.
      split; [reflexivity|]. cbn [sections main_section_id main_section_title].
      rewrite Hslice, Hmain.
      assert (Hlen : length (drop (idx - n)
                        (take (Nat.min len (idx + n + 1)) (parents chunks)))
                     = (Nat.min len (idx + n + 1) - (idx - n))%nat).
      { rewrite length_drop, length_take. fold len. lia. }
      repeat split; try done.
      * intros j Hj. rewrite length_map, Hlen in Hj.
        rewrite list_lookup_fmap, lookup_drop, lookup_take_lt by lia. done.
      * by rewrite length_map.
      * rewrite length_map, Hlen. lia.
      * rewrite length_map, Hlen. lia.
      * rewrite list_lookup_fmap, lookup_drop, lookup_take_lt by lia.
        replace (idx - n + (idx - (idx - n)))%nat with idx by lia.
        by rewrite Hmain.
  - split.
    + intros _. by eexists.
    + intros c Hc Hyes. rewrite (Hspec c Hc) in Hyes. done.
Qed.

End ServiceFacts.

(** A document of five sections and one child chunk. *)
Definition section_row (n : Z) : Chunk :=
  {| id := n; content := u8 "text";
     header_1 := Some (u8 "제" ++ str_Z n ++ u8 "조");
     parent_id := Some (u8 "doc_parent_" ++ str_Z n);
     chunk_type := u8 "parent" |}.

Definition stored_chunks : list Chunk :=
  [section_row 0; section_row 1;
   {| id := 9; content := u8 "part"; header_1 := None;
      parent_id := Some (u8 "doc_parent_1"); chunk_type := u8 "child" |};
   section_row 2; section_row 3; section_row 4].

Lemma neighbors_window_witness :
  exists r,
    get_section_with_neighbors_context unit (fun _ w => (Ok stored_chunks, w))
      1 (u8 "doc_parent_3") 1 tt = (Ok r, tt)
    /\ map view_title (sections r) = [u8 "제2조"; u8 "제3조"; u8 "제4조"]
    /\ main_section_title r = u8 "제3조".
Proof.
  destruct (neighbors_window unit (fun _ w => (Ok stored_chunks, w))
              1 (u8 "doc_parent_3") 1 stored_chunks tt tt) as [_ H];
    [lia | reflexivity |].
  destruct (H (section_row 3)) as (r & idx & first & main & Hrun & _);
    [vm_compute; tauto | vm_compute; reflexivity |].
  exists r. split; [exact Hrun|].
  vm_compute in Hrun. injection Hrun as Hr. rewrite <- Hr.
  split; vm_compute; reflexivity.
Defined.

End DocumentService.
